(** * Team formation by ant colony optimisation: a shallow embedding

    The repository holds two optimisers: [aco_v1.py] (classes [Student],
    [Team], [ACO]) and [v2/aco.py] (class [AntColonyOptimizer]).  Both are
    embedded here, each in a module of its own, together with the part of
    Python's [random] module they call.

    Conventions of the embedding.
    - Python floats are idealised as exact rationals ([Q]); the float
      power [x ** y] is left abstract ([fpow]).  Where the rounding of the
      machine's numbers decides, the code is read a second time on binary64
      numbers (module [Binary64]).
    - Ids, sizes, counts and list indices are natural numbers.
    - A Python exception is a value [Raise e] of the type [result].
    - The module-level generator of [random] is an explicit state [G],
      threaded through every call that draws from it; the generator itself
      is an interface ([RandomSource]) with the guarantees the library
      documents.
    - Methods that read or write [self] run in a state-and-error monad whose
      state is the object together with the generator. *)

From Stdlib Require Import QArith Qminmax Qround Qpower ZArith Lia Lqa.
From Stdlib Require PrimFloat.
From stdpp Require Import base option list gmap strings.

Local Open Scope Q_scope.

(** ** Exceptions and results *)

Inductive exn : Set :=
| IndexError
| ValueError
| ZeroDivisionError
| UnboundLocalError.

Inductive result (A : Type) : Type :=
| Ok (a : A)
| Raise (e : exn).
Arguments Ok {A} a.
Arguments Raise {A} e.

Definition is_Ok {A} (r : result A) : Prop :=
  match r with Ok _ => True | Raise _ => False end.

#[global] Instance result_ret : MRet result := fun A a => Ok a.
#[global] Instance result_bind : MBind result := fun A B f r =>
  match r with Ok a => f a | Raise e => Raise e end.

(** [for x in l: acc = body(acc, x)], stopping at the first exception. *)
Fixpoint foldM_result {A B} (body : A -> B -> result A) (acc : A) (l : list B)
  : result A :=
  match l with
  | [] => Ok acc
  | x :: l' => acc' ← body acc x; foldM_result body acc' l'
  end.

(** A list comprehension whose element expression may raise. *)
Fixpoint mapM_result {A B} (f : A -> result B) (l : list A) : result (list B) :=
  match l with
  | [] => Ok []
  | x :: l' => y ← f x; ys ← mapM_result f l'; Ok (y :: ys)
  end.

(** ** The state-and-error monad of a method call *)

Definition M (S A : Type) : Type := S -> result (A * S).

#[global] Instance M_ret {S} : MRet (M S) := fun A a s => Ok (a, s).
#[global] Instance M_bind {S} : MBind (M S) := fun A B f m s =>
  match m s with
  | Ok (a, s') => f a s'
  | Raise e => Raise e
  end.

Definition lift {S A} (r : result A) : M S A := fun s =>
  match r with Ok a => Ok (a, s) | Raise e => Raise e end.
Definition modify {S} (f : S -> S) : M S unit := fun s => Ok (tt, f s).

Fixpoint foldM {S A B} (body : A -> B -> M S A) (acc : A) (l : list B) : M S A :=
  match l with
  | [] => mret acc
  | x :: l' => acc' ← body acc x; foldM body acc' l'
  end.

Fixpoint mapM {S A B} (f : A -> M S B) (l : list A) : M S (list B) :=
  match l with
  | [] => mret []
  | x :: l' => y ← f x; ys ← mapM f l'; mret (y :: ys)
  end.

(** [[body() for _ in range(n)]] *)
Fixpoint replicateM {S A} (n : nat) (body : M S A) : M S (list A) :=
  match n with
  | O => mret []
  | S n' => y ← body; ys ← replicateM n' body; mret (y :: ys)
  end.

(** ** Python built-ins on lists and numbers *)

(** [l.index(x)]: the position of the first element equal to [x]. *)
Definition py_index `{EqDecision A} (x : A) (l : list A) : result nat :=
  match list_find (fun y => y = x) l with
  | Some (i, _) => Ok i
  | None => Raise ValueError
  end.

(** [l[i]] for a non-negative index. *)
Definition py_getitem {A} (l : list A) (i : nat) : result A :=
  match l !! i with
  | Some x => Ok x
  | None => Raise IndexError
  end.

(** [l[i] = f(l[i])] *)
Definition py_update {A} (l : list A) (i : nat) (f : A -> result A) : result (list A) :=
  x ← py_getitem l i; y ← f x; Ok (<[i := y]> l).

(** [sum(l)]: starts from [0] and adds from left to right. *)
Definition py_sum (l : list Q) : Q := fold_left Qplus l 0.

(** [x / y] on numbers. *)
Definition py_div (x y : Q) : result Q :=
  if Qeq_bool y 0 then Raise ZeroDivisionError else Ok (x / y).

Definition Qlt_bool (x y : Q) : bool := negb (Qle_bool y x).

(** [len({f(x) for x in l})] *)
Definition distinct_count (l : list string) : nat :=
  size (list_to_set l : gset string).

(** The positions of the elements of [l] that satisfy [p], in order:
    the list comprehension [[t for t in l if p(t)]] over a list of objects,
    each object named by its position. *)
Fixpoint positions_from {A} (p : A -> bool) (k : nat) (l : list A) : list nat :=
  match l with
  | [] => []
  | x :: l' => if p x then k :: positions_from p (S k) l' else positions_from p (S k) l'
  end.
Definition positions {A} (p : A -> bool) (l : list A) : list nat :=
  positions_from p 0 l.

(** [x or default] for an optional list: [None] and the empty list are
    falsy. *)
Definition py_or {A} (x : option (list A)) (default : list A) : list A :=
  match x with
  | Some (y :: l) => y :: l
  | _ => default
  end.

(** [a % b] on numbers that are not negative. *)
Definition py_mod (a b : nat) : result nat :=
  if (b =? 0)%nat then Raise ZeroDivisionError else Ok (a mod b)%nat.

(** ** The interface of Python's [random] module

    [G] is the state of the module-level generator.  Each operation returns
    what it draws together with the next state. *)

Class RandomSource (G : Type) : Type := {
  (** [random.seed(seed)]: the state depends on the seed alone. *)
  rand_seed : Z -> G;
  (** [random.shuffle(l)] *)
  rand_shuffle : forall {A : Type}, list A -> G -> list A * G;
  (** [random.random()] *)
  rand_random : G -> Q * G;
  (** the index [random.choice] draws for a sequence of length [n] *)
  rand_below : nat -> G -> nat * G;
  (** the index [random.choices(population, weights, k=1)] draws *)
  rand_weighted : list Q -> G -> nat * G;
  rand_shuffle_perm : forall A (l : list A) g, Permutation (rand_shuffle l g).1 l;
  rand_random_range : forall g, 0 <= (rand_random g).1 /\ (rand_random g).1 < 1;
  rand_below_lt : forall n g, (0 < n)%nat -> ((rand_below n g).1 < n)%nat;
  rand_weighted_lt : forall ws g, ws <> [] -> ((rand_weighted ws g).1 < length ws)%nat
}.

(** The float power [x ** y]. *)
Class FloatPow : Type := fpow : Q -> Q -> Q.

(** A method's world: the object and the generator. *)
Record World (Self G : Type) : Type := mkWorld { self : Self; gen : G }.
Arguments mkWorld {Self G} _ _.
Arguments self {Self G} _.
Arguments gen {Self G} _.

Section RandomCalls.
Context {Self G : Type} `{RandomSource G}.

Definition draw {A} (f : G -> A * G) : M (World Self G) A := fun w =>
  let '(a, g) := f (gen w) in Ok (a, mkWorld (self w) g).

Definition random_shuffle {A} (l : list A) : M (World Self G) (list A) :=
  draw (rand_shuffle l).

Definition random_random : M (World Self G) Q := draw rand_random.

(** [random.choice(seq)] raises [IndexError] on an empty sequence. *)
Definition random_choice {A} (l : list A) : M (World Self G) A :=
  match l with
  | [] => lift (Raise IndexError)
  | _ => k ← draw (rand_below (length l)); lift (py_getitem l k)
  end.

(** [random.choices(population, weights=ws, k=1)[0]] raises [ValueError]
    when the weights do not sum to a positive total. *)
Definition random_choices {A} (l : list A) (ws : list Q) : M (World Self G) A :=
  if negb (length l =? length ws)%nat then lift (Raise ValueError)
  else if Qle_bool (py_sum ws) 0 then lift (Raise ValueError)
  else k ← draw (rand_weighted ws); lift (py_getitem l k).

(** [random.seed(seed)] *)
Definition random_seed (seed : Z) : M (World Self G) unit :=
  modify (fun w => mkWorld (self w) (rand_seed seed)).

Definition self_ : M (World Self G) Self := fun w => Ok (self w, w).
Definition set_self (f : Self -> Self) : M (World Self G) unit :=
  modify (fun w => mkWorld (f (self w)) (gen w)).

End RandomCalls.

(** A generator for running the model: its state is a tape of numbers,
    read from the front; an exhausted tape reads as zeros. *)
Module Tape.

Definition next (g : list nat) : nat * list nat :=
  match g with
  | [] => (O, [])
  | n :: g' => (n, g')
  end.

Definition shuffle {A} (l : list A) (g : list nat) : list A * list nat :=
  let '(n, g') := next g in (rotate n l, g').

Definition random (g : list nat) : Q * list nat :=
  let '(n, g') := next g in (inject_Z (Z.of_nat (n mod 8)) / 8, g').

Definition below (n : nat) (g : list nat) : nat * list nat :=
  let '(k, g') := next g in (k mod n, g')%nat.

Definition weighted (ws : list Q) (g : list nat) : nat * list nat :=
  below (length ws) g.

Definition seed (z : Z) : list nat := [Z.to_nat z].

End Tape.

(** * [aco_v1.py] *)
Module V1.

(** ** [class Student]

    [sid] is the attribute [Student.id]; it indexes the rows of the
    pheromone matrix. *)
Record Student : Type := mkStudent {
  sid : nat;
  prefs : list nat;
  belbin : string;
  nationality : string
}.

(** [Student.satisfaction]:
    [rank = self.prefs.index(project)] raises [ValueError] when the project
    is missing, and the division raises when there is a single preference. *)
Definition satisfaction (self : Student) (project : nat) : result Q :=
  rank ← py_index project (prefs self);
  let n := Z.of_nat (length (prefs self)) in
  py_div (inject_Z (n - 1 - Z.of_nat rank)) (inject_Z (n - 1)).

(** ** [class Team]

    [tid] is the attribute [Team.id]. *)
Record Team : Type := mkTeam {
  tid : nat;
  project : nat;
  capacity : nat;
  students : list Student
}.

(** [Team(tid, project, capacity)] *)
Definition new_Team (tid project capacity : nat) : Team :=
  mkTeam tid project capacity [].

Definition eq_str (a b : string) : bool := bool_decide (a = b).

(** [Team.can_add(student, max_same_nat, unlimited_nat)] *)
Definition can_add (self : Team) (student : Student)
    (max_same_nat : nat) (unlimited_nat : string) : bool :=
  if (capacity self <=? length (students self))%nat then false
  else if eq_str (nationality student) unlimited_nat then true
  else
    let n_same :=
      length (List.filter (fun s => eq_str (nationality s) (nationality student))
                          (students self)) in
    (n_same <? max_same_nat)%nat.

(** The defaults of [can_add]'s keyword arguments. *)
Definition default_max_same_nat : nat := 2.
Definition default_unlimited_nat : string := "Dutch".

(** [Team.add] *)
Definition add (self : Team) (student : Student) : Team :=
  mkTeam (tid self) (project self) (capacity self) (students self ++ [student]).

(** [Team.__len__] *)
Definition len (self : Team) : nat := length (students self).

(** [Team._satisfaction_score] *)
Definition _satisfaction_score (self : Team) : result Q :=
  match students self with
  | [] => Ok 0
  | _ =>
      sats ← mapM_result (fun s => satisfaction s (project self)) (students self);
      py_div (py_sum sats) (inject_Z (Z.of_nat (length (students self))))
  end.

(** [Team._belbin_diversity] *)
Definition _belbin_diversity (self : Team) : result Q :=
  match students self with
  | [] => Ok 0
  | _ =>
      py_div (inject_Z (Z.of_nat (distinct_count (map belbin (students self)))))
             (inject_Z (Z.of_nat (length (students self))))
  end.

(** [Team.fitness] *)
Definition fitness (self : Team) : result Q :=
  sat ← _satisfaction_score self;
  div ← _belbin_diversity self;
  Ok ((1 # 2) * sat + (1 # 2) * div).

(** ** [class ACO]

    [aco_students] is the attribute [ACO.students]. *)
Record ACO : Type := mkACO {
  aco_students : list Student;
  n_projects : nat;
  teams_per_project : nat;
  team_size : nat;
  n_teams : nat;
  alpha : Q;
  beta : Q;
  rho : Q;
  n_ants : nat;
  n_iter : nat;
  q : Q;
  tau : list (list Q);
  base_teams : list Team
}.

Definition with_tau (self : ACO) (t : list (list Q)) : ACO :=
  mkACO (aco_students self) (n_projects self) (teams_per_project self)
        (team_size self) (n_teams self) (alpha self) (beta self) (rho self)
        (n_ants self) (n_iter self) (q self) t (base_teams self).

(** The pheromone floor of [update_pheromones] and the offset of
    [heuristic], both [1e-6]. *)
Definition tau_floor : Q := 1 # 1000000.
Definition eta_eps : Q := 1 # 1000000.

(** The fields [ACO.__init__] sets. *)
Definition init_fields (students : list Student)
    (n_projects teams_per_project team_size : nat) (alpha beta rho : Q)
    (n_ants n_iter : nat) (q : Q) : ACO :=
  let n_teams := (n_projects * teams_per_project)%nat in
  mkACO students n_projects teams_per_project team_size n_teams
        alpha beta rho n_ants n_iter q
        (replicate (length students) (replicate n_teams 1))
        (map (fun j => mkTeam j (j / teams_per_project)%nat team_size [])
             (seq 0 n_teams)).

(** ** The pheromone update, on the matrix *)

(** [tau[i][j] *= (1 - rho)], then the clamp to the floor. *)
Definition evaporate_entry (rho : Q) (w : Q) : Q :=
  let w' := w * (1 - rho) in
  if Qlt_bool w' tau_floor then tau_floor else w'.

(** [tau[i][j] = f(tau[i][j])] *)
Definition tau_update (t : list (list Q)) (i j : nat) (f : Q -> Q)
  : result (list (list Q)) :=
  py_update t i (fun row => py_update row j (fun w => Ok (f w))).

(** The two nested [range] loops of the evaporation. *)
Definition evaporate (rho : Q) (n_students n_teams : nat) (t : list (list Q))
  : result (list (list Q)) :=
  foldM_result
    (fun t i =>
       foldM_result (fun t j => tau_update t i j (evaporate_entry rho))
                    t (seq 0 n_teams))
    t (seq 0 n_students).

(** [max(ants_solutions, key=lambda x: x[1])]: the first element whose
    fitness no other exceeds; [ValueError] on an empty list. *)
Fixpoint max_from {A} (best : A * Q) (l : list (A * Q)) : A * Q :=
  match l with
  | [] => best
  | x :: l' => if Qlt_bool best.2 x.2 then max_from x l' else max_from best l'
  end.
Definition max_by_fitness {A} (l : list (A * Q)) : result (A * Q) :=
  match l with
  | [] => Raise ValueError
  | x :: l' => Ok (max_from x l')
  end.

(** [for t in best_teams: for s in t.students: tau[s.id][t.id] += amount] *)
Definition reinforce (amount : Q) (teams : list Team) (t : list (list Q))
  : result (list (list Q)) :=
  foldM_result
    (fun t team =>
       foldM_result
         (fun t s => tau_update t (sid s) (tid team) (fun w => w + amount))
         t (students team))
    t teams.

(** The matrix after [ACO.update_pheromones(ants_solutions)]. *)
Definition updated_tau (self : ACO) (ants_solutions : list (list Team * Q))
  : result (list (list Q)) :=
  t ← evaporate (rho self) (length (aco_students self)) (n_teams self) (tau self);
  best ← max_by_fitness ants_solutions;
  reinforce (q self * best.2) best.1 t.

Section Methods.
Context {G : Type} `{RandomSource G} `{FloatPow}.

Local Abbreviation Method := (M (World ACO G)).

(** [ACO(students, ..., seed)]: seeds the module-level generator, whatever
    its state was, and builds the object. *)
Definition new_ACO (students : list Student)
    (n_projects teams_per_project team_size : nat) (alpha beta rho : Q)
    (n_ants n_iter : nat) (q : Q) (seed : Z) (g : G) : World ACO G :=
  mkWorld (init_fields students n_projects teams_per_project team_size
                       alpha beta rho n_ants n_iter q)
          (rand_seed seed).

(** [ACO.heuristic] *)
Definition heuristic (self : ACO) (student : Student) (team : Team) : result Q :=
  sat ← satisfaction student (project team);
  let roles := belbin student :: map belbin (students team) in
  belbin ← py_div (inject_Z (Z.of_nat (distinct_count roles)))
                  (inject_Z (Z.of_nat (team_size self)));
  let predicted := (1 # 2) * sat + (1 # 2) * belbin in
  Ok (predicted + eta_eps).

(** The feasible teams of a student, by position: those passing [can_add]
    and, when there is none, those below capacity. *)
Definition feasible_teams (teams : list Team) (s : Student) : list nat :=
  let feasible :=
    positions (fun t => can_add t s default_max_same_nat default_unlimited_nat)
              teams in
  match feasible with
  | [] => positions (fun t => (len t <? capacity t)%nat) teams
  | _ => feasible
  end.

(** One entry of [probabilities]: reads [self.tau[s.id][t.id]]. *)
Definition weight (teams : list Team) (s : Student) (pos : nat) : Method Q :=
  me ← self_;
  t ← lift (py_getitem teams pos);
  row ← lift (py_getitem (tau me) (sid s));
  w ← lift (py_getitem row (tid t));
  let tau_ij := fpow w (alpha me) in
  eta ← lift (heuristic me s t);
  let eta_ij := fpow eta (beta me) in
  mret (tau_ij * eta_ij).

(** The inversion loop over [zip(feasible, probabilities)]: the first team
    whose cumulative weight reaches [r], if any. *)
Fixpoint first_reaching (r cumulative : Q) (fp : list (nat * Q)) : option nat :=
  match fp with
  | [] => None
  | (t, p) :: fp' =>
      let cumulative := cumulative + p in
      if Qle_bool r cumulative then Some t else first_reaching r cumulative fp'
  end.

(** What the body of the [for s in unassigned] loop does to the local
    variable [chosen_team]; [chosen] is its binding on entry ([None] while
    it is unbound). *)
Definition choose_team (chosen : option nat) (feasible : list nat)
    (probabilities : list Q) : Method (option nat) :=
  let total := py_sum probabilities in
  if Qeq_bool total 0 then
    t ← random_choice feasible; mret (Some t)
  else
    u ← random_random;
    let r := u * total in
    match first_reaching r 0 (zip feasible probabilities) with
    | Some t => mret (Some t)
    | None => mret chosen
    end.

(** [chosen_team.add(s)] *)
Definition add_to (teams : list Team) (chosen : option nat) (s : Student)
  : result (list Team) :=
  match chosen with
  | None => Raise UnboundLocalError
  | Some pos => py_update teams pos (fun t => Ok (add t s))
  end.

(** The body of the loop over the shuffled students. *)
Definition place (st : list Team * option nat) (s : Student)
  : Method (list Team * option nat) :=
  let '(teams, chosen) := st in
  let feasible := feasible_teams teams s in
  probabilities ← mapM (weight teams s) feasible;
  chosen ← choose_team chosen feasible probabilities;
  teams ← lift (add_to teams chosen s);
  mret (teams, chosen).

(** [sum(t.fitness() for t in teams) / self.n_teams] *)
Definition solution_fitness (teams : list Team) (n_teams : nat) : result Q :=
  fs ← mapM_result fitness teams;
  py_div (py_sum fs) (inject_Z (Z.of_nat n_teams)).

(** [ACO.construct_solution] *)
Definition construct_solution : Method (list Team * Q) :=
  me ← self_;
  let teams :=
    map (fun t => new_Team (tid t) (project t) (team_size me)) (base_teams me) in
  unassigned ← random_shuffle (aco_students me);
  st ← foldM place (teams, None) unassigned;
  fit ← lift (solution_fitness st.1 (n_teams me));
  mret (st.1, fit).

(** [ACO.update_pheromones] *)
Definition update_pheromones (ants_solutions : list (list Team * Q)) : Method unit :=
  me ← self_;
  t ← lift (updated_tau me ants_solutions);
  set_self (fun me => with_tau me t).

(** One pass of the loop of [ACO.run]; [best] is the pair
    [(global_best_teams, global_best_fit)], [None] standing for
    [(None, -inf)]. *)
Definition iteration (best : option (list Team * Q)) (it : nat)
  : Method (option (list Team * Q)) :=
  me ← self_;
  ants_solutions ← replicateM (n_ants me) construct_solution;
  _ ← update_pheromones ants_solutions;
  iter_best ← lift (max_by_fitness ants_solutions);
  match best with
  | None => mret (Some iter_best)
  | Some (_, global_best_fit) =>
      if Qlt_bool global_best_fit iter_best.2 then mret (Some iter_best)
      else mret best
  end.

(** [ACO.run] *)
Definition run : Method (option (list Team * Q)) :=
  me ← self_;
  foldM iteration None (seq 0 (n_iter me)).

End Methods.
(** ** [generate_sample_data] and the script

    Module-level code has no object: its world holds the generator
    alone. *)

Definition default_belbin_roles : list string :=
  ["Plant"; "Resource Investigator"; "Co-ordinator"; "Shaper";
   "Monitor Evaluator"; "Teamworker"; "Implementer"; "Completer Finisher";
   "Specialist"].

Definition default_nationalities : list string :=
  ["Dutch"; "German"; "Italian"; "Spanish"; "Polish"; "French"; "Chinese";
   "Indian"].

Section SampleData.
Context {G : Type} `{RandomSource G} `{FloatPow}.

(** The body of the loop [for sid in range(n_students)]. *)
Definition sample_student (n_projects : nat)
    (belbin_roles nationalities : list string) (pref_noise : Q)
    (students : list Student) (sid : nat) : M (World unit G) (list Student) :=
  prefs ← random_shuffle (seq 0 n_projects);
  u ← random_random;
  prefs ← (if Qlt_bool u pref_noise
           then p ← random_choice prefs; mret (p :: prefs)
           else mret prefs);
  belbin ← random_choice belbin_roles;
  nationality ← random_choice nationalities;
  mret (students ++ [mkStudent sid prefs belbin nationality]).

(** [generate_sample_data(n_students, n_projects, belbin_roles,
    nationalities, pref_noise, seed)] *)
Definition generate_sample_data (n_students n_projects : nat)
    (belbin_roles nationalities : option (list string)) (pref_noise : Q)
    (seed : Z) : M (World unit G) (list Student) :=
  _ ← random_seed seed;
  let belbin_roles := py_or belbin_roles default_belbin_roles in
  let nationalities := py_or nationalities default_nationalities in
  foldM (sample_student n_projects belbin_roles nationalities pref_noise)
        [] (seq 0 n_students).


End SampleData.

End V1.

(** * [v2/aco.py] *)
Module V2.

(** A student is the dictionary [data_loader.load_student_data] builds:
    the keys ['student_id'], ['preferences'], ['belbin_role'] and
    ['nationality'] are always present. *)
Record Student : Type := mkStudent {
  student_id : string;
  preferences : list string;
  belbin_role : string;
  nationality : string
}.

#[global] Instance Student_eq_dec : EqDecision Student.
Proof. solve_decision. Defined.

(** ** [class AntColonyOptimizer]

    [pheromones] is a [defaultdict(lambda: 1.0)]: only the keys that were
    read or written are stored. *)
Record AntColonyOptimizer : Type := mkOptimizer {
  students : list Student;
  num_teams : nat;
  team_size : nat;
  max_iter : nat;
  num_ants : nat;
  alpha : Q;
  beta : Q;
  rho : Q;
  preference_weight : Q;
  pheromones : gmap (string * nat) Q
}.

Definition with_pheromones (self : AntColonyOptimizer)
    (p : gmap (string * nat) Q) : AntColonyOptimizer :=
  mkOptimizer (students self) (num_teams self) (team_size self) (max_iter self)
              (num_ants self) (alpha self) (beta self) (rho self)
              (preference_weight self) p.

(** The value a [defaultdict(lambda: 1.0)] yields for a missing key. *)
Definition default_pheromone : Q := 1.

(** What the store yields for a key, stored or not. *)
Definition pheromone_of (p : gmap (string * nat) Q) (key : string * nat) : Q :=
  default (default_pheromone) (p !! key).

(** [AntColonyOptimizer(students, num_teams, ...)]: the generator is left
    as it is.  (The attribute [project_list] is never read and is left
    out.) *)
Definition new_optimizer {G} (students : list Student)
    (num_teams team_size max_iter num_ants : nat)
    (alpha beta rho preference_weight : Q) (g : G)
  : World AntColonyOptimizer G :=
  mkWorld (mkOptimizer students num_teams team_size max_iter num_ants
                       alpha beta rho preference_weight ∅)
          g.

Definition py_sum_Z (l : list Z) : Z := fold_left Z.add l 0%Z.

(** [AntColonyOptimizer.heuristic] *)
Definition heuristic (self : AntColonyOptimizer) (student : Student)
    (team : list Student) : Q :=
  match team with
  | [] => 1
  | _ =>
      let roles := map belbin_role team in
      let div_score :=
        if bool_decide (belbin_role student ∈ roles) then 1 # 2 else 1 in
      let prefs := preferences student in
      let team_projects := flat_map (fun s => take 1 (preferences s)) team in
      let terms :=
        omap (fun p => match list_find (fun y => y = p) prefs with
                       | Some (i, _) => Some (5 - Z.of_nat i)%Z
                       | None => None
                       end)
             team_projects in
      let pref_score :=
        inject_Z (py_sum_Z terms)
        / (inject_Z (5 * Z.of_nat (length team_projects)) + (1 # 100000)) in
      preference_weight self * pref_score
      + (1 - preference_weight self) * div_score
  end.

(** The [try] block of [evaluate]: [5 - prefs.index(prefs[0])], with the
    [ValueError] of [index] passed over and any other exception raised. *)
Definition member_preference (s : Student) : result Z :=
  first ← py_getitem (preferences s) 0;
  match py_index first (preferences s) with
  | Ok i => Ok (5 - Z.of_nat i)%Z
  | Raise ValueError => Ok 0%Z
  | Raise e => Raise e
  end.

(** The two terms one team adds to [total_div] and [total_pref]. *)
Definition team_terms (team : list Student) : result (Q * Q) :=
  ps ← mapM_result member_preference team;
  let prefs := py_sum_Z ps in
  let div := inject_Z (Z.of_nat (distinct_count (map belbin_role team))) / 9 in
  let pref :=
    match team with
    | [] => 0
    | _ => inject_Z prefs / inject_Z (5 * Z.of_nat (length team))
    end in
  Ok (div, pref).

(** [AntColonyOptimizer.evaluate] *)
Definition evaluate (self : AntColonyOptimizer) (teams : list (list Student))
  : result Q :=
  terms ← mapM_result team_terms teams;
  let total_div := py_sum (map fst terms) in
  let total_pref := py_sum (map snd terms) in
  avg_div ← py_div total_div (inject_Z (Z.of_nat (length teams)));
  avg_pref ← py_div total_pref (inject_Z (Z.of_nat (length teams)));
  Ok (preference_weight self * avg_pref + (1 - preference_weight self) * avg_div).

(** [AntColonyOptimizer.evaporate_pheromones], on the store. *)
Definition evaporate (rho : Q) (p : gmap (string * nat) Q) : gmap (string * nat) Q :=
  (fun w => w * (1 - rho)) <$> p.

(** [self.pheromones[key] += amount] *)
Definition deposit (amount : Q) (p : gmap (string * nat) Q) (key : string * nat)
  : gmap (string * nat) Q :=
  <[key := pheromone_of p key + amount]> p.

(** The keys [(student_id, idx)] of a solution, in the order the loops of
    [update_pheromones] visit them. *)
Definition solution_keys (teams : list (list Student)) : list (string * nat) :=
  concat (imap (fun idx team => map (fun s => (student_id s, idx)) team) teams).

(** [AntColonyOptimizer.update_pheromones], on the store. *)
Definition reinforce_all (solutions : list (list (list Student) * Q))
    (p : gmap (string * nat) Q) : gmap (string * nat) Q :=
  fold_left
    (fun p sol => fold_left (deposit sol.2) (solution_keys sol.1) p)
    solutions p.

Section Methods.
Context {G : Type} `{RandomSource G} `{FloatPow}.

Local Abbreviation Method := (M (World AntColonyOptimizer G)).

(** [self.pheromones[key]]: reading a missing key stores the default. *)
Definition pheromone_read (key : string * nat) : Method Q :=
  me ← self_;
  match pheromones me !! key with
  | Some w => mret w
  | None =>
      _ ← set_self (fun me =>
             with_pheromones me (<[key := default_pheromone]> (pheromones me)));
      mret default_pheromone
  end.

(** One entry of [scores]. *)
Definition score (teams : list (list Student)) (student : Student) (pos : nat)
  : Method Q :=
  me ← self_;
  team ← lift (py_getitem teams pos);
  idx ← lift (py_index team teams);
  w ← pheromone_read (student_id student, idx);
  let score := fpow w (alpha me) in
  let score := score * fpow (heuristic me student team) (beta me) in
  mret score.

(** The body of the loop over the shuffled students. *)
Definition place (teams : list (list Student)) (student : Student)
  : Method (list (list Student)) :=
  me ← self_;
  let feasible_teams :=
    positions (fun t => (length t <? team_size me)%nat) teams in
  scores ← mapM (score teams student) feasible_teams;
  match scores with
  | [] => mret teams
  | _ =>
      let total := py_sum scores in
      probs ← lift (mapM_result (fun s => py_div s total) scores);
      chosen ← random_choices feasible_teams probs;
      chosen_team ← lift (py_getitem teams chosen);
      chosen_idx ← lift (py_index chosen_team teams);
      lift (py_update teams chosen_idx (fun t => Ok (t ++ [student])))
  end.

(** [AntColonyOptimizer.construct_solution] *)
Definition construct_solution : Method (list (list Student)) :=
  me ← self_;
  students ← random_shuffle (students me);
  let teams := replicate (num_teams me) [] in
  foldM place teams students.

(** [AntColonyOptimizer.evaporate_pheromones] *)
Definition evaporate_pheromones : Method unit :=
  set_self (fun me => with_pheromones me (evaporate (rho me) (pheromones me))).

(** [AntColonyOptimizer.update_pheromones] *)
Definition update_pheromones (solutions : list (list (list Student) * Q))
  : Method unit :=
  set_self (fun me => with_pheromones me (reinforce_all solutions (pheromones me))).

(** One ant of [run]; [best] is the pair [(best_solution, best_fitness)],
    [None] standing for [(None, -inf)]. *)
Definition ant (best : option (list (list Student) * Q))
  : Method ((list (list Student) * Q) * option (list (list Student) * Q)) :=
  me ← self_;
  solution ← construct_solution;
  fitness ← lift (evaluate me solution);
  let best :=
    match best with
    | None => Some (solution, fitness)
    | Some (_, best_fitness) =>
        if Qlt_bool best_fitness fitness then Some (solution, fitness) else best
    end in
  mret ((solution, fitness), best).

(** The ants of one iteration, with the solutions they append. *)
Fixpoint ants (n : nat) (all_solutions : list (list (list Student) * Q))
    (best : option (list (list Student) * Q))
  : Method (list (list (list Student) * Q) * option (list (list Student) * Q)) :=
  match n with
  | O => mret (all_solutions, best)
  | S n' =>
      r ← ant best;
      ants n' (all_solutions ++ [r.1]) r.2
  end.

(** One pass of the loop of [run]. *)
Definition iteration (best : option (list (list Student) * Q)) (it : nat)
  : Method (option (list (list Student) * Q)) :=
  me ← self_;
  r ← ants (num_ants me) [] best;
  _ ← evaporate_pheromones;
  _ ← update_pheromones r.1;
  mret r.2.

(** [AntColonyOptimizer.run] *)
Definition run : Method (option (list (list Student) * Q)) :=
  me ← self_;
  foldM iteration None (seq 0 (max_iter me)).

End Methods.
End V2.

(** * The weighted selection of [aco_v1.py] on binary64 numbers *)

(** The weights of the program are binary64 numbers.  This is lines 117 to
    128 of [aco_v1.py] on them: every operation rounds, and the value of
    the builtin [sum] depends on the interpreter. *)
Module Binary64.
Import PrimFloat.

(** [sum(probabilities)] up to CPython 3.11: from 0, one addition (one
    rounding) per item, left to right. *)
Definition py_sum_plain (l : list float) : float :=
  fold_left PrimFloat.add l 0%float.

(** One item of [sum] from CPython 3.12 on: the running sum and the
    compensation that collects what the additions round away. *)
Definition cs_add (total : float * float) (x : float) : float * float :=
  let '(hi, lo) := total in
  let t := (hi + x)%float in
  if (PrimFloat.abs x <=? PrimFloat.abs hi)%float
  then (t, (lo + ((hi - t) + x))%float)
  else (t, (lo + ((x - t) + hi))%float).

(** [sum(probabilities)] from CPython 3.12 on: the compensation is added at
    the end, when it is finite and not zero. *)
Definition py_sum_compensated (l : list float) : float :=
  let '(hi, lo) := fold_left cs_add l (0%float, 0%float) in
  if negb (PrimFloat.is_zero lo) && PrimFloat.is_finite lo
  then (hi + lo)%float else hi.

(** The inversion loop: [cumulative += p], then [r <= cumulative]. *)
Fixpoint first_reaching (r cumulative : float) (fp : list (nat * float))
  : option nat :=
  match fp with
  | [] => None
  | (t, p) :: fp' =>
      let cumulative := (cumulative + p)%float in
      if (r <=? cumulative)%float then Some t
      else first_reaching r cumulative fp'
  end.

(** [chosen_team] after the selection; [u] is the number [random.random()]
    returns and [k] the index [random.choice] draws. *)
Definition choose_team (py_sum : list float -> float) (chosen : option nat)
    (feasible : list nat) (probabilities : list float) (u : float) (k : nat)
  : result (option nat) :=
  let total := py_sum probabilities in
  if (total =? 0)%float then
    t ← py_getitem feasible k; Ok (Some t)
  else
    let r := (u * total)%float in
    match first_reaching r 0%float (zip feasible probabilities) with
    | Some t => Ok (Some t)
    | None => Ok chosen
    end.

(** One weight of 1 and four of [2^-53]: each of the four is half a unit
    in the last place of 1. *)
Definition fall_through_weights : list float :=
  [1; 0x1p-53; 0x1p-53; 0x1p-53; 0x1p-53]%float.

(** [1 - 2^-53], the largest number [random.random()] returns. *)
Definition last_draw : float := 0x1.fffffffffffffp-1%float.

End Binary64.

(** * Two runs in one process *)



(** * [v1/benchmark.py] *)
Module V1Benchmark.
Section Functions.
Context {G : Type} `{RandomSource G}.

(** The body of the loop of [random_assignment]: the feasible teams are
    those of [ACO.construct_solution]; a student with no feasible team is
    left out. *)
Definition assign (teams : list V1.Team) (student : V1.Student)
  : M (World unit G) (list V1.Team) :=
  let feasible := V1.feasible_teams teams student in
  match feasible with
  | [] => mret teams
  | _ =>
      chosen_team ← random_choice feasible;
      lift (py_update teams chosen_team (fun t => Ok (V1.add t student)))
  end.

(** [random_assignment(students, n_projects, teams_per_project, team_size)] *)
Definition random_assignment (students : list V1.Student)
    (n_projects teams_per_project team_size : nat)
  : M (World unit G) (list V1.Team * Q) :=
  let teams :=
    map (fun j => V1.new_Team j (j / teams_per_project)%nat team_size)
        (seq 0 (n_projects * teams_per_project)) in
  unassigned ← random_shuffle students;
  teams ← foldM assign teams unassigned;
  fitness ← lift (V1.solution_fitness teams (length teams));
  mret (teams, fitness).

End Functions.
End V1Benchmark.

(** * [v2/benchmark.py] *)
Module V2Benchmark.

(** [teams[i % num_teams].append(student)] *)
Definition deal (num_teams : nat) (teams : list (list V2.Student))
    (i : nat) (student : V2.Student) : result (list (list V2.Student)) :=
  k ← py_mod i num_teams;
  py_update teams k (fun t => Ok (t ++ [student])).

(** A [defaultdict(list)] keyed by project, as the list of its items in
    insertion order; [d[key].append(s)]. *)
Fixpoint group_append (key : string) (s : V2.Student)
    (d : list (string * list V2.Student)) : list (string * list V2.Student) :=
  match d with
  | [] => [(key, [s])]
  | (k, group) :: d' =>
      if decide (k = key) then (k, group ++ [s]) :: d'
      else (k, group) :: group_append key s d'
  end.

(** The first loop of [simulated_self_selection]. *)
Definition group_by_first_choice (students : list V2.Student)
  : result (list (string * list V2.Student)) :=
  foldM_result
    (fun d s => first ← py_getitem (V2.preferences s) 0; Ok (group_append first s d))
    [] students.

(** [simulated_self_selection(students, num_teams, team_size)]: the nested
    loops thread the teams and the counter [i]. *)
Definition simulated_self_selection (students : list V2.Student)
    (num_teams team_size : nat) : result (list (list V2.Student)) :=
  prefs_dict ← group_by_first_choice students;
  st ← foldM_result
         (fun st group =>
            foldM_result
              (fun st student =>
                 teams ← deal num_teams st.1 st.2 student; Ok (teams, S st.2))
              st group)
         (replicate num_teams [], 0%nat) (map snd prefs_dict);
  Ok st.1.

(** [evaluate_teams(teams)]: the two averages, not weighted. *)
Definition evaluate_teams (teams : list (list V2.Student)) : result (Q * Q) :=
  terms ← mapM_result V2.team_terms teams;
  let total_div := py_sum (map fst terms) in
  let total_pref := py_sum (map snd terms) in
  avg_div ← py_div total_div (inject_Z (Z.of_nat (length teams)));
  avg_pref ← py_div total_pref (inject_Z (Z.of_nat (length teams)));
  Ok (avg_div, avg_pref).

Section Functions.
Context {G : Type} `{RandomSource G}.

(** [random_assignment(students, num_teams, team_size)]: [team_size] is
    not read. *)
Definition random_assignment (students : list V2.Student)
    (num_teams team_size : nat) : M (World unit G) (list (list V2.Student)) :=
  students_copy ← random_shuffle students;
  lift (foldM_result (fun teams ix => deal num_teams teams ix.1 ix.2)
                     (replicate num_teams []) (imap pair students_copy)).

End Functions.
End V2Benchmark.

(** * Preliminaries *)

(** ** The tape generator meets the interface *)

Lemma tape_shuffle_perm A (l : list A) g : Permutation (Tape.shuffle l g).1 l.
Proof.
  unfold Tape.shuffle. destruct (Tape.next g) as [n g']. simpl.
  unfold rotate. etransitivity; [apply Permutation_app_comm |].
  by rewrite take_drop.
Qed.

Lemma tape_random_range g :
  0 <= (Tape.random g).1 /\ (Tape.random g).1 < 1.
Proof.
  unfold Tape.random. destruct (Tape.next g) as [n g']. simpl.
  assert (Hn : (n mod 8 < 8)%nat) by (apply Nat.mod_upper_bound; lia).
  unfold Qdiv, Qle, Qlt. simpl. lia.
Qed.

Lemma tape_below_lt n g : (0 < n)%nat -> ((Tape.below n g).1 < n)%nat.
Proof.
  intros Hn. unfold Tape.below. destruct (Tape.next g) as [k g']. simpl.
  apply Nat.mod_upper_bound. lia.
Qed.

Lemma tape_weighted_lt (ws : list Q) g :
  ws <> [] -> ((Tape.weighted ws g).1 < length ws)%nat.
Proof.
  intros Hws. apply tape_below_lt. destruct ws; [done | simpl; lia].
Qed.

#[global] Instance tape_source : RandomSource (list nat) := {|
  rand_seed := Tape.seed;
  rand_shuffle := @Tape.shuffle;
  rand_random := Tape.random;
  rand_below := Tape.below;
  rand_weighted := Tape.weighted;
  rand_shuffle_perm := tape_shuffle_perm;
  rand_random_range := tape_random_range;
  rand_below_lt := tape_below_lt;
  rand_weighted_lt := tape_weighted_lt
|}.

(** A power for running the model: integral exponents only. *)
Definition int_pow : FloatPow := fun x y => Qpower x (Qfloor y).

(** ** Sample inputs *)

Definition student_102 : V1.Student := V1.mkStudent 0 [1; 0; 2]%nat "Plant" "Dutch".

Definition ada : V2.Student := V2.mkStudent "ada" ["p1"; "p2"] "Plant" "Dutch".

Definition bob : V2.Student := V2.mkStudent "bob" ["p2"; "p1"] "Shaper" "German".

(** The configuration of [v2/main.py], on two teams of two. *)
Definition small_optimizer : V2.AntColonyOptimizer :=
  V2.mkOptimizer [ada; bob] 2 2 1 2 1 3 (3 # 10) (1 # 2) ∅.

Definition eve : V2.Student := V2.mkStudent "eve" ["p1"; "p2"] "Plant" "Dutch".

Definition sample_students : list V1.Student :=
  [V1.mkStudent 0 [0; 1]%nat "Plant" "German";
   V1.mkStudent 1 [1; 0]%nat "Shaper" "German";
   V1.mkStudent 2 [0; 1]%nat "Plant" "Dutch"].

(** Three students, two projects with one team of two each; the generator
    is a tape. *)
Definition sample_world : World V1.ACO (list nat) :=
  V1.new_ACO sample_students 2 1 2 1 2 (1 # 10) 2 2 1 42 [5; 3; 1]%nat.

Definition small_v2_world : World V2.AntColonyOptimizer (list nat) :=
  mkWorld small_optimizer [].





(** Three students, three projects with one team of one each, and a
    negative reinforcement scale [q = -1]; one iteration of one ant. *)
Definition solo_students : list V1.Student :=
  [V1.mkStudent 0 [0; 1; 2]%nat "Plant" "German";
   V1.mkStudent 1 [1; 0; 2]%nat "Shaper" "Polish";
   V1.mkStudent 2 [2; 1; 0]%nat "Plant" "Dutch"].


(** The same with [q = -2]. *)
Definition very_negative_q_world : World V1.ACO (list nat) :=
  V1.new_ACO solo_students 3 1 1 1 2 (1 # 10) 1 1 (-2) 42 [].

(** Three students for two teams of one. *)
Definition crowded_world : World V1.ACO (list nat) :=
  V1.new_ACO sample_students 2 1 1 1 2 (1 # 10) 1 1 1 42 [].

Definition cy : V2.Student := V2.mkStudent "cy" ["p1"] "Plant" "Dutch".

Definition di : V2.Student := V2.mkStudent "di" ["p2"] "Shaper" "Dutch".

(** One team of two, and a heuristic made of the preference score alone. *)
Definition zero_weight_world : World V2.AntColonyOptimizer (list nat) :=
  V2.new_optimizer [cy; di] 1 2 1 1 1 3 (3 # 10) 1 [].

(** ** The model on the sample inputs *)

(** Two iterations of two ants of v1: with a generator that draws zeros
    every student joins the first feasible team; the pairs of the best
    candidate end at [(1 * 0.9 + 5/8) * 0.9 + 5/8] and the others at
    [0.81]. *)
Example v1_sample_run :
  exists teams fit w',
    @V1.run (list nat) tape_source int_pow sample_world
    = Ok (Some (teams, fit), w')
    /\ map (fun t => map V1.sid (V1.students t)) teams = [[0; 1]; [2]]%nat
    /\ fit == 5 # 8
    /\ map (map Qred) (V1.tau (self w'))
       = [[799 # 400; 81 # 100]; [799 # 400; 81 # 100]; [81 # 100; 799 # 400]].
Proof.
  eexists _, _, _. split; [vm_compute; reflexivity |].
  split; [reflexivity |]. split; [reflexivity | by vm_compute].
Qed.

(** One iteration of two ants of v2: both candidates put the two students
    into the first team; their pairs end at [0.7 + 2 * 11/36] and the pair
    that was only read at [0.7]. *)
Example v2_sample_run :
  exists teams fit w',
    @V2.run (list nat) tape_source int_pow small_v2_world
    = Ok (Some (teams, fit), w')
    /\ map (map V2.student_id) teams = [["ada"; "bob"]; []]
    /\ fit == 11 # 36
    /\ (Qred <$> V2.pheromones (self w'))
       = {[ ("ada", 0%nat) := 59 # 45; ("bob", 0%nat) := 59 # 45;
            ("bob", 1%nat) := 7 # 10 ]}.
Proof.
  eexists _, _, _. split; [vm_compute; reflexivity |].
  split; [reflexivity |]. split; [reflexivity |].
  apply map_eq. intros key. by vm_compute.
Qed.

(** * Lemmas *)

(** ** Inversion of the monads *)

Lemma result_bind_Ok {A B} (r : result A) (f : A -> result B) b :
  r ≫= f = Ok b -> exists a, r = Ok a /\ f a = Ok b.
Proof. destruct r as [a | e]; [eauto | discriminate]. Qed.

Lemma M_bind_Ok {S A B} (m : M S A) (f : A -> M S B) s r :
  (m ≫= f) s = Ok r -> exists a s', m s = Ok (a, s') /\ f a s' = Ok r.
Proof.
  unfold mbind, M_bind. destruct (m s) as [[a s'] | e]; [eauto | discriminate].
Qed.

Lemma lift_Ok {S A} (r : result A) (s : S) a s' :
  lift r s = Ok (a, s') -> r = Ok a /\ s' = s.
Proof. unfold lift. destruct r; [| discriminate]. intros [= -> ->]. done. Qed.

Lemma mret_Ok {S A} (a : A) (s : S) a' s' :
  mret (M := M S) a s = Ok (a', s') -> a' = a /\ s' = s.
Proof. intros [= -> ->]. done. Qed.

Lemma py_getitem_Ok {A} (l : list A) i x : py_getitem l i = Ok x <-> l !! i = Some x.
Proof. unfold py_getitem. destruct (l !! i); split; congruence. Qed.

Lemma py_div_Ok x y v : py_div x y = Ok v -> ~ y == 0 /\ v = x / y.
Proof.
  unfold py_div. destruct (Qeq_bool y 0) eqn:E; [discriminate |].
  intros [= <-]. split; [| done]. intros Hy. apply Qeq_bool_iff in Hy. congruence.
Qed.

Lemma py_div_nonzero x y : ~ y == 0 -> py_div x y = Ok (x / y).
Proof.
  intros Hy. unfold py_div. destruct (Qeq_bool y 0) eqn:E; [| done].
  apply Qeq_bool_iff in E. contradiction.
Qed.

Lemma py_index_lookup `{EqDecision A} (l : list A) i x :
  NoDup l -> l !! i = Some x -> py_index x l = Ok i.
Proof.
  intros Hnd Hi. unfold py_index.
  destruct (list_find (fun y => y = x) l) as [[j y] |] eqn:E.
  - apply list_find_Some in E as (Hj & -> & _).
    f_equal. eapply NoDup_lookup; eauto.
  - apply list_find_None in E. rewrite Forall_forall in E.
    exfalso. eapply E; [| reflexivity].
    eapply list_elem_of_lookup_2; eauto.
Qed.

(** ** [Student.satisfaction] *)

Lemma satisfaction_at_rank (s : V1.Student) (k p : nat) :
  NoDup (V1.prefs s) -> (2 <= length (V1.prefs s))%nat ->
  V1.prefs s !! k = Some p ->
  V1.satisfaction s p
  = Ok (inject_Z (Z.of_nat (length (V1.prefs s)) - 1 - Z.of_nat k)
        / inject_Z (Z.of_nat (length (V1.prefs s)) - 1)).
Proof.
  intros Hnd Hlen Hk. unfold V1.satisfaction.
  rewrite (py_index_lookup _ _ _ Hnd Hk). simpl.
  apply py_div_nonzero. unfold Qeq. simpl. lia.
Qed.



(** ** The composition of a team *)

(** The number of members of [t] that share the nationality of [s]. *)
Definition same_nationality (t : V1.Team) (s : V1.Student) : nat :=
  length (List.filter (fun m => V1.eq_str (V1.nationality m) (V1.nationality s))
                      (V1.students t)).

(** ** The pheromone matrix of v1 *)

(** [tau[i][j]], when both indices are in range. *)
Definition entry (t : list (list Q)) (i j : nat) : option Q :=
  t !! i ≫= fun row => row !! j.

(** The loop [for k in keys: tau[k[0]][k[1]] = f(tau[k[0]][k[1]])]. *)
Definition update_keys (f : Q -> Q) (keys : list (nat * nat)) (t : list (list Q))
  : result (list (list Q)) :=
  foldM_result (fun t k => V1.tau_update t k.1 k.2 f) t keys.

Lemma foldM_result_app {A B} (body : A -> B -> result A) acc l1 l2 :
  foldM_result body acc (l1 ++ l2)
  = foldM_result body acc l1 ≫= fun acc' => foldM_result body acc' l2.
Proof.
  revert acc. induction l1 as [| x l1 IH]; intros acc; simpl; [done |].
  destruct (body acc x) as [acc' | e]; simpl; [apply IH | done].
Qed.

(** Two nested loops are one loop over the pairs they visit. *)
Lemma foldM_result_nested {A B C} (body : A -> B * C -> result A)
    (inner : B -> list C) acc (l : list B) :
  foldM_result (fun acc x => foldM_result (fun acc y => body acc (x, y)) acc (inner x))
               acc l
  = foldM_result body acc (l ≫= fun x => map (pair x) (inner x)).
Proof.
  revert acc. induction l as [| x l IH]; intros acc; csimpl; [done |].
  rewrite foldM_result_app.
  assert (E : forall acc ys,
    foldM_result (fun acc y => body acc (x, y)) acc ys
    = foldM_result body acc (map (pair x) ys)).
  { intros acc0 ys. revert acc0. induction ys as [| y ys IHy]; intros acc0; simpl; [done |].
    destruct (body acc0 (x, y)); simpl; [apply IHy | done]. }
  rewrite E. destruct (foldM_result body acc (map (pair x) (inner x))); simpl;
    [apply IH | done].
Qed.

Lemma tau_update_Ok t i j f t' :
  V1.tau_update t i j f = Ok t' ->
  exists row w, t !! i = Some row /\ row !! j = Some w
                /\ t' = <[i := <[j := f w]> row]> t.
Proof.
  unfold V1.tau_update, py_update. intros Hu.
  apply result_bind_Ok in Hu as (row & Hrow & Hu).
  apply result_bind_Ok in Hu as (row' & Hrow' & Hu).
  apply result_bind_Ok in Hrow' as (w & Hw & Hrow').
  apply py_getitem_Ok in Hrow, Hw. simpl in Hrow'.
  injection Hrow' as <-. injection Hu as <-. eauto.
Qed.

Lemma tau_update_in_range t i j f w :
  entry t i j = Some w -> exists t', V1.tau_update t i j f = Ok t'.
Proof.
  unfold entry, V1.tau_update, py_update, py_getitem. intros He.
  destruct (t !! i) as [row |]; [| discriminate]. simpl in *.
  rewrite He. simpl. eauto.
Qed.

Lemma entry_tau_update t i j f t' i' j' :
  V1.tau_update t i j f = Ok t' ->
  entry t' i' j'
  = if decide ((i', j') = (i, j)) then f <$> entry t i j else entry t i' j'.
Proof.
  intros Hu. apply tau_update_Ok in Hu as (row & w & Hrow & Hw & ->).
  unfold entry. destruct (decide (i' = i)) as [-> | Hi].
  - rewrite list_lookup_insert_eq by (eapply lookup_lt_Some; eauto).
    rewrite Hrow. simpl. destruct (decide (j' = j)) as [-> | Hj].
    + rewrite list_lookup_insert_eq by (eapply lookup_lt_Some; eauto).
      rewrite Hw. by rewrite decide_True.
    + rewrite list_lookup_insert_ne by done.
      rewrite decide_False by congruence. done.
  - rewrite list_lookup_insert_ne by done.
    rewrite decide_False by congruence. done.
Qed.

(** How often the loop visits the pair [(i, j)]. *)
Definition visits (i j : nat) (keys : list (nat * nat)) : nat :=
  length (filter (fun k => k = (i, j)) keys).

Lemma entry_update_keys f keys t t' i j :
  update_keys f keys t = Ok t' ->
  entry t' i j = Nat.iter (visits i j keys) f <$> entry t i j.
Proof.
  unfold update_keys, visits. revert t.
  induction keys as [| [a b] keys IH]; intros t Hu; simpl in *.
  - injection Hu as <-. by destruct (entry t i j).
  - apply result_bind_Ok in Hu as (t1 & H1 & Hu).
    rewrite (IH _ Hu). rewrite (entry_tau_update _ _ _ _ _ i j H1).
    rewrite filter_cons. destruct (decide ((a, b) = (i, j))) as [[= -> ->] | Hne].
    + rewrite decide_True by done. simpl.
      destruct (entry t i j); simpl; [| done].
      f_equal. symmetry. apply Nat.iter_succ_r.
    + rewrite decide_False by congruence. done.
Qed.

(** The loop succeeds exactly when every key it visits is in range. *)
Lemma update_keys_total f keys t :
  Forall (fun k => is_Some (entry t k.1 k.2)) keys ->
  exists t', update_keys f keys t = Ok t'.
Proof.
  unfold update_keys. revert t.
  induction keys as [| [a b] keys IH]; intros t Hall; simpl; [eauto |].
  apply Forall_cons in Hall as [[w Hw] Hall]. simpl in Hw.
  destruct (tau_update_in_range t a b f w Hw) as [t1 H1]. rewrite H1. simpl.
  apply IH. eapply Forall_impl; [exact Hall |].
  intros [c d] [w' Hw']. simpl in *.
  rewrite (entry_tau_update _ _ _ _ _ c d H1).
  case_decide; [rewrite Hw | rewrite Hw']; simpl; eauto.
Qed.

(** The pairs the evaporation loops visit. *)
Definition grid (n_students n_teams : nat) : list (nat * nat) :=
  seq 0 n_students ≫= fun i => map (pair i) (seq 0 n_teams).

Lemma evaporate_as_update_keys rho ns nt t :
  V1.evaporate rho ns nt t = update_keys (V1.evaporate_entry rho) (grid ns nt) t.
Proof.
  unfold V1.evaporate, update_keys, grid.
  apply (foldM_result_nested
           (fun t k => V1.tau_update t k.1 k.2 (V1.evaporate_entry rho))
           (fun _ => seq 0 nt)).
Qed.

Lemma elem_of_grid ns nt i j :
  (i, j) ∈ grid ns nt <-> (i < ns)%nat /\ (j < nt)%nat.
Proof.
  unfold grid. rewrite list_elem_of_bind. split.
  - intros (a & Hin & Ha). apply list_elem_of_fmap in Hin as (b & [= -> ->] & Hb).
    apply elem_of_seq in Ha, Hb. lia.
  - intros [Hi Hj]. exists i. split.
    + apply list_elem_of_fmap. exists j. split; [done |]. apply elem_of_seq. lia.
    + apply elem_of_seq. lia.
Qed.

Lemma NoDup_grid ns nt : NoDup (grid ns nt).
Proof.
  unfold grid. apply NoDup_bind.
  - intros a b [c d] Ha Hb Hin1 Hin2.
    apply list_elem_of_fmap in Hin1 as (? & [= -> ->] & _).
    apply list_elem_of_fmap in Hin2 as (? & [= -> ->] & _). done.
  - intros a _. apply NoDup_fmap_2; [| apply NoDup_seq].
    intros x y [= ->]. done.
  - apply NoDup_seq.
Qed.

Lemma visits_NoDup i j keys :
  NoDup keys -> visits i j keys = if decide ((i, j) ∈ keys) then 1%nat else 0%nat.
Proof.
  unfold visits. induction 1 as [| k keys Hk Hnd IH].
  - case_decide as Hin; [by apply elem_of_nil in Hin | done].
  - rewrite filter_cons. destruct (decide (k = (i, j))) as [-> | Hne].
    + simpl. rewrite IH. rewrite decide_False by done.
      rewrite decide_True; [done | apply list_elem_of_here].
    + rewrite IH. destruct (decide ((i, j) ∈ keys)) as [Hin | Hnin].
      * rewrite decide_True; [done | by apply list_elem_of_further].
      * rewrite decide_False; [done |].
        intros Hin. apply elem_of_cons in Hin as [Heq | Hin]; [congruence | done].
Qed.

Lemma visits_absent i j keys : (i, j) ∉ keys -> visits i j keys = 0%nat.
Proof.
  unfold visits. induction keys as [| k keys IH]; intros Hnin; [done |].
  rewrite filter_cons. apply not_elem_of_cons in Hnin as [Hne Hnin].
  rewrite decide_False by done. by apply IH.
Qed.

(** Evaporation, entry by entry. *)
Lemma entry_evaporate rho ns nt t t' i j :
  V1.evaporate rho ns nt t = Ok t' ->
  entry t' i j
  = if decide ((i < ns)%nat /\ (j < nt)%nat)
    then V1.evaporate_entry rho <$> entry t i j
    else entry t i j.
Proof.
  rewrite evaporate_as_update_keys. intros Hu.
  rewrite (entry_update_keys _ _ _ _ i j Hu).
  rewrite (visits_NoDup _ _ _ (NoDup_grid ns nt)).
  destruct (decide ((i, j) ∈ grid ns nt)) as [Hin | Hnin].
  - rewrite decide_True by (by apply elem_of_grid). done.
  - rewrite decide_False by (by rewrite <- elem_of_grid).
    by destruct (entry t i j).
Qed.

Lemma Qlt_bool_iff x y : Qlt_bool x y = true <-> x < y.
Proof.
  unfold Qlt_bool. rewrite negb_true_iff. split.
  - intros E. apply Qnot_le_lt. intros Hle. apply Qle_bool_iff in Hle. congruence.
  - intros Hlt. destruct (Qle_bool y x) eqn:E; [| done].
    apply Qle_bool_iff in E. exfalso. eapply Qlt_not_le; eauto.
Qed.

Lemma Qlt_bool_false x y : Qlt_bool x y = false <-> y <= x.
Proof.
  unfold Qlt_bool. rewrite negb_false_iff. apply Qle_bool_iff.
Qed.

Lemma evaporate_entry_max rho w :
  V1.evaporate_entry rho w == Qmax V1.tau_floor (w * (1 - rho)).
Proof.
  unfold V1.evaporate_entry.
  destruct (Qlt_bool (w * (1 - rho)) V1.tau_floor) eqn:E.
  - apply Qlt_bool_iff in E. symmetry. apply Q.max_l. by apply Qlt_le_weak.
  - apply Qlt_bool_false in E. symmetry. by apply Q.max_r.
Qed.

Lemma evaporate_entry_floor rho w : V1.tau_floor <= V1.evaporate_entry rho w.
Proof. rewrite evaporate_entry_max. apply Q.le_max_l. Qed.

Lemma tau_floor_pos : 0 < V1.tau_floor.
Proof. reflexivity. Qed.

(** ** Reinforcement in v1 *)

(** The pairs [(s.id, t.id)] of a candidate, in the order the loops of
    [update_pheromones] visit them. *)
Definition candidate_pairs (teams : list V1.Team) : list (nat * nat) :=
  teams ≫= fun team => map (fun s => (V1.sid s, V1.tid team)) (V1.students team).

Lemma foldM_result_map {A B C} (body : A -> C -> result A) (g : B -> C) acc l :
  foldM_result body acc (map g l) = foldM_result (fun acc x => body acc (g x)) acc l.
Proof.
  revert acc. induction l as [| x l IH]; intros acc; simpl; [done |].
  destruct (body acc (g x)); simpl; [apply IH | done].
Qed.

Lemma reinforce_as_update_keys amount teams t :
  V1.reinforce amount teams t
  = update_keys (fun w => w + amount) (candidate_pairs teams) t.
Proof.
  unfold V1.reinforce, update_keys, candidate_pairs. revert t.
  induction teams as [| team teams IH]; intros t; csimpl; [done |].
  rewrite foldM_result_app, foldM_result_map.
  destruct (foldM_result _ t (V1.students team)); simpl; [apply IH | done].
Qed.

Lemma max_from_spec {A} (best : A * Q) (l : list (A * Q)) :
  exists l1 l2, best :: l = l1 ++ V1.max_from best l :: l2
    /\ Forall (fun x => x.2 < (V1.max_from best l).2) l1
    /\ Forall (fun x => x.2 <= (V1.max_from best l).2) l2.
Proof.
  revert best. induction l as [| x l IH]; intros best; simpl.
  - exists [], []. repeat split; constructor.
  - destruct (Qlt_bool best.2 x.2) eqn:E.
    + destruct (IH x) as (l1 & l2 & Heq & H1 & H2).
      exists (best :: l1), l2. rewrite Heq. repeat split; [| done].
      constructor; [| done]. apply Qlt_bool_iff in E.
      eapply Qlt_le_trans; [exact E |].
      assert (Hin : x ∈ l1 ++ V1.max_from x l :: l2)
        by (rewrite <- Heq; apply list_elem_of_here).
      apply elem_of_app in Hin as [Hin | Hin].
      * rewrite Forall_forall in H1. apply Qlt_le_weak. by apply H1.
      * apply elem_of_cons in Hin as [Hx | Hin].
        { rewrite <- Hx. apply Qle_refl. }
        rewrite Forall_forall in H2. by apply H2.
    + destruct (IH best) as (l1 & l2 & Heq & H1 & H2).
      apply Qlt_bool_false in E.
      destruct l1 as [| y l1]; simpl in Heq.
      * injection Heq as Hb Hl. exists [], (x :: l2). simpl.
        rewrite <- Hb. rewrite <- Hb in H2. subst l.
        repeat split; [constructor |]. by constructor.
      * injection Heq as <- Hl. apply Forall_cons in H1 as [Hy H1].
        exists (best :: x :: l1), l2.
        split; [simpl; congruence |]. split; [| done].
        constructor; [done |]. constructor; [| done].
        eapply Qle_lt_trans; eauto.
Qed.

Lemma max_by_fitness_spec {A} (l : list (A * Q)) best :
  V1.max_by_fitness l = Ok best ->
  exists l1 l2, l = l1 ++ best :: l2
    /\ Forall (fun x => x.2 < best.2) l1
    /\ Forall (fun x => x.2 <= best.2) l2.
Proof.
  destruct l as [| x l]; simpl; [discriminate |].
  intros [= <-]. apply max_from_spec.
Qed.

Lemma max_by_fitness_best {A} (l : list (A * Q)) best :
  V1.max_by_fitness l = Ok best ->
  best ∈ l /\ forall x, x ∈ l -> x.2 <= best.2.
Proof.
  intros Hm. apply max_by_fitness_spec in Hm as (l1 & l2 & -> & H1 & H2).
  rewrite Forall_forall in H1, H2. split.
  - apply elem_of_app. right. apply list_elem_of_here.
  - intros x Hx. apply elem_of_app in Hx as [Hx | Hx].
    + apply Qlt_le_weak. by apply H1.
    + apply elem_of_cons in Hx as [-> | Hx]; [apply Qle_refl | by apply H2].
Qed.

(** ** Reinforcement in v2 *)

(** How often a solution holds the key. *)
Definition key_count (key : string * nat) (teams : list (list V2.Student)) : nat :=
  length (filter (fun k => k = key) (V2.solution_keys teams)).

(** What [update_pheromones] adds to a key over all the solutions. *)
Definition total_deposit (key : string * nat)
    (solutions : list (list (list V2.Student) * Q)) : Q :=
  fold_right
    (fun sol acc => inject_Z (Z.of_nat (key_count key sol.1)) * sol.2 + acc)
    0 solutions.

Lemma pheromone_of_deposit amount p k key :
  V2.pheromone_of (V2.deposit amount p k) key
  = if decide (k = key) then V2.pheromone_of p k + amount
    else V2.pheromone_of p key.
Proof.
  unfold V2.deposit, V2.pheromone_of. rewrite lookup_insert.
  by case_decide.
Qed.

Lemma pheromone_of_deposits amount keys p key :
  V2.pheromone_of (fold_left (V2.deposit amount) keys p) key
  == V2.pheromone_of p key
     + inject_Z (Z.of_nat (length (filter (fun k => k = key) keys))) * amount.
Proof.
  revert p. induction keys as [| k keys IH]; intros p; simpl.
  - ring.
  - rewrite IH, pheromone_of_deposit, filter_cons.
    destruct (decide (k = key)) as [-> | Hne]; [| reflexivity].
    simpl length. rewrite Nat2Z.inj_succ. unfold Z.succ.
    rewrite inject_Z_plus. ring.
Qed.

Lemma pheromone_of_reinforce_all solutions p key :
  V2.pheromone_of (V2.reinforce_all solutions p) key
  == V2.pheromone_of p key + total_deposit key solutions.
Proof.
  unfold V2.reinforce_all. revert p.
  induction solutions as [| sol solutions IH]; intros p; simpl.
  - ring.
  - rewrite IH, pheromone_of_deposits. unfold key_count. ring.
Qed.

(** The pheromone updates of several iterations in a row, each with the
    candidates of its iteration. *)
Definition updates (me : V1.ACO) (iterations : list (list (list V1.Team * Q)))
  : result V1.ACO :=
  foldM_result (fun me sols => t ← V1.updated_tau me sols; Ok (V1.with_tau me t))
               me iterations.

(** A pair is not reinforced in an iteration when the iteration's best
    candidate does not hold it. *)
Definition not_reinforced (i j : nat) (sols : list (list V1.Team * Q)) : Prop :=
  forall best, V1.max_by_fitness sols = Ok best -> (i, j) ∉ candidate_pairs best.1.

Lemma updated_tau_entry (me : V1.ACO) sols t' i j w :
  V1.updated_tau me sols = Ok t' ->
  (i < length (V1.aco_students me))%nat -> (j < V1.n_teams me)%nat ->
  entry (V1.tau me) i j = Some w ->
  exists best,
    V1.max_by_fitness sols = Ok best
    /\ entry t' i j
       = Some (Nat.iter (visits i j (candidate_pairs best.1))
                        (fun w => w + V1.q me * best.2)
                        (V1.evaporate_entry (V1.rho me) w)).
Proof.
  intros Hu Hi Hj Hw. unfold V1.updated_tau in Hu.
  apply result_bind_Ok in Hu as (t0 & Hev & Hu).
  apply result_bind_Ok in Hu as (best & Hbest & Hu).
  rewrite reinforce_as_update_keys in Hu.
  exists best. split; [done |].
  rewrite (entry_update_keys _ _ _ _ i j Hu).
  rewrite (entry_evaporate _ _ _ _ _ i j Hev).
  rewrite decide_True by done. by rewrite Hw.
Qed.

Lemma iter_add_ge (n : nat) (a w floor : Q) :
  0 <= a -> floor <= w -> floor <= Nat.iter n (fun w => w + a) w.
Proof.
  intros Ha Hw. induction n as [| n IH]; simpl; [done |]. lra.
Qed.

Lemma updated_tau_floor (me : V1.ACO) sols t' i j w :
  V1.updated_tau me sols = Ok t' ->
  (i < length (V1.aco_students me))%nat -> (j < V1.n_teams me)%nat ->
  entry (V1.tau me) i j = Some w ->
  not_reinforced i j sols
  \/ (forall best, V1.max_by_fitness sols = Ok best -> 0 <= V1.q me * best.2) ->
  exists w', entry t' i j = Some w' /\ V1.tau_floor <= w'.
Proof.
  intros Hu Hi Hj Hw Hcase.
  destruct (updated_tau_entry _ _ _ _ _ _ Hu Hi Hj Hw) as (best & Hbest & He).
  eexists. split; [exact He |].
  destruct Hcase as [Hnot | Hpos].
  - rewrite visits_absent by (by apply Hnot). simpl. apply evaporate_entry_floor.
  - apply iter_add_ge; [by apply Hpos | apply evaporate_entry_floor].
Qed.

Lemma updated_tau_defined (me : V1.ACO) sols t' i j :
  V1.updated_tau me sols = Ok t' ->
  is_Some (entry (V1.tau me) i j) -> is_Some (entry t' i j).
Proof.
  intros Hu [w Hw]. unfold V1.updated_tau in Hu.
  apply result_bind_Ok in Hu as (t0 & Hev & Hu).
  apply result_bind_Ok in Hu as (best & Hbest & Hu).
  rewrite reinforce_as_update_keys in Hu.
  rewrite (entry_update_keys _ _ _ _ i j Hu).
  rewrite (entry_evaporate _ _ _ _ _ i j Hev), Hw.
  case_decide; simpl; eauto.
Qed.

Lemma updates_floor (me me' : V1.ACO) iterations i j :
  updates me iterations = Ok me' -> iterations <> [] ->
  (i < length (V1.aco_students me))%nat -> (j < V1.n_teams me)%nat ->
  is_Some (entry (V1.tau me) i j) ->
  Forall (not_reinforced i j) iterations ->
  exists w', entry (V1.tau me') i j = Some w' /\ V1.tau_floor <= w'.
Proof.
  unfold updates. revert me.
  induction iterations as [| sols iterations IH]; intros me Hu Hne Hi Hj Hsome Hall;
    [done |].
  simpl in Hu. apply result_bind_Ok in Hu as (me1 & H1 & Hu).
  apply result_bind_Ok in H1 as (t1 & Ht1 & [= <-]).
  apply Forall_cons in Hall as [Hnot Hall].
  destruct iterations as [| sols' iterations].
  - simpl in Hu. injection Hu as <-. simpl.
    destruct Hsome as [w Hw]. eapply updated_tau_floor; eauto.
  - eapply IH; eauto.
    simpl. eapply updated_tau_defined; eauto.
Qed.

(** ** When the pheromone update returns *)

Lemma evaporate_total rho ns nt t :
  (forall i j, (i < ns)%nat -> (j < nt)%nat -> is_Some (entry t i j)) ->
  exists t', V1.evaporate rho ns nt t = Ok t'.
Proof.
  intros Hshape. rewrite evaporate_as_update_keys. apply update_keys_total.
  apply Forall_forall. intros [i j] Hin. apply elem_of_grid in Hin as [Hi Hj].
  by apply Hshape.
Qed.

Lemma evaporate_defined rho ns nt t t' i j :
  V1.evaporate rho ns nt t = Ok t' -> is_Some (entry t i j) ->
  is_Some (entry t' i j).
Proof.
  intros Hev [w Hw]. rewrite (entry_evaporate _ _ _ _ _ i j Hev), Hw.
  case_decide; simpl; eauto.
Qed.

(** [update_pheromones] returns when there is a candidate, the matrix has
    the rows and columns the evaporation visits, and the pairs of the best
    candidate are in range. *)
Lemma updated_tau_total (me : V1.ACO) sols :
  sols <> [] ->
  (forall i j, (i < length (V1.aco_students me))%nat -> (j < V1.n_teams me)%nat ->
               is_Some (entry (V1.tau me) i j)) ->
  (forall best i j, V1.max_by_fitness sols = Ok best ->
                    (i, j) ∈ candidate_pairs best.1 ->
                    is_Some (entry (V1.tau me) i j)) ->
  exists t', V1.updated_tau me sols = Ok t'.
Proof.
  intros Hne Hshape Hpairs. unfold V1.updated_tau.
  destruct (evaporate_total (V1.rho me) _ _ _ Hshape) as [t0 Hev].
  rewrite Hev. unfold mbind, result_bind.
  destruct sols as [| x sols]; [done |]. cbn [V1.max_by_fitness].
  rewrite reinforce_as_update_keys. apply update_keys_total.
  apply Forall_forall. intros [i j] Hin.
  eapply evaporate_defined; [exact Hev |]. by eapply Hpairs.
Qed.

(** ** Fitness *)

(** The fitness the specification describes, over any kind of member:
    [sat] gives a member's satisfaction with the group's project and [role]
    its role label. *)
Section ClaimedFitness.
Context {S : Type} (sat : S -> Q) (role : S -> string).

Definition mean (l : list Q) : Q := py_sum l / inject_Z (Z.of_nat (length l)).

Definition claimed_group_fitness (members : list S) : Q :=
  match members with
  | [] => 0
  | _ =>
      (1 # 2) * mean (map sat members)
      + (1 # 2) * (inject_Z (Z.of_nat (distinct_count (map role members)))
                   / inject_Z (Z.of_nat (length members)))
  end.

Definition claimed_fitness (groups : list (list S)) : Q :=
  mean (map claimed_group_fitness groups).

End ClaimedFitness.

(** [distinct_count] counts the distinct labels of a list. *)
Lemma distinct_count_remove_dups (l : list string) :
  distinct_count l = length (remove_dups l).
Proof.
  unfold distinct_count.
  rewrite <- (size_list_to_set (C := gset string) (remove_dups l))
    by apply NoDup_remove_dups.
  f_equal. apply set_eq. intros x.
  rewrite !elem_of_list_to_set. by rewrite elem_of_remove_dups.
Qed.

Lemma mapM_result_Forall2 {A B} (f : A -> result B) l ys :
  mapM_result f l = Ok ys <-> Forall2 (fun x y => f x = Ok y) l ys.
Proof.
  revert ys. induction l as [| x l IH]; intros ys; simpl.
  - split; [intros [= <-]; constructor | by inv 1].
  - split.
    + intros Hm. apply result_bind_Ok in Hm as (y & Hy & Hm).
      apply result_bind_Ok in Hm as (ys' & Hys & [= <-]).
      constructor; [done | by apply IH].
    + inv 1 as [| ? y ? ys' Hy Hys]. rewrite Hy. simpl.
      apply IH in Hys. by rewrite Hys.
Qed.

Lemma mapM_result_map {A B} (f : A -> result B) (g : A -> B) l :
  (forall x, x ∈ l -> f x = Ok (g x)) -> mapM_result f l = Ok (map g l).
Proof.
  induction l as [| x l IH]; intros Hf; simpl; [done |].
  rewrite Hf by apply list_elem_of_here. simpl.
  rewrite IH; [done |]. intros y Hy. by apply Hf, list_elem_of_further.
Qed.

Lemma inject_nat_nonzero (n : nat) : n <> 0%nat -> ~ inject_Z (Z.of_nat n) == 0.
Proof. intros Hn. unfold Qeq. simpl. lia. Qed.

(** [Team.fitness] is the claimed group fitness. *)
Lemma v1_group_fitness (t : V1.Team) (sat : V1.Student -> Q) :
  (forall s, s ∈ V1.students t -> V1.satisfaction s (V1.project t) = Ok (sat s)) ->
  exists v, V1.fitness t = Ok v
            /\ v == claimed_group_fitness sat V1.belbin (V1.students t).
Proof.
  intros Hsat. unfold V1.fitness, V1._satisfaction_score, V1._belbin_diversity.
  unfold claimed_group_fitness, mean.
  destruct (V1.students t) as [| s l].
  - simpl. eexists. split; reflexivity.
  - cbv beta iota. rewrite (mapM_result_map _ sat) by done.
    assert (Hlen : ~ inject_Z (Z.of_nat (length (s :: l))) == 0).
    { by apply inject_nat_nonzero. }
    rewrite !py_div_nonzero by done. rewrite length_map.
    eexists. split; reflexivity.
Qed.

(** The fitness [construct_solution] computes is the mean of the group
    fitnesses when [n_teams] is the number of teams. *)
Lemma v1_solution_fitness (teams : list V1.Team) (n : nat) fit :
  V1.solution_fitness teams n = Ok fit ->
  exists fs, Forall2 (fun t f => V1.fitness t = Ok f) teams fs
             /\ fit = py_sum fs / inject_Z (Z.of_nat n)
             /\ (n = length teams -> fit = mean fs).
Proof.
  unfold V1.solution_fitness. intros Hf.
  apply result_bind_Ok in Hf as (fs & Hfs & Hf).
  apply py_div_Ok in Hf as [_ ->].
  apply mapM_result_Forall2 in Hfs.
  exists fs. split; [done |]. split; [done |].
  intros ->. unfold mean. by rewrite (Forall2_length _ _ _ Hfs).
Qed.

Lemma v2_member_preference (s : V2.Student) :
  V2.preferences s <> [] -> V2.member_preference s = Ok 5%Z.
Proof.
  unfold V2.member_preference. destruct (V2.preferences s) as [| p ps]; [done |].
  intros _. simpl. unfold py_index. simpl. rewrite decide_True by done. done.
Qed.

(** The terms of [evaluate] for one team whose members all list a
    preference: the distinct roles over 9, and 1 unless the team is
    empty. *)
Lemma v2_team_terms (team : list V2.Student) :
  Forall (fun s => V2.preferences s <> []) team ->
  exists pref,
    V2.team_terms team
    = Ok (inject_Z (Z.of_nat (distinct_count (map V2.belbin_role team))) / 9, pref)
    /\ pref == (if decide (team = []) then 0 else 1).
Proof.
  intros Hall. unfold V2.team_terms.
  rewrite (mapM_result_map _ (fun _ => 5%Z)).
  2:{ intros s Hs. rewrite Forall_forall in Hall. by apply v2_member_preference, Hall. }
  simpl. eexists. split; [reflexivity |].
  destruct team as [| s team]; [reflexivity |].
  rewrite decide_False by done.
  assert (Hsum : forall (l : list V2.Student) z,
    fold_left Z.add (map (fun _ => 5%Z) l) z = (z + 5 * Z.of_nat (length l))%Z).
  { induction l as [| x l IH]; intros z; simpl fold_left; [simpl; lia |].
    rewrite IH. simpl length. lia. }
  unfold V2.py_sum_Z. rewrite Hsum. rewrite Z.add_0_l.
  field. unfold Qeq. simpl. lia.
Qed.

Lemma v2_evaluate_value teams (x : Q) :
  (match V2.evaluate small_optimizer teams with Ok v => Qeq_bool v x | _ => false end) = true ->
  exists v, V2.evaluate small_optimizer teams = Ok v /\ v == x.
Proof.
  destruct (V2.evaluate small_optimizer teams) as [v |]; [| discriminate].
  intros E. apply Qeq_bool_iff in E. eauto.
Qed.

(** ** Construction in v1 *)

Lemma elem_of_positions_from {A} (p : A -> bool) k l i :
  i ∈ positions_from p k l
  <-> (k <= i)%nat /\ exists x, l !! (i - k)%nat = Some x /\ p x = true.
Proof.
  revert k. induction l as [| y l IH]; intros k; simpl.
  - rewrite elem_of_nil. split; [done |]. by intros (_ & x & Hx & _).
  - assert (Hstep : i ∈ positions_from p (S k) l
      <-> (k < i)%nat /\ exists x, (y :: l) !! (i - k)%nat = Some x /\ p x = true).
    { rewrite IH. split.
      - intros (Hk & x & Hx & Hp). split; [lia |]. exists x. split; [| done].
        replace (i - k)%nat with (S (i - S k)) by lia. done.
      - intros (Hk & x & Hx & Hp). split; [lia |]. exists x. split; [| done].
        replace (i - k)%nat with (S (i - S k)) in Hx by lia. done. }
    destruct (p y) eqn:Hy.
    + rewrite elem_of_cons, Hstep. split.
      * intros [-> | (Hk & x & Hx & Hp)].
        -- split; [lia |]. exists y. by rewrite Nat.sub_diag.
        -- split; [lia | eauto].
      * intros (Hk & x & Hx & Hp). destruct (decide (i = k)) as [-> | Hne]; [by left |].
        right. split; [lia | eauto].
    + rewrite Hstep. split.
      * intros (Hk & x & Hx & Hp). split; [lia | eauto].
      * intros (Hk & x & Hx & Hp). destruct (decide (i = k)) as [-> | Hne].
        -- rewrite Nat.sub_diag in Hx. simpl in Hx. congruence.
        -- split; [lia | eauto].
Qed.

Lemma elem_of_positions {A} (p : A -> bool) l i :
  i ∈ positions p l <-> exists x, l !! i = Some x /\ p x = true.
Proof.
  unfold positions. rewrite elem_of_positions_from, Nat.sub_0_r.
  split; [by intros [_ ?] | intros ?; split; [lia | done]].
Qed.

Lemma positions_nil {A} (p : A -> bool) l :
  positions p l = [] <-> forall x, x ∈ l -> p x = false.
Proof.
  split.
  - intros E x Hx. apply list_elem_of_lookup in Hx as [i Hi].
    destruct (p x) eqn:Hp; [| done].
    assert (Hin : i ∈ positions p l) by (apply elem_of_positions; eauto).
    rewrite E in Hin. by apply elem_of_nil in Hin.
  - intros Hall. apply elem_of_nil_inv. intros i Hi.
    apply elem_of_positions in Hi as (x & Hx & Hp).
    rewrite Hall in Hp; [done |]. eapply list_elem_of_lookup_2; eauto.
Qed.

Section V1Construction.
Context {G : Type} `{RandomSource G} `{FloatPow}.

Lemma feasible_teams_spec teams s pos :
  pos ∈ V1.feasible_teams teams s ->
  exists t, teams !! pos = Some t
    /\ (V1.len t < V1.capacity t)%nat
    /\ (V1.can_add t s V1.default_max_same_nat V1.default_unlimited_nat = true
        \/ forall t', t' ∈ teams ->
             V1.can_add t' s V1.default_max_same_nat V1.default_unlimited_nat = false).
Proof.
  unfold V1.feasible_teams.
  destruct (positions _ teams) as [| a l] eqn:E.
  - intros Hin. apply elem_of_positions in Hin as (t & Ht & Hlt).
    exists t. split; [done |]. split; [by apply Nat.ltb_lt |].
    right. by apply positions_nil.
  - rewrite <- E. intros Hin. apply elem_of_positions in Hin as (t & Ht & Hadd).
    exists t. split; [done |]. split; [| by left].
    unfold V1.can_add, V1.len in *.
    destruct (V1.capacity t <=? length (V1.students t))%nat eqn:Hc; [done |].
    by apply Nat.leb_gt.
Qed.

(** [weight] reads the matrix and draws nothing. *)
Lemma weight_Ok teams s pos (w : World V1.ACO G) x w' :
  V1.weight teams s pos w = Ok (x, w') ->
  w' = w
  /\ exists t tau_ij eta,
       teams !! pos = Some t
       /\ entry (V1.tau (self w)) (V1.sid s) (V1.tid t) = Some tau_ij
       /\ V1.heuristic (self w) s t = Ok eta
       /\ x = fpow tau_ij (V1.alpha (self w)) * fpow eta (V1.beta (self w)).
Proof.
  unfold V1.weight. intros Hw.
  apply M_bind_Ok in Hw as (me & w1 & Hme & Hw). injection Hme as <- <-.
  apply M_bind_Ok in Hw as (t & w1 & Ht & Hw). apply lift_Ok in Ht as [Ht ->].
  apply M_bind_Ok in Hw as (row & w1 & Hrow & Hw). apply lift_Ok in Hrow as [Hrow ->].
  apply M_bind_Ok in Hw as (v & w1 & Hv & Hw). apply lift_Ok in Hv as [Hv ->].
  apply M_bind_Ok in Hw as (eta & w1 & Heta & Hw). apply lift_Ok in Heta as [Heta ->].
  apply mret_Ok in Hw as [-> ->].
  apply py_getitem_Ok in Ht, Hrow, Hv.
  split; [done |]. exists t, v, eta. repeat split; try done.
  unfold entry. rewrite Hrow. done.
Qed.

Lemma mapM_readonly {S A B} (f : A -> M S B) l w ys w' :
  (forall x w1 y w2, f x w1 = Ok (y, w2) -> w2 = w1) ->
  mapM f l w = Ok (ys, w') ->
  w' = w /\ Forall2 (fun x y => f x w = Ok (y, w)) l ys.
Proof.
  intros Hro. revert ys w'. induction l as [| x l IH]; intros ys w' Hm; simpl in Hm.
  - apply mret_Ok in Hm as [-> ->]. split; [done | constructor].
  - apply M_bind_Ok in Hm as (y & w1 & Hy & Hm).
    pose proof (Hro _ _ _ _ Hy) as ->.
    apply M_bind_Ok in Hm as (ys' & w2 & Hys & Hm).
    apply IH in Hys as [-> Hys]. apply mret_Ok in Hm as [-> ->].
    split; [done |]. by constructor.
Qed.

Lemma mapM_weight_Ok teams s feasible (w : World V1.ACO G) probs w' :
  mapM (V1.weight teams s) feasible w = Ok (probs, w') ->
  w' = w /\ Forall2 (fun pos x => V1.weight teams s pos w = Ok (x, w)) feasible probs.
Proof.
  apply mapM_readonly. intros x w1 y w2 Hw. by apply weight_Ok in Hw as [-> _].
Qed.

(** *** The inversion loop *)

Lemma first_reaching_elem r c fp t :
  V1.first_reaching r c fp = Some t -> t ∈ fp.*1.
Proof.
  revert c. induction fp as [| [a p] fp IH]; intros c; simpl; [done |].
  destruct (Qle_bool r (c + p)).
  - intros [= ->]. apply list_elem_of_here.
  - intros Hf. apply list_elem_of_further. by eapply IH.
Qed.

(** The loop binds a team as soon as the threshold does not exceed the
    cumulative sum at the last team, which is accumulated exactly as
    [sum(probabilities)] is. *)
Lemma first_reaching_binds r c fp :
  fp <> [] -> r <= fold_left Qplus fp.*2 c ->
  exists t, V1.first_reaching r c fp = Some t.
Proof.
  revert c. induction fp as [| [a p] fp IH]; intros c Hne Hr; [done |].
  simpl in *. destruct (Qle_bool r (c + p)) eqn:E; [eauto |].
  destruct fp as [| b fp].
  - simpl in Hr. apply Qle_bool_iff in Hr. congruence.
  - apply IH; [done | exact Hr].
Qed.

Lemma fold_left_Qplus_pos (l : list Q) (c : Q) :
  0 <= c -> l <> [] -> Forall (fun p => 0 < p) l -> 0 < fold_left Qplus l c.
Proof.
  revert c. induction l as [| p l IH]; intros c Hc Hne Hall; [done |].
  apply Forall_cons in Hall as [Hp Hall]. simpl.
  destruct l as [| p' l]; simpl.
  - lra.
  - apply (IH (c + p)); [lra | done | done].
Qed.

Lemma py_sum_pos (l : list Q) :
  l <> [] -> Forall (fun p => 0 < p) l -> 0 < py_sum l.
Proof. apply fold_left_Qplus_pos. apply Qle_refl. Qed.

Lemma draw_Ok {A} (f : G -> A * G) (w : World V1.ACO G) a w' :
  draw f w = Ok (a, w') -> a = (f (gen w)).1 /\ w' = mkWorld (self w) (f (gen w)).2.
Proof.
  unfold draw. destruct (f (gen w)) as [a0 g]. intros [= <- <-]. done.
Qed.

Lemma random_choice_Ok {A} (l : list A) (w : World V1.ACO G) x w' :
  random_choice l w = Ok (x, w') ->
  self w' = self w
  /\ l !! (rand_below (length l) (gen w)).1 = Some x.
Proof.
  unfold random_choice. destruct l as [| a l]; [discriminate |].
  intros Hc. apply M_bind_Ok in Hc as (k & w1 & Hk & Hc).
  apply draw_Ok in Hk as [-> ->]. apply lift_Ok in Hc as [Hx ->].
  apply py_getitem_Ok in Hx. done.
Qed.

Lemma random_choice_total {A} (l : list A) (w : World V1.ACO G) :
  l <> [] -> exists x w', random_choice l w = Ok (x, w').
Proof.
  intros Hne. unfold random_choice. destruct l as [| a l]; [done |].
  unfold mbind, M_bind, draw.
  pose proof (rand_below_lt (length (a :: l)) (gen w) ltac:(simpl; lia)) as Hlt.
  destruct (rand_below (length (a :: l)) (gen w)) as [k g]. simpl in Hlt.
  destruct (lookup_lt_is_Some_2 (a :: l) k Hlt) as [x Hx].
  unfold lift, py_getitem. rewrite Hx. eauto.
Qed.

(** What [choose_team] leaves in [chosen_team]: the team it picked among
    the feasible ones or, when the loop fell through, the old binding. *)
Lemma choose_team_Ok chosen feasible probs (w : World V1.ACO G) c' w' :
  V1.choose_team chosen feasible probs w = Ok (c', w') ->
  self w' = self w
  /\ ((exists t, c' = Some t /\ t ∈ feasible)
      \/ (c' = chosen /\ ~ py_sum probs == 0)).
Proof.
  unfold V1.choose_team. destruct (Qeq_bool (py_sum probs) 0) eqn:E.
  - intros Hc. apply M_bind_Ok in Hc as (t & w1 & Ht & Hc).
    apply mret_Ok in Hc as [-> ->]. apply random_choice_Ok in Ht as [Hs Ht].
    split; [done |]. left. exists t. split; [done |].
    eapply list_elem_of_lookup_2; eauto.
  - intros Hc. apply M_bind_Ok in Hc as (u & w1 & Hu & Hc).
    apply draw_Ok in Hu as [-> ->].
    destruct (V1.first_reaching _ 0 (zip feasible probs)) as [t |] eqn:Hf;
      apply mret_Ok in Hc as [-> ->]; (split; [done |]).
    + left. exists t. split; [done |].
      apply first_reaching_elem in Hf.
      apply list_elem_of_fmap in Hf as ([a p] & -> & Hin).
      by apply elem_of_zip_l in Hin.
    + right. split; [done |]. intros Hz. apply Qeq_bool_iff in Hz. congruence.
Qed.

Lemma choose_team_binds chosen feasible probs (w : World V1.ACO G) :
  feasible <> [] -> length probs = length feasible -> 0 < py_sum probs ->
  exists t w',
    V1.choose_team chosen feasible probs w = Ok (Some t, w')
    /\ t ∈ feasible /\ self w' = self w.
Proof.
  intros Hne Hlen Hpos. unfold V1.choose_team.
  destruct (Qeq_bool (py_sum probs) 0) eqn:E.
  { apply Qeq_bool_iff in E. rewrite E in Hpos. by apply Qlt_irrefl in Hpos. }
  unfold mbind, M_bind, random_random, draw.
  pose proof (rand_random_range (gen w)) as [Hu0 Hu1].
  destruct (rand_random (gen w)) as [u g]. simpl in Hu0, Hu1.
  destruct (first_reaching_binds (u * py_sum probs) 0 (zip feasible probs))
    as [t Ht].
  - destruct feasible, probs; done.
  - rewrite snd_zip by lia. fold (py_sum probs). nra.
  - rewrite Ht. exists t, (mkWorld (self w) g). split; [done |]. split; [| done].
    apply first_reaching_elem in Ht.
    apply list_elem_of_fmap in Ht as ([a p] & -> & Hin).
    by apply elem_of_zip_l in Hin.
Qed.

(** *** Positive selection weights *)

Lemma py_index_lt `{EqDecision A} (x : A) (l : list A) i :
  py_index x l = Ok i -> (i < length l)%nat /\ l !! i = Some x.
Proof.
  unfold py_index. destruct (list_find _ l) as [[j y] |] eqn:E; [| discriminate].
  intros [= ->]. apply list_find_Some in E as (Hi & -> & _).
  split; [by eapply lookup_lt_Some | done].
Qed.

Lemma satisfaction_nonneg s p v : V1.satisfaction s p = Ok v -> 0 <= v.
Proof.
  unfold V1.satisfaction. intros Hs.
  apply result_bind_Ok in Hs as (rank & Hrank & Hs).
  apply py_index_lt in Hrank as [Hlt _].
  apply py_div_Ok in Hs as [Hnz ->].
  assert (Hden : 0 < inject_Z (Z.of_nat (length (V1.prefs s)) - 1)).
  { assert (Hle : 0 <= inject_Z (Z.of_nat (length (V1.prefs s)) - 1))
      by (rewrite <- (Zle_Qle 0); lia).
    apply Qle_lteq in Hle as [Hlt' | Heq]; [done |].
    exfalso. apply Hnz. by symmetry. }
  apply Qle_shift_div_l; [done |]. rewrite Qmult_0_l.
  rewrite <- (Zle_Qle 0). lia.
Qed.

Lemma heuristic_pos (me : V1.ACO) s t eta :
  V1.heuristic me s t = Ok eta -> 0 < eta.
Proof.
  unfold V1.heuristic. intros Hh.
  apply result_bind_Ok in Hh as (sat & Hsat & Hh).
  apply result_bind_Ok in Hh as (b & Hb & [= <-]).
  apply satisfaction_nonneg in Hsat.
  apply py_div_Ok in Hb as [Hnz ->].
  assert (Hb : 0 <= inject_Z (Z.of_nat (distinct_count
                 (V1.belbin s :: map V1.belbin (V1.students t))))
               / inject_Z (Z.of_nat (V1.team_size me))).
  { assert (Hden : 0 < inject_Z (Z.of_nat (V1.team_size me))).
    { assert (Hle : 0 <= inject_Z (Z.of_nat (V1.team_size me)))
        by (rewrite <- (Zle_Qle 0); lia).
      apply Qle_lteq in Hle as [Hlt' | Heq]; [done |].
      exfalso. apply Hnz. by symmetry. }
    apply Qle_shift_div_l; [done |]. rewrite Qmult_0_l.
    rewrite <- (Zle_Qle 0). lia. }
  assert (Heps : 0 < V1.eta_eps) by reflexivity.
  lra.
Qed.

(** Every entry of the matrix is positive. *)
Definition tau_positive (t : list (list Q)) : Prop :=
  forall i j w, entry t i j = Some w -> 0 < w.

(** The float power of a positive base is positive. *)
Definition pow_positive : Prop := forall x y, 0 < x -> 0 < fpow x y.

Lemma weight_pos teams s pos (w : World V1.ACO G) x w' :
  pow_positive -> tau_positive (V1.tau (self w)) ->
  V1.weight teams s pos w = Ok (x, w') -> 0 < x.
Proof.
  intros Hpow Htau Hw. apply weight_Ok in Hw as (_ & t & v & eta & _ & Hv & Heta & ->).
  apply Qmult_lt_0_compat; apply Hpow; [by eapply Htau | by eapply heuristic_pos].
Qed.

(** *** One placement *)

Lemma add_to_Ok teams chosen s teams' :
  V1.add_to teams chosen s = Ok teams' ->
  exists pos t, chosen = Some pos /\ teams !! pos = Some t
                /\ teams' = <[pos := V1.add t s]> teams.
Proof.
  unfold V1.add_to, py_update. destruct chosen as [pos |]; [| discriminate].
  intros Ha. apply result_bind_Ok in Ha as (t & Ht & Ha).
  apply py_getitem_Ok in Ht. simpl in Ha. injection Ha as <-. eauto.
Qed.

(** A placement reads [self] and puts the student into one team; with
    positive weights that team is one of the feasible teams. *)
Lemma place_Ok teams chosen s (w : World V1.ACO G) teams' chosen' w' :
  V1.place (teams, chosen) s w = Ok ((teams', chosen'), w') ->
  self w' = self w
  /\ exists pos t,
       chosen' = Some pos /\ teams !! pos = Some t
       /\ teams' = <[pos := V1.add t s]> teams
       /\ (pow_positive -> tau_positive (V1.tau (self w)) ->
           pos ∈ V1.feasible_teams teams s).
Proof.
  unfold V1.place. intros Hp.
  apply M_bind_Ok in Hp as (probs & w1 & Hprobs & Hp).
  apply mapM_weight_Ok in Hprobs as [-> Hprobs].
  apply M_bind_Ok in Hp as (c & w1 & Hc & Hp).
  apply M_bind_Ok in Hp as (ts & w2 & Hts & Hp).
  apply lift_Ok in Hts as [Hts ->]. apply mret_Ok in Hp as [[= <- <-] ->].
  pose proof (choose_team_Ok _ _ _ _ _ _ Hc) as [Hself Hcase].
  apply add_to_Ok in Hts as (pos & t & -> & Ht & ->).
  split; [done |]. exists pos, t. repeat split; try done.
  intros Hpow Htau.
  destruct Hcase as [(t0 & [= <-] & Hin) | [_ Hnz]]; [done |].
  assert (Hne : V1.feasible_teams teams s <> []).
  { intros E. rewrite E in Hprobs. apply Forall2_nil_inv_l in Hprobs as ->.
    by apply Hnz. }
  assert (Hpos : 0 < py_sum probs).
  { apply py_sum_pos.
    - intros ->. by apply Hnz.
    - clear -Hprobs Hpow Htau. induction Hprobs as [| a x l l' Hax _ IH]; constructor;
        [by eapply weight_pos | done]. }
  destruct (choose_team_binds chosen _ probs w Hne
              (eq_sym (Forall2_length _ _ _ Hprobs)) Hpos)
    as (t1 & w1' & Hc1 & Hin1 & _).
  rewrite Hc in Hc1. by injection Hc1 as <- _.
Qed.

(** *** The loop over the students *)

(** No team holds more members than its capacity. *)
Definition within_capacity (teams : list V1.Team) : Prop :=
  Forall (fun t => (V1.len t <= V1.capacity t)%nat) teams.

(** The students of all the teams. *)
Definition all_members (teams : list V1.Team) : list V1.Student :=
  teams ≫= V1.students.

(** The teams keep their identity: id, project and capacity. *)
Definition same_frames (teams teams' : list V1.Team) : Prop :=
  Forall2 (fun t t' => V1.tid t' = V1.tid t /\ V1.project t' = V1.project t
                       /\ V1.capacity t' = V1.capacity t) teams teams'.

Lemma same_frames_refl teams : same_frames teams teams.
Proof. induction teams; constructor; done. Qed.

Lemma same_frames_trans t1 t2 t3 :
  same_frames t1 t2 -> same_frames t2 t3 -> same_frames t1 t3.
Proof.
  unfold same_frames. intros H12. revert t3.
  induction H12 as [| a b l l' Hab _ IH]; intros t3 H23.
  - by apply Forall2_nil_inv_l in H23 as ->.
  - apply Forall2_cons_inv_l in H23 as (c & l3 & Hbc & H23 & ->).
    constructor; [| by apply IH].
    destruct Hab as (? & ? & ?), Hbc as (? & ? & ?). repeat split; congruence.
Qed.

Lemma same_frames_insert teams pos t s :
  teams !! pos = Some t -> same_frames teams (<[pos := V1.add t s]> teams).
Proof.
  revert pos. induction teams as [| a teams IH]; intros pos Hpos; [done |].
  destruct pos as [| pos]; simpl in *.
  - injection Hpos as ->. constructor; [done | apply same_frames_refl].
  - constructor; [done | by apply IH].
Qed.

Lemma all_members_insert teams pos t s :
  teams !! pos = Some t ->
  all_members (<[pos := V1.add t s]> teams) ≡ₚ s :: all_members teams.
Proof.
  unfold all_members. revert pos.
  induction teams as [| a teams IH]; intros pos Hpos; [done |].
  destruct pos as [| pos]; csimpl in *.
  - injection Hpos as ->. simpl.
    rewrite <- (assoc_L (++)). simpl. symmetry. apply Permutation_middle.
  - rewrite IH by done. symmetry. apply Permutation_middle.
Qed.

Lemma within_capacity_insert teams pos t s :
  within_capacity teams -> teams !! pos = Some t ->
  (V1.len t < V1.capacity t)%nat ->
  within_capacity (<[pos := V1.add t s]> teams).
Proof.
  intros Hcap Hpos Hlt. apply Forall_insert; [done |].
  unfold V1.len, V1.add in *. simpl. rewrite length_app. simpl. lia.
Qed.

Lemma place_capacity teams chosen s (w : World V1.ACO G) teams' chosen' w' :
  pow_positive -> tau_positive (V1.tau (self w)) ->
  within_capacity teams ->
  V1.place (teams, chosen) s w = Ok ((teams', chosen'), w') ->
  within_capacity teams'.
Proof.
  intros Hpow Htau Hcap Hp.
  apply place_Ok in Hp as (_ & pos & t & _ & Ht & -> & Hfeas).
  destruct (feasible_teams_spec teams s pos (Hfeas Hpow Htau))
    as (t1 & Ht1 & Hlt & _).
  rewrite Ht in Ht1. injection Ht1 as <-.
  by apply within_capacity_insert.
Qed.

Lemma foldM_place_Ok l teams chosen (w : World V1.ACO G) teams' chosen' w' :
  foldM V1.place (teams, chosen) l w = Ok ((teams', chosen'), w') ->
  self w' = self w
  /\ same_frames teams teams'
  /\ all_members teams' ≡ₚ all_members teams ++ l
  /\ (pow_positive -> tau_positive (V1.tau (self w)) ->
      within_capacity teams -> within_capacity teams').
Proof.
  revert teams chosen w. induction l as [| s l IH]; intros teams chosen w Hf;
    simpl in Hf.
  - apply mret_Ok in Hf as [[= <- <-] ->].
    split; [done |]. split; [apply same_frames_refl |].
    split; [by rewrite app_nil_r | done].
  - apply M_bind_Ok in Hf as ([teams1 chosen1] & w1 & H1 & Hf).
    apply IH in Hf as (Hself & Hfr & Hmem & Hcap).
    pose proof (fun Hp Ht Hc => place_capacity _ _ _ _ _ _ _ Hp Ht Hc H1) as Hcap1.
    apply place_Ok in H1 as (Hself1 & pos & t & _ & Ht & -> & _).
    split; [congruence |].
    split; [eapply same_frames_trans; [by apply same_frames_insert | done] |].
    split.
    + rewrite Hmem, all_members_insert by done.
      by rewrite <- Permutation_middle.
    + intros Hpow Htau Hc. apply Hcap; [done | by rewrite Hself1 |].
      by apply Hcap1.
Qed.

(** *** [construct_solution] as a whole *)

(** The empty teams a construction starts from. *)
Definition fresh_teams (me : V1.ACO) : list V1.Team :=
  map (fun t => V1.new_Team (V1.tid t) (V1.project t) (V1.team_size me))
      (V1.base_teams me).

Lemma fresh_teams_within_capacity me : within_capacity (fresh_teams me).
Proof.
  unfold within_capacity, fresh_teams. apply Forall_fmap, Forall_true.
  intros t. unfold V1.len. simpl. lia.
Qed.

Lemma fresh_teams_members me : all_members (fresh_teams me) = [].
Proof.
  unfold all_members, fresh_teams. induction (V1.base_teams me); csimpl; done.
Qed.

Lemma construct_solution_Ok (w : World V1.ACO G) teams fit w' :
  V1.construct_solution w = Ok ((teams, fit), w') ->
  self w' = self w
  /\ same_frames (fresh_teams (self w)) teams
  /\ all_members teams ≡ₚ V1.aco_students (self w)
  /\ V1.solution_fitness teams (V1.n_teams (self w)) = Ok fit
  /\ (pow_positive -> tau_positive (V1.tau (self w)) -> within_capacity teams).
Proof.
  unfold V1.construct_solution. intros Hc.
  apply M_bind_Ok in Hc as (me & w1 & Hme & Hc). injection Hme as <- <-.
  apply M_bind_Ok in Hc as (unassigned & w1 & Hsh & Hc).
  apply draw_Ok in Hsh as [-> ->].
  apply M_bind_Ok in Hc as ([teams1 chosen1] & w2 & Hf & Hc).
  apply M_bind_Ok in Hc as (fit1 & w3 & Hfit & Hc).
  apply lift_Ok in Hfit as [Hfit ->]. apply mret_Ok in Hc as [[= <- <-] ->].
  apply foldM_place_Ok in Hf as (Hself & Hfr & Hmem & Hcap). simpl in *.
  split; [done |]. split; [done |]. split.
  - fold (fresh_teams (self w)) in Hmem. rewrite fresh_teams_members in Hmem.
    rewrite Hmem. simpl. apply rand_shuffle_perm.
  - split; [done |]. intros Hpow Htau. apply Hcap; [done | done |].
    apply fresh_teams_within_capacity.
Qed.

Lemma same_frames_capacity teams0 teams c :
  same_frames teams0 teams -> Forall (fun t => V1.capacity t = c) teams0 ->
  Forall (fun t => V1.capacity t = c) teams.
Proof.
  induction 1 as [| a b l l' (_ & _ & Hc) _ IH]; intros Hall; [constructor |].
  apply Forall_cons in Hall as [Ha Hall]. constructor; [congruence | by apply IH].
Qed.

Lemma init_tau_one students np tpp ts al be rh na ni q i j w :
  entry (V1.tau (V1.init_fields students np tpp ts al be rh na ni q)) i j = Some w ->
  w = 1.
Proof.
  unfold entry. simpl. intros He.
  destruct (replicate _ _ !! i) as [row |] eqn:Hrow; [| discriminate].
  apply lookup_replicate in Hrow as [-> _]. simpl in He.
  by apply lookup_replicate in He as [-> _].
Qed.


End V1Construction.

Section Binding.
Context {G : Type} `{RandomSource G} `{FloatPow}.

(** The same at the level of the loop body: with a feasible team and a
    positive sum of weights the student joins a feasible team. *)
Lemma place_binds teams chosen s (w : World V1.ACO G) probs :
  V1.feasible_teams teams s <> [] ->
  mapM (V1.weight teams s) (V1.feasible_teams teams s) w = Ok (probs, w) ->
  0 < py_sum probs ->
  exists pos t w',
    V1.place (teams, chosen) s w = Ok ((<[pos := V1.add t s]> teams, Some pos), w')
    /\ pos ∈ V1.feasible_teams teams s /\ teams !! pos = Some t.
Proof.
  intros Hne Hprobs Hpos.
  pose proof (mapM_weight_Ok _ _ _ _ _ _ Hprobs) as [_ Hall].
  destruct (choose_team_binds chosen _ probs w Hne
              (eq_sym (Forall2_length _ _ _ Hall)) Hpos)
    as (pos & w' & Hc & Hin & _).
  destruct (feasible_teams_spec teams s pos Hin) as (t & Ht & _).
  exists pos, t, w'. split; [| done].
  unfold V1.place, mbind, M_bind. rewrite Hprobs, Hc.
  unfold lift, V1.add_to, py_update, py_getitem. rewrite Ht. done.
Qed.

(** The candidates of a construction hold every pair once when the
    students have distinct ids. *)
Lemma construct_solution_pairs (w : World V1.ACO G) teams fit w' :
  V1.construct_solution w = Ok ((teams, fit), w') ->
  NoDup (map V1.sid (V1.aco_students (self w))) ->
  NoDup (candidate_pairs teams).
Proof.
  intros Hc Hnd. apply construct_solution_Ok in Hc as (_ & _ & Hmem & _).
  apply (NoDup_fmap_1 fst).
  assert (E : (candidate_pairs teams).*1 = map V1.sid (all_members teams)).
  { unfold candidate_pairs, all_members. clear.
    induction teams as [| t teams IH]; csimpl; [done |].
    rewrite fmap_app, map_app. f_equal; [| exact IH].
    by rewrite <- list_fmap_compose. }
  rewrite E. by rewrite Hmem.
Qed.

End Binding.

(** ** Construction in v2 *)

Section V2Construction.
Context {G : Type} `{RandomSource G} `{FloatPow}.

(** What a construction may do to the optimizer: store the default weight
    under keys that were not stored.  No stored weight changes, and no key
    yields another weight than before. *)
Definition materialises (me me' : V2.AntColonyOptimizer) : Prop :=
  me' = V2.with_pheromones me (V2.pheromones me')
  /\ V2.pheromones me ⊆ V2.pheromones me'
  /\ forall key, V2.pheromone_of (V2.pheromones me') key
                 = V2.pheromone_of (V2.pheromones me) key.

Lemma materialises_refl me : materialises me me.
Proof. split; [by destruct me | done]. Qed.

Lemma materialises_trans me1 me2 me3 :
  materialises me1 me2 -> materialises me2 me3 -> materialises me1 me3.
Proof.
  intros (E12 & S12 & P12) (E23 & S23 & P23). split; [| split].
  - rewrite E23. rewrite E12. done.
  - by etransitivity.
  - intros key. by rewrite P23, P12.
Qed.

Lemma materialises_fields me me' :
  materialises me me' ->
  V2.team_size me' = V2.team_size me /\ V2.num_teams me' = V2.num_teams me
  /\ V2.students me' = V2.students me.
Proof. intros (-> & _). done. Qed.

Lemma pheromone_read_Ok key (w : World V2.AntColonyOptimizer G) x w' :
  V2.pheromone_read key w = Ok (x, w') ->
  gen w' = gen w /\ materialises (self w) (self w')
  /\ x = V2.pheromone_of (V2.pheromones (self w)) key
  /\ V2.pheromones (self w')
     = match V2.pheromones (self w) !! key with
       | Some _ => V2.pheromones (self w)
       | None => <[key := V2.default_pheromone]> (V2.pheromones (self w))
       end.
Proof.
  unfold V2.pheromone_read. intros Hr.
  apply M_bind_Ok in Hr as (me & w1 & Hme & Hr). injection Hme as <- <-.
  unfold V2.pheromone_of.
  destruct (V2.pheromones (self w) !! key) as [v |] eqn:E.
  - apply mret_Ok in Hr as [-> ->]. split; [done |].
    split; [apply materialises_refl | done].
  - apply M_bind_Ok in Hr as ([] & w1 & Hset & Hr).
    apply mret_Ok in Hr as [-> ->]. injection Hset as <-. simpl.
    split; [done |]. split; [| done]. split; [done |]. simpl. split.
    + by apply insert_subseteq.
    + intros k. unfold V2.pheromone_of. rewrite lookup_insert.
      case_decide as Hk; [| done]. subst k. by rewrite E.
Qed.

Lemma v2_score_Ok teams student pos (w : World V2.AntColonyOptimizer G) x w' :
  V2.score teams student pos w = Ok (x, w') ->
  gen w' = gen w /\ materialises (self w) (self w').
Proof.
  unfold V2.score. intros Hs.
  apply M_bind_Ok in Hs as (me & w1 & Hme & Hs). injection Hme as <- <-.
  apply M_bind_Ok in Hs as (team & w1 & Ht & Hs). apply lift_Ok in Ht as [_ ->].
  apply M_bind_Ok in Hs as (idx & w1 & Hi & Hs). apply lift_Ok in Hi as [_ ->].
  apply M_bind_Ok in Hs as (v & w1 & Hv & Hs). apply mret_Ok in Hs as [-> ->].
  apply pheromone_read_Ok in Hv as (Hg & Hm & _). done.
Qed.

Lemma v2_scores_Ok teams student l (w : World V2.AntColonyOptimizer G) xs w' :
  mapM (V2.score teams student) l w = Ok (xs, w') ->
  gen w' = gen w /\ materialises (self w) (self w') /\ length xs = length l.
Proof.
  revert w xs w'. induction l as [| pos l IH]; intros w xs w' Hm; simpl in Hm.
  - apply mret_Ok in Hm as [-> ->]. split; [done |].
    split; [apply materialises_refl | done].
  - apply M_bind_Ok in Hm as (x & w1 & Hx & Hm).
    apply M_bind_Ok in Hm as (xs' & w2 & Hxs & Hm).
    apply mret_Ok in Hm as [-> ->].
    apply v2_score_Ok in Hx as [Hg1 Hm1]. apply IH in Hxs as (Hg2 & Hm2 & Hlen).
    split; [congruence |]. split; [by eapply materialises_trans |].
    simpl. by rewrite Hlen.
Qed.

(** No team holds more members than [team_size]. *)
Definition v2_within_capacity (team_size : nat) (teams : list (list V2.Student))
  : Prop :=
  Forall (fun t => (length t <= team_size)%nat) teams.

Lemma py_index_same_length (team : list V2.Student) teams idx :
  py_index team teams = Ok idx -> teams !! idx = Some team.
Proof. intros Hi. by apply py_index_lt in Hi as [_ Hi]. Qed.

(** A placement either leaves the teams as they are (the student is not
    placed) or appends the student to a team that had room. *)
Lemma v2_place_Ok teams student (w : World V2.AntColonyOptimizer G) teams' w' :
  V2.place teams student w = Ok (teams', w') ->
  materialises (self w) (self w')
  /\ ((teams' = teams
       /\ forall t, t ∈ teams -> (V2.team_size (self w) <= length t)%nat)
      \/ exists idx t, teams !! idx = Some t
           /\ (length t < V2.team_size (self w))%nat
           /\ teams' = <[idx := t ++ [student]]> teams).
Proof.
  unfold V2.place. intros Hp.
  apply M_bind_Ok in Hp as (me & w1 & Hme & Hp). injection Hme as <- <-.
  apply M_bind_Ok in Hp as (scores & w1 & Hsc & Hp).
  apply v2_scores_Ok in Hsc as (Hg & Hm & Hlen).
  destruct scores as [| x scores].
  - apply mret_Ok in Hp as [-> ->]. split; [done |]. left. split; [done |].
    intros t Ht. symmetry in Hlen. apply length_zero_iff_nil in Hlen.
    pose proof (proj1 (positions_nil _ _) Hlen t Ht) as Hfull.
    by apply Nat.ltb_ge in Hfull.
  - apply M_bind_Ok in Hp as (probs & w2 & Hpr & Hp). apply lift_Ok in Hpr as [_ ->].
    apply M_bind_Ok in Hp as (chosen & w2 & Hch & Hp).
    apply M_bind_Ok in Hp as (team & w3 & Ht & Hp). apply lift_Ok in Ht as [Ht ->].
    apply M_bind_Ok in Hp as (idx & w3 & Hi & Hp). apply lift_Ok in Hi as [Hi ->].
    apply lift_Ok in Hp as [Hp ->].
    assert (Hself : self w2 = self w1 /\ chosen ∈
              positions (fun t => (length t <? V2.team_size (self w))%nat) teams).
    { clear -Hch. unfold random_choices in Hch.
      destruct (negb _); [discriminate |].
      destruct (Qle_bool _ 0); [discriminate |].
      apply M_bind_Ok in Hch as (k & w3 & Hk & Hch).
      unfold draw in Hk. destruct (rand_weighted probs (gen w1)) as [k' g].
      injection Hk as <- <-. apply lift_Ok in Hch as [Hch ->].
      split; [done |]. apply py_getitem_Ok in Hch.
      eapply list_elem_of_lookup_2; eauto. }
    destruct Hself as [Hself Hin]. split; [by rewrite Hself |].
    right. apply elem_of_positions in Hin as (t0 & Ht0 & Hlt).
    apply py_getitem_Ok in Ht. rewrite Ht0 in Ht. injection Ht as ->.
    apply py_index_same_length in Hi.
    unfold py_update in Hp. apply result_bind_Ok in Hp as (t1 & Ht1 & Hp).
    apply py_getitem_Ok in Ht1. rewrite Hi in Ht1. injection Ht1 as <-.
    simpl in Hp. injection Hp as <-.
    exists idx, team. split; [done |]. split; [by apply Nat.ltb_lt | done].
Qed.

(** With every team full, the student is left out and nothing else
    changes: the loop goes on to the next student. *)
Lemma v2_place_full teams student (w : World V2.AntColonyOptimizer G) :
  (forall t, t ∈ teams -> (V2.team_size (self w) <= length t)%nat) ->
  V2.place teams student w = Ok (teams, w).
Proof.
  intros Hfull. unfold V2.place, mbind, M_bind, self_.
  assert (E : positions (fun t => (length t <? V2.team_size (self w))%nat) teams = []).
  { apply positions_nil. intros t Ht. by apply Nat.ltb_ge, Hfull. }
  rewrite E. simpl. done.
Qed.

Lemma v2_foldM_place_Ok l teams (w : World V2.AntColonyOptimizer G) teams' w' :
  foldM V2.place teams l w = Ok (teams', w') ->
  materialises (self w) (self w')
  /\ length teams' = length teams
  /\ (v2_within_capacity (V2.team_size (self w)) teams ->
      v2_within_capacity (V2.team_size (self w)) teams').
Proof.
  revert teams w. induction l as [| s l IH]; intros teams w Hf; simpl in Hf.
  - apply mret_Ok in Hf as [-> ->]. split; [apply materialises_refl | done].
  - apply M_bind_Ok in Hf as (teams1 & w1 & H1 & Hf).
    apply IH in Hf as (Hm & Hlen & Hcap).
    apply v2_place_Ok in H1 as (Hm1 & Hcase).
    pose proof (materialises_fields _ _ Hm1) as (Hts & _).
    rewrite Hts in Hcap.
    split; [by eapply materialises_trans |].
    destruct Hcase as [[-> _] | (idx & t & Ht & Hlt & ->)]; [done |].
    rewrite length_insert in Hlen. split; [done |].
    intros Hc. apply Hcap. apply Forall_insert; [done |].
    rewrite length_app. simpl. lia.
Qed.

Lemma v2_construct_solution_Ok (w : World V2.AntColonyOptimizer G) teams w' :
  V2.construct_solution w = Ok (teams, w') ->
  materialises (self w) (self w')
  /\ length teams = V2.num_teams (self w)
  /\ v2_within_capacity (V2.team_size (self w)) teams.
Proof.
  unfold V2.construct_solution. intros Hc.
  apply M_bind_Ok in Hc as (me & w1 & Hme & Hc). injection Hme as <- <-.
  apply M_bind_Ok in Hc as (students & w1 & Hsh & Hc).
  unfold random_shuffle, draw in Hsh.
  destruct (rand_shuffle (V2.students (self w)) (gen w)) as [l g].
  injection Hsh as <- <-.
  apply v2_foldM_place_Ok in Hc as (Hm & Hlen & Hcap). simpl in *.
  split; [done |]. rewrite length_replicate in Hlen. split; [done |].
  apply Hcap. apply Forall_replicate. simpl. lia.
Qed.



End V2Construction.


(** ** When a construction of v1 returns *)

Section V1Totality.
Context {G : Type} `{RandomSource G} `{FloatPow}.




Lemma is_Ok_inv {A} (r : result A) : is_Ok r -> exists a, r = Ok a.
Proof. destruct r; [eauto | done]. Qed.


Lemma feasible_teams_nonempty teams s :
  (exists t, t ∈ teams /\ (V1.len t < V1.capacity t)%nat) ->
  V1.feasible_teams teams s <> [].
Proof.
  intros (t & Ht & Hlt). unfold V1.feasible_teams.
  destruct (positions _ teams) as [| a l] eqn:E; [| done].
  intros Hnil. rewrite positions_nil in Hnil.
  specialize (Hnil t Ht). apply Nat.ltb_ge in Hnil. lia.
Qed.






Lemma mapM_result_total {A B} (f : A -> result B) l :
  (forall x, x ∈ l -> is_Ok (f x)) -> is_Ok (mapM_result f l).
Proof.
  induction l as [| x l IH]; intros Hf; simpl; [done |].
  destruct (is_Ok_inv (f x)) as [y Hy]; [apply Hf, list_elem_of_here |].
  destruct (is_Ok_inv (mapM_result f l)) as [ys Hys].
  { apply IH. intros x' Hx'. by apply Hf, list_elem_of_further. }
  rewrite Hy. simpl. rewrite Hys. done.
Qed.

Lemma fitness_total (t : V1.Team) :
  (forall s, s ∈ V1.students t -> is_Ok (V1.satisfaction s (V1.project t))) ->
  is_Ok (V1.fitness t).
Proof.
  intros Hsat. unfold V1.fitness, V1._satisfaction_score, V1._belbin_diversity.
  destruct (V1.students t) as [| s l]; [done |].
  destruct (is_Ok_inv (mapM_result (fun s => V1.satisfaction s (V1.project t)) (s :: l)))
    as [sats Hsats]; [by apply mapM_result_total |].
  rewrite Hsats. unfold mbind, result_bind.
  rewrite !py_div_nonzero by (by apply inject_nat_nonzero). done.
Qed.

Lemma solution_fitness_total teams n :
  (forall t, t ∈ teams -> is_Ok (V1.fitness t)) -> n <> 0%nat ->
  is_Ok (V1.solution_fitness teams n).
Proof.
  intros Hfit Hn. unfold V1.solution_fitness.
  destruct (is_Ok_inv (mapM_result V1.fitness teams)) as [fs Hfs];
    [by apply mapM_result_total |].
  rewrite Hfs. unfold mbind, result_bind.
  by rewrite py_div_nonzero by (by apply inject_nat_nonzero).
Qed.

Lemma same_frames_elem teams0 teams t :
  same_frames teams0 teams -> t ∈ teams ->
  exists t0, t0 ∈ teams0 /\ V1.tid t = V1.tid t0 /\ V1.project t = V1.project t0
             /\ V1.capacity t = V1.capacity t0.
Proof.
  intros Hfr Hin. apply list_elem_of_lookup in Hin as [i Hi].
  destruct (Forall2_lookup_r _ _ _ _ _ Hfr Hi) as (t0 & Ht0 & Ha & Hb & Hc).
  exists t0. split; [by eapply list_elem_of_lookup_2 | done].
Qed.




End V1Totality.

(** ** The runs of v1 with a reinforcement that is not negative *)

Section V1Run.
Context {G : Type} `{RandomSource G} `{FloatPow}.

Lemma fold_left_Qplus_nonneg (l : list Q) (c : Q) :
  0 <= c -> Forall (fun p => 0 <= p) l -> 0 <= fold_left Qplus l c.
Proof.
  revert c. induction l as [| p l IH]; intros c Hc Hall; simpl; [done |].
  apply Forall_cons in Hall as [Hp Hall]. apply IH; [lra | done].
Qed.

Lemma Qdiv_nat_nonneg (x : Q) (n : nat) : 0 <= x -> 0 <= x / inject_Z (Z.of_nat n).
Proof.
  intros Hx. destruct n as [| n].
  - unfold Qdiv. change (/ inject_Z (Z.of_nat 0)) with 0.
    rewrite Qmult_0_r. apply Qle_refl.
  - apply Qle_shift_div_l; [rewrite <- (Zlt_Qlt 0); lia | lra].
Qed.

Lemma fitness_nonneg (t : V1.Team) v : V1.fitness t = Ok v -> 0 <= v.
Proof.
  unfold V1.fitness, V1._satisfaction_score, V1._belbin_diversity. intros Hf.
  apply result_bind_Ok in Hf as (sat & Hsat & Hf).
  apply result_bind_Ok in Hf as (div & Hdiv & [= <-]).
  assert (Hs : 0 <= sat).
  { destruct (V1.students t) as [| s l]; [injection Hsat as <-; lra |].
    apply result_bind_Ok in Hsat as (sats & Hsats & Hsat).
    apply py_div_Ok in Hsat as [_ ->]. apply Qdiv_nat_nonneg.
    apply fold_left_Qplus_nonneg; [lra |].
    apply mapM_result_Forall2 in Hsats.
    clear -Hsats. induction Hsats as [| a x l1 l2 Hax _ IH]; constructor;
      [by eapply satisfaction_nonneg | done]. }
  assert (Hd : 0 <= div).
  { destruct (V1.students t) as [| s l]; [injection Hdiv as <-; lra |].
    apply py_div_Ok in Hdiv as [_ ->]. apply Qdiv_nat_nonneg.
    rewrite <- (Zle_Qle 0). lia. }
  lra.
Qed.

Lemma solution_fitness_nonneg teams n fit :
  V1.solution_fitness teams n = Ok fit -> 0 <= fit.
Proof.
  intros Hf. apply v1_solution_fitness in Hf as (fs & Hfs & -> & _).
  apply Qdiv_nat_nonneg. apply fold_left_Qplus_nonneg; [lra |].
  clear -Hfs. induction Hfs as [| t f l1 l2 Htf _ IH]; constructor;
    [by eapply fitness_nonneg | done].
Qed.









End V1Run.

(** ** The optimizer [ACO.__init__] builds *)

Lemma entry_replicate (n m : nat) (x : Q) i j :
  (i < n)%nat -> (j < m)%nat -> entry (replicate n (replicate m x)) i j = Some x.
Proof.
  intros Hi Hj. unfold entry.
  rewrite (proj2 (lookup_replicate n (replicate m x) (replicate m x) i))
    by done.
  simpl. by apply lookup_replicate.
Qed.



(** ** Capacity and composition of the constructed groups *)


Section Capacity.
Context {G : Type} `{RandomSource G} `{FloatPow}.



End Capacity.


(** ** Relaxation, fallback and skipping *)

Section Degradation.
Context {G : Type} `{RandomSource G} `{FloatPow}.

(** Weights that sum to zero over a feasible list that is not empty: the
    team is the one [random.choice] draws. *)
Lemma choose_team_zero chosen feasible probs (w : World V1.ACO G) :
  feasible <> [] -> py_sum probs == 0 ->
  exists t w',
    V1.choose_team chosen feasible probs w = Ok (Some t, w')
    /\ feasible !! (rand_below (length feasible) (gen w)).1 = Some t
    /\ self w' = self w.
Proof.
  intros Hne Hz. unfold V1.choose_team.
  apply Qeq_bool_iff in Hz. rewrite Hz.
  destruct (random_choice_total feasible w Hne) as (t & w' & Hc).
  unfold mbind, M_bind. rewrite Hc.
  apply random_choice_Ok in Hc as [Hself Ht]. eauto.
Qed.

Lemma v2_skip_when_full teams student l (w : World V2.AntColonyOptimizer G) :
  (forall t, t ∈ teams -> (V2.team_size (self w) <= length t)%nat) ->
  V2.place teams student w = Ok (teams, w)
  /\ foldM V2.place teams (student :: l) w = foldM V2.place teams l w.
Proof.
  intros Hfull. pose proof (v2_place_full teams student w Hfull) as Hp.
  split; [done |]. cbn [foldM]. unfold mbind, M_bind. by rewrite Hp.
Qed.

End Degradation.

(** ** The fitness [evaluate] computes *)

Lemma fold_left_Qplus_Qeq (l l' : list Q) (c c' : Q) :
  Forall2 Qeq l l' -> c == c' -> fold_left Qplus l c == fold_left Qplus l' c'.
Proof.
  intros Hl. revert c c'. induction Hl as [| x y l l' Hxy _ IH]; intros c c' Hc;
    simpl; [done |].
  apply IH. by rewrite Hxy, Hc.
Qed.

(** The preference term and the diversity term of one team in [evaluate]. *)
Definition v2_preference_term (team : list V2.Student) : Q :=
  if decide (team = []) then 0 else 1.
Definition v2_diversity_term (team : list V2.Student) : Q :=
  inject_Z (Z.of_nat (distinct_count (map V2.belbin_role team))) / 9.

Lemma v2_evaluate_formula (me : V2.AntColonyOptimizer) teams :
  teams <> [] ->
  Forall (Forall (fun s => V2.preferences s <> [])) teams ->
  exists v,
    V2.evaluate me teams = Ok v
    /\ v == V2.preference_weight me * mean (map v2_preference_term teams)
            + (1 - V2.preference_weight me) * mean (map v2_diversity_term teams).
Proof.
  intros Hne Hall. unfold V2.evaluate.
  assert (Hterms : exists terms,
    mapM_result V2.team_terms teams = Ok terms
    /\ map fst terms = map v2_diversity_term teams
    /\ Forall2 Qeq (map snd terms) (map v2_preference_term teams)).
  { clear Hne. induction Hall as [| team teams Hteam _ IH]; simpl.
    - exists []. repeat split; constructor.
    - destruct (v2_team_terms team Hteam) as (pref & Ht & Hpref).
      destruct IH as (terms & Hts & Hd & Hp).
      rewrite Ht. simpl. rewrite Hts. simpl.
      eexists. split; [reflexivity |]. simpl. split; [by rewrite Hd |].
      constructor; [done | done]. }
  destruct Hterms as (terms & Hts & Hd & Hp). rewrite Hts.
  unfold mbind, result_bind.
  assert (Hlen : ~ inject_Z (Z.of_nat (length teams)) == 0).
  { apply inject_nat_nonzero. by destruct teams. }
  rewrite !py_div_nonzero by done.
  eexists. split; [reflexivity |].
  unfold mean. rewrite !length_map, Hd.
  assert (E : py_sum (map snd terms) == py_sum (map v2_preference_term teams)).
  { unfold py_sum. by apply fold_left_Qplus_Qeq. }
  by rewrite E.
Qed.

(** * The claims *)

(** ** C1: which candidates reinforce the store *)

(** C1, as stated, fails on v2: of two candidates of one iteration the
    second is the worse one, and [update_pheromones] still raises the
    weight of the pair [("bob", 0)], which the best candidate does not
    hold, by the fitness of the worse candidate. *)
Lemma v2_reinforces_every_candidate :
  exists f1 f2,
    V2.evaluate small_optimizer [[ada]; [bob]] = Ok f1
    /\ V2.evaluate small_optimizer [[ada; bob]; []] = Ok f2
    /\ f2 < f1
    /\ (("bob", 0%nat) ∉ V2.solution_keys [[ada]; [bob]])
    /\ V2.pheromone_of
         (V2.reinforce_all [([[ada]; [bob]], f1); ([[ada; bob]; []], f2)] ∅)
         ("bob", 0%nat)
       == V2.pheromone_of ∅ ("bob", 0%nat) + f2
    /\ ~ (V2.pheromone_of
             (V2.reinforce_all [([[ada]; [bob]], f1); ([[ada; bob]; []], f2)] ∅)
             ("bob", 0%nat)
           == V2.pheromone_of ∅ ("bob", 0%nat)).
Proof.
  eexists _, _. split; [vm_compute; reflexivity |].
  split; [vm_compute; reflexivity |].
  split; [reflexivity |].
  split.
  { intros Hin. vm_compute in Hin.
    repeat (apply elem_of_cons in Hin as [Hin | Hin]; [discriminate |]).
    by apply elem_of_nil in Hin. }
  split; [by vm_compute | by vm_compute].
Qed.

(** C1, amended.  In v1, [update_pheromones] evaporates and then reinforces
    with one candidate only, the first of the iteration's candidates that no
    other exceeds in fitness: a pair that candidate does not hold keeps its
    (evaporated) weight, a pair it holds once gains exactly [q * fitness],
    and in general a pair gains [q * fitness] once per occurrence; a
    constructed candidate holds every pair once when the students have
    distinct ids; and the update returns when there is a candidate and the
    matrix has the entries visited.  In v2, [update_pheromones] adds to
    every pair the fitness of each candidate that holds it, over all the
    candidates of the iteration. *)
Theorem reinforcement_v1_elitist_v2_proportional
    {G : Type} `{RandomSource G} `{FloatPow} :
  (forall (me : V1.ACO) (sols : list (list V1.Team * Q)) t',
     V1.updated_tau me sols = Ok t' ->
     exists t0 best,
       V1.evaporate (V1.rho me) (length (V1.aco_students me)) (V1.n_teams me)
                    (V1.tau me) = Ok t0
       /\ V1.max_by_fitness sols = Ok best
       /\ best ∈ sols
       /\ (forall x, x ∈ sols -> x.2 <= best.2)
       /\ (exists l1 l2, sols = l1 ++ best :: l2
                         /\ Forall (fun x => x.2 < best.2) l1)
       /\ (forall i j, (i, j) ∉ candidate_pairs best.1 ->
             entry t' i j = entry t0 i j)
       /\ (forall i j w, NoDup (candidate_pairs best.1) ->
             (i, j) ∈ candidate_pairs best.1 -> entry t0 i j = Some w ->
             entry t' i j = Some (w + V1.q me * best.2))
       /\ (forall i j,
             entry t' i j
             = Nat.iter (visits i j (candidate_pairs best.1))
                        (fun w => w + V1.q me * best.2)
               <$> entry t0 i j))
  /\ (forall (w : World V1.ACO G) teams fit w',
        V1.construct_solution w = Ok ((teams, fit), w') ->
        NoDup (map V1.sid (V1.aco_students (self w))) ->
        NoDup (candidate_pairs teams))
  /\ (forall (me : V1.ACO) sols,
        sols <> [] ->
        (forall i j, (i < length (V1.aco_students me))%nat ->
                     (j < V1.n_teams me)%nat ->
                     is_Some (entry (V1.tau me) i j)) ->
        (forall best i j, V1.max_by_fitness sols = Ok best ->
                          (i, j) ∈ candidate_pairs best.1 ->
                          is_Some (entry (V1.tau me) i j)) ->
        exists t', V1.updated_tau me sols = Ok t')
  /\ (forall (sols : list (list (list V2.Student) * Q)) p key,
        V2.pheromone_of (V2.reinforce_all sols p) key
        == V2.pheromone_of p key + total_deposit key sols).
Proof.
  split; [| split; [apply @construct_solution_pairs |
    split; [apply updated_tau_total | apply pheromone_of_reinforce_all]]].
  intros me sols t' Hu. unfold V1.updated_tau in Hu.
  apply result_bind_Ok in Hu as (t0 & Hev & Hu).
  apply result_bind_Ok in Hu as (best & Hbest & Hu).
  rewrite reinforce_as_update_keys in Hu.
  pose proof (max_by_fitness_best _ _ Hbest) as [Hin Hmax].
  pose proof (max_by_fitness_spec _ _ Hbest) as (l1 & l2 & Hsplit & Hfirst & _).
  exists t0, best. repeat split; try done.
  - by exists l1, l2.
  - intros i j Hnin. rewrite (entry_update_keys _ _ _ _ i j Hu).
    rewrite visits_absent by done. by destruct (entry t0 i j).
  - intros i j w Hnd Hij Hw. rewrite (entry_update_keys _ _ _ _ i j Hu).
    rewrite visits_NoDup by done. rewrite decide_True by done.
    by rewrite Hw.
  - intros i j. apply (entry_update_keys _ _ _ _ i j Hu).
Qed.

(** ** C2: evaporation and the floor *)

(** C2, as stated, fails on v2: [evaporate_pheromones] has no floor.  Whatever
    positive floor one fixes, a stored weight equal to the floor is halved
    by an evaporation with [rho = 1/2]. *)
Lemma v2_evaporation_has_no_floor :
  ~ exists floor : Q, 0 < floor /\
      forall (rho : Q) (p : gmap (string * nat) Q) key w,
        p !! key = Some w ->
        exists w', V2.evaporate rho p !! key = Some w'
                   /\ w' == Qmax floor (w * (1 - rho)).
Proof.
  intros (floor & Hpos & Hclaim).
  destruct (Hclaim (1 # 2) {[ ("ada", 0%nat) := floor ]} ("ada", 0%nat) floor)
    as (w' & Hw' & Hmax).
  { apply lookup_singleton_eq. }
  unfold V2.evaporate in Hw'.
  rewrite lookup_fmap, lookup_singleton_eq in Hw'. simpl in Hw'.
  injection Hw' as <-.
  pose proof (Q.le_max_l floor (floor * (1 - (1 # 2)))) as Hle.
  rewrite <- Hmax in Hle. lra.
Qed.

(** C2, amended.  In v1, the evaporation step maps every weight [w] of the
    matrix to [max(floor, w * (1 - rho))], for every [rho], with the floor
    [1e-6 > 0]: the weight is at or above the floor and positive; the step
    returns when the matrix has the rows and columns it visits.  After a
    whole [update_pheromones] the weight of a pair is at or above the floor
    when the pair is not reinforced or the reinforcement [q * fitness] is
    not negative, and so after any number of iterations, at least one, that
    do not reinforce the pair; before the first iteration every weight
    is 1.  In v2, [evaporate_pheromones] multiplies
    every stored weight by [1 - rho] and applies no floor. *)
Theorem evaporation_v1_floor_v2_decay :
  (forall rho ns nt t t' i j w,
     V1.evaporate rho ns nt t = Ok t' ->
     (i < ns)%nat -> (j < nt)%nat -> entry t i j = Some w ->
     exists w', entry t' i j = Some w'
                /\ w' == Qmax V1.tau_floor (w * (1 - rho))
                /\ V1.tau_floor <= w' /\ 0 < w')
  /\ (forall rho ns nt t,
        (forall i j, (i < ns)%nat -> (j < nt)%nat -> is_Some (entry t i j)) ->
        exists t', V1.evaporate rho ns nt t = Ok t')
  /\ 0 < V1.tau_floor
  /\ (forall (me : V1.ACO) sols t' i j w,
        V1.updated_tau me sols = Ok t' ->
        (i < length (V1.aco_students me))%nat -> (j < V1.n_teams me)%nat ->
        entry (V1.tau me) i j = Some w ->
        not_reinforced i j sols
        \/ (forall best, V1.max_by_fitness sols = Ok best ->
              0 <= V1.q me * best.2) ->
        exists w', entry t' i j = Some w' /\ V1.tau_floor <= w')
  /\ (forall (me me' : V1.ACO) iterations i j,
        updates me iterations = Ok me' -> iterations <> [] ->
        (i < length (V1.aco_students me))%nat -> (j < V1.n_teams me)%nat ->
        is_Some (entry (V1.tau me) i j) ->
        Forall (not_reinforced i j) iterations ->
        exists w', entry (V1.tau me') i j = Some w' /\ V1.tau_floor <= w')
  /\ (forall students np tpp ts al be rh na ni q i j w,
        entry (V1.tau (V1.init_fields students np tpp ts al be rh na ni q)) i j
        = Some w ->
        w = 1 /\ V1.tau_floor <= w)
  /\ (forall rho (p : gmap (string * nat) Q) key,
        V2.evaporate rho p !! key = (fun w => w * (1 - rho)) <$> p !! key).
Proof.
  split; [| split; [apply evaporate_total | split; [apply tau_floor_pos |
    split; [apply updated_tau_floor | split; [apply updates_floor | split]]]]].
  - intros rho ns nt t t' i j w Hev Hi Hj Hw.
    exists (V1.evaporate_entry rho w). split.
    + rewrite (entry_evaporate _ _ _ _ _ i j Hev).
      rewrite decide_True by done. by rewrite Hw.
    + split; [apply evaporate_entry_max |].
      pose proof (evaporate_entry_floor rho w) as Hfloor.
      split; [done |]. eapply Qlt_le_trans; [apply tau_floor_pos | done].
  - intros students np tpp ts al be rh na ni q i j w Hw.
    apply init_tau_one in Hw as ->. split; [done | discriminate].
  - intros rho p key. unfold V2.evaporate. apply lookup_fmap.
Qed.

(** ** C3: when a construction raises and when it returns *)

(** C3.  Construction is not total on well-formed input, although the
    sibling paths do what the claim says.  In v1 a student for whom no team
    has a free place makes [random.choice] raise [IndexError] on the empty
    feasible list (three students, two teams of one place), where the loop
    of [random_assignment] in [v1/benchmark.py] and the construction of v2
    leave such a student out and go on.  In v2 selection weights that sum
    to zero make the normalisation raise [ZeroDivisionError], where v1
    draws the team with [random.choice].  And in v1, after an update with a
    negative reinforcement scale, the weights of the first student sum to a
    negative total: the selection loop binds no team and [chosen_team] is
    unbound at the [add]. *)
Theorem construction_can_raise {G : Type} `{RandomSource G} `{FloatPow} :
  @V1.construct_solution (list nat) tape_source int_pow crowded_world
  = Raise IndexError
  /\ (forall teams s (w : World unit G),
        V1.feasible_teams teams s = [] ->
        V1Benchmark.assign teams s w = Ok (teams, w))
  /\ (forall teams student l (w : World V2.AntColonyOptimizer G),
        (forall t, t ∈ teams -> (V2.team_size (self w) <= length t)%nat) ->
        V2.place teams student w = Ok (teams, w)
        /\ foldM V2.place teams (student :: l) w = foldM V2.place teams l w)
  /\ @V2.construct_solution (list nat) tape_source int_pow zero_weight_world
     = Raise ZeroDivisionError
  /\ (forall chosen feasible probs (w : World V1.ACO G),
        feasible <> [] -> py_sum probs == 0 ->
        exists t w',
          V1.choose_team chosen feasible probs w = Ok (Some t, w')
          /\ feasible !! (rand_below (length feasible) (gen w)).1 = Some t
          /\ self w' = self w)
  /\ (exists best w1,
        @V1.run (list nat) tape_source int_pow very_negative_q_world
        = Ok (best, w1)
        /\ @V1.construct_solution (list nat) tape_source int_pow w1
           = Raise UnboundLocalError).
Proof.
  split; [vm_compute; reflexivity |].
  split; [intros teams s w E; unfold V1Benchmark.assign; by rewrite E |].
  split; [intros; by apply v2_skip_when_full |].
  split; [vm_compute; reflexivity |].
  split; [intros; by apply choose_team_zero |].
  eexists _, _. split; vm_compute; reflexivity.
Qed.

(** ** C4: the fitness of a group and of a candidate *)

(** C4, as stated, fails on v2: no satisfaction score of the members makes
    [evaluate] the mean of [0.5 * mean satisfaction + 0.5 * diversity].
    Alone in a team, [ada] and [eve] would each need the score 1/9; together
    in one team (they share a role) the claimed fitness would then be 11/36,
    and [evaluate] gives 5/9 for all three candidates. *)
Lemma v2_fitness_is_not_the_claimed_one :
  ~ exists sat : V2.Student -> Q,
      forall teams v, teams ∈ [[[ada]]; [[eve]]; [[ada; eve]]] ->
        V2.evaluate small_optimizer teams = Ok v ->
        v == claimed_fitness sat V2.belbin_role teams.
Proof.
  intros (sat & Hclaim).
  destruct (v2_evaluate_value [[ada]] (5 # 9) eq_refl) as (v1 & E1 & Hv1).
  destruct (v2_evaluate_value [[eve]] (5 # 9) eq_refl) as (v2 & E2 & Hv2).
  destruct (v2_evaluate_value [[ada; eve]] (5 # 9) eq_refl) as (v3 & E3 & Hv3).
  pose proof (Hclaim [[ada]] v1 ltac:(set_solver) E1) as Ha.
  pose proof (Hclaim [[eve]] v2 ltac:(set_solver) E2) as He.
  pose proof (Hclaim [[ada; eve]] v3 ltac:(set_solver) E3) as Hae.
  rewrite Hv1 in Ha. rewrite Hv2 in He. rewrite Hv3 in Hae.
  unfold claimed_fitness, claimed_group_fitness, mean, py_sum in Ha, He, Hae.
  cbn [map fold_left length V2.belbin_role ada eve] in Ha, He, Hae.
  change (distinct_count ["Plant"]) with 1%nat in Ha, He.
  change (distinct_count ["Plant"; "Plant"]) with 1%nat in Hae.
  change (inject_Z (Z.of_nat 1)) with 1 in *.
  change (inject_Z (Z.of_nat 2)) with 2 in *.
  set (a := sat ada) in *. set (e := sat eve) in *.
  clearbody a e. clear Hclaim. unfold Qdiv in *.
  change (/ 1) with 1 in *. change (/ 2) with (1 # 2) in *. lra.
Qed.

(** C4, amended.  In v1 the fitness of a group is 0.5 times the mean
    satisfaction of its members with the group's project plus 0.5 times the
    fraction of distinct role labels among the members (their number is the
    length of the list of roles without duplicates), and 0 for an empty
    group; the fitness of a constructed candidate is the unweighted mean of
    the group fitnesses (the optimizer's [n_teams] being the number of its
    teams).  In v2 the fitness of a candidate is [preference_weight] times
    the share of groups that are not empty plus [1 - preference_weight]
    times the mean over the groups of the number of distinct roles divided
    by 9. *)
Theorem fitness_of_groups_and_candidates {G : Type} `{RandomSource G} `{FloatPow} :
  (forall (t : V1.Team) (sat : V1.Student -> Q),
     (forall s, s ∈ V1.students t ->
                V1.satisfaction s (V1.project t) = Ok (sat s)) ->
     exists v, V1.fitness t = Ok v
               /\ v == claimed_group_fitness sat V1.belbin (V1.students t))
  /\ (forall l : list string, distinct_count l = length (remove_dups l))
  /\ (forall t : V1.Team, V1.students t = [] ->
        exists v, V1.fitness t = Ok v /\ v == 0)
  /\ (forall (w : World V1.ACO G) teams fit w',
        V1.construct_solution w = Ok ((teams, fit), w') ->
        V1.n_teams (self w) = length (V1.base_teams (self w)) ->
        exists fs, Forall2 (fun t f => V1.fitness t = Ok f) teams fs
                   /\ fit = mean fs)
  /\ (forall students np tpp ts al be rh na ni q,
        V1.n_teams (V1.init_fields students np tpp ts al be rh na ni q)
        = length (V1.base_teams
                    (V1.init_fields students np tpp ts al be rh na ni q)))
  /\ (forall (me : V2.AntColonyOptimizer) teams,
        teams <> [] ->
        Forall (Forall (fun s => V2.preferences s <> [])) teams ->
        exists v,
          V2.evaluate me teams = Ok v
          /\ v == V2.preference_weight me * mean (map v2_preference_term teams)
                  + (1 - V2.preference_weight me)
                    * mean (map v2_diversity_term teams)).
Proof.
  split; [apply v1_group_fitness |].
  split; [apply distinct_count_remove_dups |]. split; [| split; [| split]].
  - intros t Hempty.
    destruct (v1_group_fitness t (fun _ => 0)) as (v & Hv & Hq).
    { intros s Hs. rewrite Hempty in Hs. by apply elem_of_nil in Hs. }
    exists v. split; [done |]. by rewrite Hempty in Hq.
  - intros w teams fit w' Hc Hn.
    apply construct_solution_Ok in Hc as (_ & Hfr & _ & Hfit & _).
    apply v1_solution_fitness in Hfit as (fs & Hfs & _ & Hmean).
    exists fs. split; [done |]. apply Hmean.
    rewrite Hn, <- (Forall2_length _ _ _ Hfr). unfold fresh_teams.
    by rewrite length_map.
  - intros. simpl. by rewrite length_map, length_seq.
  - apply v2_evaluate_formula.
Qed.

(** ** C5: what a run depends on *)

Section RunFrame.
Context {G : Type} `{RandomSource G} `{FloatPow}.




End RunFrame.



(** ** C6: what a construction does to the pheromone store *)

(** C6, as stated, fails on v2: the store is a [defaultdict], and reading a
    key that is not stored stores it.  One construction on an empty store
    leaves the store with entries. *)
Lemma v2_construction_grows_the_store :
  exists teams w',
    @V2.construct_solution (list nat) tape_source int_pow small_v2_world
    = Ok (teams, w')
    /\ V2.pheromones (self small_v2_world) = ∅
    /\ V2.pheromones (self w') !! ("ada", 0%nat) = Some 1
    /\ V2.pheromones (self w') <> V2.pheromones (self small_v2_world).
Proof.
  eexists _, _. split; [vm_compute; reflexivity |].
  split; [reflexivity |]. split; [by vm_compute |].
  intros E. apply (f_equal (fun p => p !! ("ada", 0%nat))) in E.
  vm_compute in E. discriminate.
Qed.

(** C6, amended.  A construction of v1 leaves the optimizer exactly as it
    was, the pheromone matrix included.  A construction of v2 changes
    nothing but the pheromone store, and the store only by storing the
    default weight 1 under keys that were not stored: every stored entry
    keeps its weight, and every key, stored or not, yields the same weight
    before and after. *)
Theorem construction_reads_the_store {G : Type} `{RandomSource G} `{FloatPow} :
  (forall (w : World V1.ACO G) r w',
     V1.construct_solution w = Ok (r, w') ->
     self w' = self w /\ V1.tau (self w') = V1.tau (self w))
  /\ (forall (w : World V2.AntColonyOptimizer G) teams w',
        V2.construct_solution w = Ok (teams, w') ->
        self w' = V2.with_pheromones (self w) (V2.pheromones (self w'))
        /\ (forall key weight,
              V2.pheromones (self w) !! key = Some weight ->
              V2.pheromones (self w') !! key = Some weight)
        /\ (forall key weight,
              V2.pheromones (self w') !! key = Some weight ->
              V2.pheromones (self w) !! key = Some weight
              \/ (V2.pheromones (self w) !! key = None
                  /\ weight = V2.default_pheromone))
        /\ (forall key,
              V2.pheromone_of (V2.pheromones (self w')) key
              = V2.pheromone_of (V2.pheromones (self w)) key)).
Proof.
  split.
  - intros w [teams fit] w' Hc. apply construct_solution_Ok in Hc as (Hself & _).
    by rewrite Hself.
  - intros w teams w' Hc. apply v2_construct_solution_Ok in Hc as ((E & Hsub & Hof) & _).
    split; [done |]. split.
    + intros key weight Hk. eapply lookup_weaken; eauto.
    + split; [| done]. intros key weight Hk'.
      specialize (Hof key). unfold V2.pheromone_of in Hof. rewrite Hk' in Hof.
      destruct (V2.pheromones (self w) !! key) as [v |] eqn:Hk; simpl in Hof.
      * left. by rewrite Hof.
      * right. done.
Qed.

(** ** C7: capacity and composition of the constructed groups *)




(** ** C8: [Team.can_add] *)

(** C8.  [can_add] is [False] for a team at (or above) capacity, whatever the
    student's nationality; below capacity it is [True] for the unrestricted
    nationality, and otherwise [True] exactly when fewer than
    [max_same_nat] members share the student's nationality; the default
    cap is 2. *)
Theorem can_add_spec (t : V1.Team) (s : V1.Student) (cap : nat) (unl : string) :
  (V1.len t = V1.capacity t -> V1.can_add t s cap unl = false)
  /\ ((V1.capacity t <= V1.len t)%nat -> V1.can_add t s cap unl = false)
  /\ ((V1.len t < V1.capacity t)%nat -> V1.nationality s = unl ->
        V1.can_add t s cap unl = true)
  /\ ((V1.len t < V1.capacity t)%nat -> V1.nationality s <> unl ->
        (V1.can_add t s cap unl = true <-> (same_nationality t s < cap)%nat))
  /\ V1.default_max_same_nat = 2%nat.
Proof.
  unfold V1.can_add, V1.len, same_nationality, V1.eq_str.
  split; [| split; [| split; [| split; [| reflexivity]]]].
  - intros E. rewrite E. by rewrite Nat.leb_refl.
  - intros E. apply Nat.leb_le in E. by rewrite E.
  - intros Hlt ->. apply Nat.leb_gt in Hlt. rewrite Hlt.
    by rewrite bool_decide_eq_true_2.
  - intros Hlt Hne. apply Nat.leb_gt in Hlt. rewrite Hlt.
    rewrite bool_decide_eq_false_2 by done. apply Nat.ltb_lt.
Qed.

(** ** C9: [Student.satisfaction] *)

(** C9.  For a student whose preference list is a permutation of the
    projects [0 .. n-1], with [n >= 2]: the satisfaction with the project
    at rank [k] is [(n - 1 - k) / (n - 1)] (linear in the rank); it is 1 at
    the top rank and 0 at the bottom rank; and it does not increase as the
    rank worsens. *)
Theorem satisfaction_linear_in_rank (s : V1.Student) (n : nat) :
  Permutation (V1.prefs s) (seq 0 n) -> (2 <= n)%nat ->
  (forall k p, V1.prefs s !! k = Some p ->
     V1.satisfaction s p
     = Ok (inject_Z (Z.of_nat n - 1 - Z.of_nat k) / inject_Z (Z.of_nat n - 1)))
  /\ (forall p, V1.prefs s !! 0%nat = Some p ->
        exists v, V1.satisfaction s p = Ok v /\ v == 1)
  /\ (forall p, V1.prefs s !! (n - 1)%nat = Some p ->
        exists v, V1.satisfaction s p = Ok v /\ v == 0)
  /\ (forall k1 k2 p1 p2 v1 v2, (k1 <= k2)%nat ->
        V1.prefs s !! k1 = Some p1 -> V1.prefs s !! k2 = Some p2 ->
        V1.satisfaction s p1 = Ok v1 -> V1.satisfaction s p2 = Ok v2 ->
        v2 <= v1).
Proof.
  intros Hperm Hn.
  assert (Hnd : NoDup (V1.prefs s)).
  { rewrite Hperm. apply NoDup_seq. }
  assert (Hlen : length (V1.prefs s) = n).
  { rewrite (Permutation_length Hperm). apply length_seq. }
  assert (Hat : forall k p, V1.prefs s !! k = Some p ->
     V1.satisfaction s p
     = Ok (inject_Z (Z.of_nat n - 1 - Z.of_nat k) / inject_Z (Z.of_nat n - 1))).
  { intros k p Hk. rewrite <- Hlen. apply satisfaction_at_rank; [done | lia | done]. }
  assert (Hpos : 0 < inject_Z (Z.of_nat n - 1)).
  { unfold Qlt. simpl. lia. }
  split; [exact Hat |]. split; [| split].
  - intros p Hp. eexists. split; [apply (Hat _ _ Hp) |].
    replace (Z.of_nat n - 1 - Z.of_nat 0)%Z with (Z.of_nat n - 1)%Z by lia.
    field. intros E. rewrite E in Hpos. by apply Qlt_irrefl in Hpos.
  - intros p Hp. eexists. split; [apply (Hat _ _ Hp) |].
    replace (Z.of_nat n - 1 - Z.of_nat (n - 1))%Z with 0%Z by lia.
    unfold Qdiv. apply Qmult_0_l.
  - intros k1 k2 p1 p2 v1 v2 Hk H1 H2 E1 E2.
    rewrite (Hat _ _ H1) in E1. rewrite (Hat _ _ H2) in E2.
    injection E1 as <-. injection E2 as <-.
    unfold Qdiv. apply Qmult_le_compat_r.
    + rewrite <- Zle_Qle. lia.
    + apply Qlt_le_weak, Qinv_lt_0_compat, Hpos.
Qed.

Lemma satisfaction_linear_in_rank_witness :
  exists v, V1.satisfaction student_102 1%nat = Ok v /\ v == 1.
Proof.
  assert (Hperm : Permutation (V1.prefs student_102) (seq 0 3)).
  { simpl. apply perm_swap. }
  assert (Hn : (2 <= 3)%nat) by lia.
  exact (proj1 (proj2 (satisfaction_linear_in_rank student_102 3 Hperm Hn))
               1%nat eq_refl).
Defined.

(** ** C10: the inversion loop on the machine's numbers *)

Section FallThrough.
Import PrimFloat.

(** C10.  In binary64 the selection loop of v1 can end without binding a
    team although the feasible list is not empty and every weight is
    positive.  For the weights [1, 2^-53, 2^-53, 2^-53, 2^-53] the loop
    accumulates 1 (each later addition rounds back to 1), while the
    compensated [sum] of CPython 3.12 returns [1 + 2^-51]; with the draw
    [1 - 2^-53] the threshold [r] is [1 + 2^-52], above every cumulative
    sum.  [chosen_team] is then unbound at the [add] for the first student,
    and still bound to the team of the previous student for a later one.
    With the left-to-right [sum] of CPython 3.11 the total is 1 and the
    first team is bound. *)
Theorem selection_can_fall_through :
  Forall (fun p => (0 <? p)%float = true) Binary64.fall_through_weights
  /\ (0 <=? Binary64.last_draw)%float = true
  /\ (Binary64.last_draw <? 1)%float = true
  /\ Binary64.py_sum_compensated Binary64.fall_through_weights
     = 0x1.0000000000002p+0%float
  /\ (Binary64.last_draw
      * Binary64.py_sum_compensated Binary64.fall_through_weights)%float
     = 0x1.0000000000001p+0%float
  /\ (forall k,
        Binary64.choose_team Binary64.py_sum_compensated None
          [0; 1; 2; 3; 4]%nat Binary64.fall_through_weights
          Binary64.last_draw k
        = Ok None)
  /\ (forall teams s, V1.add_to teams None s = Raise UnboundLocalError)
  /\ (forall k previous,
        Binary64.choose_team Binary64.py_sum_compensated (Some previous)
          [0; 1; 2; 3; 4]%nat Binary64.fall_through_weights
          Binary64.last_draw k
        = Ok (Some previous))
  /\ Binary64.py_sum_plain Binary64.fall_through_weights = 1%float
  /\ (forall k chosen,
        Binary64.choose_team Binary64.py_sum_plain chosen
          [0; 1; 2; 3; 4]%nat Binary64.fall_through_weights
          Binary64.last_draw k
        = Ok (Some 0%nat)).
Proof.
  split; [repeat constructor |].
  repeat split; try (vm_compute; reflexivity); intros; vm_compute; reflexivity.
Qed.

End FallThrough.

(** * Further properties of the code

    Properties of the functions the claims do not reach, and of the ones
    they reach, read off the code: ranges, errors, what the constructions
    and the runs return, the sample data and the benchmarks. *)

(** ** The range of [Student.satisfaction] *)

Lemma py_index_absent `{EqDecision A} (x : A) (l : list A) :
  x ∉ l -> py_index x l = Raise ValueError.
Proof.
  intros Hx. unfold py_index.
  destruct (list_find _ l) as [[i y] |] eqn:E; [| done].
  apply list_find_Some in E as (Hi & -> & _).
  exfalso. apply Hx. by eapply list_elem_of_lookup_2.
Qed.

Lemma py_index_present `{EqDecision A} (x : A) (l : list A) :
  x ∈ l -> exists i, py_index x l = Ok i /\ (i < length l)%nat.
Proof.
  intros Hx. unfold py_index.
  destruct (list_find _ l) as [[i y] |] eqn:E.
  - apply list_find_Some in E as (Hi & _). exists i. split; [done |].
    by eapply lookup_lt_Some.
  - apply list_find_None in E. rewrite Forall_forall in E.
    by destruct (E x Hx).
Qed.

Lemma satisfaction_le_1 s p v : V1.satisfaction s p = Ok v -> v <= 1.
Proof.
  unfold V1.satisfaction. intros Hs.
  apply result_bind_Ok in Hs as (rank & Hrank & Hs).
  apply py_index_lt in Hrank as [Hlt _].
  apply py_div_Ok in Hs as [Hnz ->].
  assert (Hden : 0 < inject_Z (Z.of_nat (length (V1.prefs s)) - 1)).
  { assert (Hle : 0 <= inject_Z (Z.of_nat (length (V1.prefs s)) - 1))
      by (rewrite <- (Zle_Qle 0); lia).
    apply Qle_lteq in Hle as [Hlt' | Heq]; [done |].
    exfalso. apply Hnz. by symmetry. }
  apply Qle_shift_div_r; [done |]. rewrite Qmult_1_l.
  rewrite <- Zle_Qle. lia.
Qed.

Lemma satisfaction_returns (s : V1.Student) (p : nat) :
  p ∈ V1.prefs s -> (2 <= length (V1.prefs s))%nat ->
  exists v, V1.satisfaction s p = Ok v /\ 0 <= v /\ v <= 1.
Proof.
  intros Hp Hlen.
  destruct (py_index_present p (V1.prefs s) Hp) as (i & Hi & Hlt).
  assert (Hs : exists v, V1.satisfaction s p = Ok v).
  { unfold V1.satisfaction. rewrite Hi. unfold mbind, result_bind.
    rewrite py_div_nonzero; [by eexists |].
    intros E. unfold Qeq in E. simpl in E. lia. }
  destruct Hs as [v Hv]. exists v. split; [done |].
  split; [by eapply satisfaction_nonneg | by eapply satisfaction_le_1].
Qed.

(** X1.  [Student.satisfaction] raises [ValueError] for a project that is not
    in the preference list, [ZeroDivisionError] when the list holds the
    project and has a single entry, and returns otherwise; whatever the list
    (duplicates included), a value it returns lies between 0 and 1. *)
Theorem satisfaction_errors_and_range (s : V1.Student) (p : nat) :
  (p ∉ V1.prefs s -> V1.satisfaction s p = Raise ValueError)
  /\ (p ∈ V1.prefs s -> length (V1.prefs s) = 1%nat ->
        V1.satisfaction s p = Raise ZeroDivisionError)
  /\ (p ∈ V1.prefs s -> (2 <= length (V1.prefs s))%nat ->
        exists v, V1.satisfaction s p = Ok v /\ 0 <= v /\ v <= 1)
  /\ (forall v, V1.satisfaction s p = Ok v -> 0 <= v /\ v <= 1).
Proof.
  split; [| split; [| split]].
  - intros Hp. unfold V1.satisfaction. by rewrite py_index_absent.
  - intros Hp Hlen. unfold V1.satisfaction.
    destruct (py_index_present p (V1.prefs s) Hp) as (i & -> & Hi).
    rewrite Hlen. done.
  - apply satisfaction_returns.
  - intros v Hv. split; [by eapply satisfaction_nonneg | by eapply satisfaction_le_1].
Qed.

(** ** The range of the heuristic and of the fitness in v1 *)

Lemma length_remove_dups_le `{EqDecision A} (l : list A) :
  (length (remove_dups l) <= length l)%nat.
Proof.
  induction l as [| x l IH]; simpl; [done |].
  destruct (decide_rel elem_of x l); simpl; lia.
Qed.

Lemma distinct_count_le (l : list string) : (distinct_count l <= length l)%nat.
Proof. rewrite distinct_count_remove_dups. apply length_remove_dups_le. Qed.

Lemma distinct_count_pos (l : list string) : l <> [] -> (0 < distinct_count l)%nat.
Proof.
  intros Hl. rewrite distinct_count_remove_dups.
  destruct l as [| x l]; [done |].
  assert (Hx : x ∈ remove_dups (x :: l)) by (apply elem_of_remove_dups; left).
  destruct (remove_dups (x :: l)); [by apply elem_of_nil in Hx | simpl; lia].
Qed.

Lemma Qdiv_nat_le_1 (a b : nat) :
  (a <= b)%nat -> inject_Z (Z.of_nat a) / inject_Z (Z.of_nat b) <= 1.
Proof.
  intros Hab. destruct b as [| b].
  - unfold Qdiv. change (/ inject_Z (Z.of_nat 0)) with 0.
    rewrite Qmult_0_r. discriminate.
  - apply Qle_shift_div_r; [rewrite <- (Zlt_Qlt 0); lia |].
    rewrite Qmult_1_l, <- Zle_Qle. lia.
Qed.

Lemma Qdiv_nat_pos (a b : nat) :
  (0 < a)%nat -> (0 < b)%nat -> 0 < inject_Z (Z.of_nat a) / inject_Z (Z.of_nat b).
Proof.
  intros Ha Hb. apply Qlt_shift_div_l; [rewrite <- (Zlt_Qlt 0); lia |].
  rewrite Qmult_0_l, <- (Zlt_Qlt 0). lia.
Qed.

(** X2.  A value [ACO.heuristic] returns is above the offset [1e-6], and at
    most [1 + 1e-6] when the team has fewer members than [team_size].  The
    call raises what [satisfaction] raises; when [satisfaction] returns it
    raises [ZeroDivisionError] for a [team_size] of 0 and returns
    otherwise. *)
Theorem heuristic_bounds (me : V1.ACO) (s : V1.Student) (t : V1.Team) :
  (forall eta, V1.heuristic me s t = Ok eta ->
     V1.eta_eps < eta
     /\ ((V1.len t < V1.team_size me)%nat -> eta <= 1 + V1.eta_eps))
  /\ (forall e, V1.satisfaction s (V1.project t) = Raise e ->
        V1.heuristic me s t = Raise e)
  /\ (is_Ok (V1.satisfaction s (V1.project t)) -> V1.team_size me = 0%nat ->
        V1.heuristic me s t = Raise ZeroDivisionError)
  /\ (is_Ok (V1.satisfaction s (V1.project t)) -> V1.team_size me <> 0%nat ->
        is_Ok (V1.heuristic me s t)).
Proof.
  split; [| split; [| split]].
  - unfold V1.heuristic. intros eta Hh.
    apply result_bind_Ok in Hh as (sat & Hsat & Hh).
    apply result_bind_Ok in Hh as (b & Hb & [= <-]).
    pose proof (satisfaction_nonneg _ _ _ Hsat) as Hs0.
    pose proof (satisfaction_le_1 _ _ _ Hsat) as Hs1.
    apply py_div_Ok in Hb as [Hnz ->].
    set (roles := V1.belbin s :: map V1.belbin (V1.students t)) in *.
    assert (Hts : (0 < V1.team_size me)%nat).
    { destruct (V1.team_size me); [| lia]. exfalso. by apply Hnz. }
    split.
    + assert (Hb : 0 < inject_Z (Z.of_nat (distinct_count roles))
                       / inject_Z (Z.of_nat (V1.team_size me))).
      { apply Qdiv_nat_pos; [by apply distinct_count_pos | done]. }
      lra.
    + intros Hroom.
      assert (Hb : inject_Z (Z.of_nat (distinct_count roles))
                   / inject_Z (Z.of_nat (V1.team_size me)) <= 1).
      { apply Qdiv_nat_le_1. etransitivity; [apply distinct_count_le |].
        unfold roles, V1.len in *. simpl. rewrite length_map. lia. }
      lra.
  - intros e He. unfold V1.heuristic. by rewrite He.
  - intros Hs Hz. apply is_Ok_inv in Hs as [sat Hs].
    unfold V1.heuristic. rewrite Hs, Hz. done.
  - intros Hs Hnz. apply is_Ok_inv in Hs as [sat Hs].
    unfold V1.heuristic. rewrite Hs. unfold mbind, result_bind.
    by rewrite py_div_nonzero by (by apply inject_nat_nonzero).
Qed.

Lemma fold_left_Qplus_le (l : list Q) (c b : Q) :
  Forall (fun p => p <= b) l ->
  fold_left Qplus l c <= c + inject_Z (Z.of_nat (length l)) * b.
Proof.
  revert c. induction l as [| p l IH]; intros c Hall.
  - simpl. change (inject_Z (Z.of_nat 0)) with 0. lra.
  - apply Forall_cons in Hall as [Hp Hall]. cbn [fold_left].
    eapply Qle_trans; [by apply IH |].
    change (length (p :: l)) with (S (length l)).
    rewrite (Nat2Z.inj_succ (length l)), <- Z.add_1_r, inject_Z_plus.
    change (inject_Z 1) with 1. lra.
Qed.

Lemma mean_le_1 (l : list Q) (n : nat) :
  Forall (fun p => p <= 1) l -> (length l <= n)%nat ->
  py_sum l / inject_Z (Z.of_nat n) <= 1.
Proof.
  intros Hall Hn. destruct n as [| n].
  - unfold Qdiv. change (/ inject_Z (Z.of_nat 0)) with 0.
    rewrite Qmult_0_r. discriminate.
  - apply Qle_shift_div_r; [rewrite <- (Zlt_Qlt 0); lia |].
    pose proof (fold_left_Qplus_le l 0 1 Hall) as Hsum. unfold py_sum.
    assert (Hle : inject_Z (Z.of_nat (length l)) <= inject_Z (Z.of_nat (S n)))
      by (rewrite <- Zle_Qle; lia).
    lra.
Qed.

Lemma fitness_le_1 (t : V1.Team) v : V1.fitness t = Ok v -> v <= 1.
Proof.
  unfold V1.fitness, V1._satisfaction_score, V1._belbin_diversity. intros Hf.
  apply result_bind_Ok in Hf as (sat & Hsat & Hf).
  apply result_bind_Ok in Hf as (div & Hdiv & [= <-]).
  assert (Hs : sat <= 1).
  { destruct (V1.students t) as [| s l]; [by injection Hsat as <- |].
    apply result_bind_Ok in Hsat as (sats & Hsats & Hsat).
    apply py_div_Ok in Hsat as [_ ->].
    apply mapM_result_Forall2 in Hsats.
    apply mean_le_1; [| by rewrite (Forall2_length _ _ _ Hsats)].
    clear -Hsats. induction Hsats as [| a x l1 l2 Hax _ IH]; constructor;
      [by eapply satisfaction_le_1 | done]. }
  assert (Hd : div <= 1).
  { destruct (V1.students t) as [| s l]; [by injection Hdiv as <- |].
    apply py_div_Ok in Hdiv as [_ ->]. apply Qdiv_nat_le_1.
    etransitivity; [apply distinct_count_le |]. by rewrite length_map. }
  lra.
Qed.

Lemma fitness_pos (t : V1.Team) v :
  V1.fitness t = Ok v -> V1.students t <> [] -> 0 < v.
Proof.
  unfold V1.fitness, V1._satisfaction_score, V1._belbin_diversity.
  intros Hf Hne.
  apply result_bind_Ok in Hf as (sat & Hsat & Hf).
  apply result_bind_Ok in Hf as (div & Hdiv & [= <-]).
  destruct (V1.students t) as [| s l] eqn:Hst; [done |].
  apply result_bind_Ok in Hsat as (sats & Hsats & Hsat).
  apply py_div_Ok in Hsat as [_ ->].
  apply py_div_Ok in Hdiv as [_ ->].
  assert (Hs : 0 <= py_sum sats / inject_Z (Z.of_nat (length (s :: l)))).
  { apply Qdiv_nat_nonneg. apply fold_left_Qplus_nonneg; [lra |].
    apply mapM_result_Forall2 in Hsats.
    clear -Hsats. induction Hsats as [| a x l1 l2 Hax _ IH]; constructor;
      [by eapply satisfaction_nonneg | done]. }
  assert (Hd : 0 < inject_Z (Z.of_nat (distinct_count (map V1.belbin (s :: l))))
                   / inject_Z (Z.of_nat (length (s :: l)))).
  { apply Qdiv_nat_pos; [by apply distinct_count_pos | simpl; lia]. }
  lra.
Qed.

(** X3.  The fitness of a team lies between 0 and 1 and is positive for a team
    that is not empty; the mean [sum / n_teams] of the team fitnesses is
    not negative, and at most 1 when [n_teams] is not below the number of
    teams, as for the candidates [construct_solution] returns. *)
Theorem fitness_bounds {G : Type} `{RandomSource G} `{FloatPow} :
  (forall (t : V1.Team) v, V1.fitness t = Ok v ->
     0 <= v /\ v <= 1 /\ (V1.students t <> [] -> 0 < v))
  /\ (forall teams n fit, V1.solution_fitness teams n = Ok fit ->
        0 <= fit /\ ((length teams <= n)%nat -> fit <= 1))
  /\ (forall (w : World V1.ACO G) teams fit w',
        V1.construct_solution w = Ok ((teams, fit), w') ->
        (length (V1.base_teams (self w)) <= V1.n_teams (self w))%nat ->
        0 <= fit /\ fit <= 1).
Proof.
  assert (Hsol : forall teams n fit, V1.solution_fitness teams n = Ok fit ->
        0 <= fit /\ ((length teams <= n)%nat -> fit <= 1)).
  { intros teams n fit Hf.
    split; [by eapply solution_fitness_nonneg |]. intros Hn.
    apply v1_solution_fitness in Hf as (fs & Hfs & -> & _).
    apply mean_le_1; [| by rewrite <- (Forall2_length _ _ _ Hfs)].
    clear -Hfs. induction Hfs as [| t f l1 l2 Htf _ IH]; constructor;
      [by eapply fitness_le_1 | done]. }
  split; [| split; [exact Hsol |]].
  - intros t v Hv. split; [by eapply fitness_nonneg |].
    split; [by eapply fitness_le_1 | by apply fitness_pos].
  - intros w teams fit w' Hc Hn.
    apply construct_solution_Ok in Hc as (_ & Hfr & _ & Hfit & _).
    destruct (Hsol _ _ _ Hfit) as [Hlo Hhi]. split; [done |]. apply Hhi.
    rewrite <- (Forall2_length _ _ _ Hfr). unfold fresh_teams.
    by rewrite length_map.
Qed.

(** ** Guarded additions keep the constraints *)



Section GuardedPlacement.
Context {G : Type} `{RandomSource G} `{FloatPow}.


End GuardedPlacement.

(** ** The teams and the matrix [ACO.__init__] builds *)

Lemma filter_seq_block (p tpp a n : nat) :
  (0 < tpp)%nat ->
  filter (fun j => (j / tpp)%nat = p) (seq a n)
  = seq (Nat.max a (p * tpp)) (Nat.min (a + n) (p * tpp + tpp) - Nat.max a (p * tpp)).
Proof.
  intros Htpp. revert a. induction n as [| n IH]; intros a.
  - simpl. replace (_ - _)%nat with 0%nat by lia. done.
  - cbn [seq]. rewrite filter_cons. rewrite IH.
    assert (Hdiv : (a / tpp)%nat = p <-> (p * tpp <= a < p * tpp + tpp)%nat).
    { split.
      - intros <-. pose proof (Nat.Div0.mul_div_le a tpp).
        pose proof (Nat.mul_succ_div_gt a tpp ltac:(lia)). lia.
      - intros [Hlo Hhi]. symmetry. apply (Nat.div_unique a tpp p (a - p * tpp)); lia. }
    destruct (decide (a / tpp = p)%nat) as [Hd | Hd].
    + apply Hdiv in Hd.
      replace (Nat.max a (p * tpp)) with a by lia.
      replace (Nat.min (a + S n) (p * tpp + tpp) - a)%nat
        with (S (Nat.min (S a + n) (p * tpp + tpp) - Nat.max (S a) (p * tpp)))
        by lia.
      cbn [seq]. f_equal.
      destruct (decide (S a < p * tpp + tpp)%nat).
      * by replace (Nat.max (S a) (p * tpp)) with (S a) by lia.
      * by replace (Nat.min (S a + n) (p * tpp + tpp) - Nat.max (S a) (p * tpp))%nat
          with 0%nat by lia.
    + assert (Hout : (a < p * tpp \/ p * tpp + tpp <= a)%nat) by lia.
      destruct Hout as [Hlt | Hge].
      * replace (Nat.max (S a) (p * tpp)) with (Nat.max a (p * tpp)) by lia.
        by replace (S a + n)%nat with (a + S n)%nat by lia.
      * replace (Nat.min (S a + n) (p * tpp + tpp) - Nat.max (S a) (p * tpp))%nat
          with 0%nat by lia.
        by replace (Nat.min (a + S n) (p * tpp + tpp) - Nat.max a (p * tpp))%nat
          with 0%nat by lia.
Qed.

(** X5.  [ACO.__init__] builds [n_projects * teams_per_project] empty teams of
    capacity [team_size]; team [j] has id [j] and project
    [j // teams_per_project], a project below [n_projects], and the teams
    of project [p] are those with the ids [p * teams_per_project], ...,
    [(p + 1) * teams_per_project - 1]; the matrix has one row per student,
    each holding one weight 1.0 per team. *)
Theorem init_layout (students : list V1.Student) (np tpp ts : nat)
    (al be rh : Q) (na ni : nat) (q : Q) :
  length (V1.base_teams (V1.init_fields students np tpp ts al be rh na ni q))
  = (np * tpp)%nat
  /\ (forall j t,
        V1.base_teams (V1.init_fields students np tpp ts al be rh na ni q) !! j
        = Some t ->
        V1.tid t = j /\ V1.project t = (j / tpp)%nat /\ (V1.project t < np)%nat
        /\ V1.capacity t = ts /\ V1.students t = [])
  /\ (forall p, (p < np)%nat ->
        map V1.tid
          (filter (fun t => V1.project t = p)
             (V1.base_teams (V1.init_fields students np tpp ts al be rh na ni q)))
        = seq (p * tpp) tpp)
  /\ length (V1.tau (V1.init_fields students np tpp ts al be rh na ni q))
     = length students
  /\ (forall i row,
        V1.tau (V1.init_fields students np tpp ts al be rh na ni q) !! i = Some row ->
        row = replicate (np * tpp) 1).
Proof.
  set (me := V1.init_fields students np tpp ts al be rh na ni q).
  split; [| split; [| split; [| split]]].
  - unfold me. simpl. by rewrite length_map, length_seq.
  - intros j t Hj. unfold me in Hj. simpl in Hj.
    rewrite list_lookup_fmap in Hj.
    destruct (seq 0 (np * tpp) !! j) as [k |] eqn:Hk; [| discriminate].
    apply lookup_seq in Hk as [-> Hlt]. injection Hj as <-. simpl.
    repeat split; try done. apply Nat.Div0.div_lt_upper_bound. lia.
  - intros p Hp. unfold me. simpl.
    destruct tpp as [| tpp'].
    { by rewrite Nat.mul_0_r. }
    set (tpp := S tpp') in *.
    transitivity (filter (fun j => (j / tpp)%nat = p) (seq 0 (np * tpp))).
    { generalize (seq 0 (np * tpp)). intros l.
      induction l as [| j l IH]; [done |]. cbn [map].
      rewrite !filter_cons. cbn [V1.project].
      destruct (decide (j / tpp = p)%nat); cbn [map V1.tid]; by rewrite IH. }
    rewrite filter_seq_block by (unfold tpp; lia).
    replace (Nat.max 0 (p * tpp)) with (p * tpp)%nat by lia.
    f_equal. assert (p * tpp + tpp <= np * tpp)%nat by nia. lia.
  - unfold me. simpl. by rewrite length_replicate.
  - intros i row Hrow. unfold me in Hrow. simpl in Hrow.
    by apply lookup_replicate in Hrow as [-> _].
Qed.

(** ** The range of the heuristic of v2 *)

Lemma py_sum_Z_bounds (l : list Z) (lo hi : Z) c :
  Forall (fun x => lo <= x <= hi)%Z l ->
  (c + Z.of_nat (length l) * lo <= fold_left Z.add l c
   <= c + Z.of_nat (length l) * hi)%Z.
Proof.
  revert c. induction l as [| x l IH]; intros c Hall; simpl fold_left.
  - simpl. lia.
  - apply Forall_cons in Hall as [Hx Hall]. specialize (IH (c + x)%Z Hall).
    change (length (x :: l)) with (S (length l)). rewrite Nat2Z.inj_succ. nia.
Qed.

Lemma length_omap_le {A B} (f : A -> option B) (l : list A) :
  (length (omap f l) <= length l)%nat.
Proof.
  induction l as [| x l IH]; csimpl; [done |]. destruct (f x); csimpl; lia.
Qed.

Lemma v2_heuristic_range (me : V2.AntColonyOptimizer) (student : V2.Student)
    (team : list V2.Student) :
  0 <= V2.preference_weight me -> V2.preference_weight me <= 1 ->
  V2.heuristic me student [] = 1
  /\ V2.heuristic me student team <= 1
  /\ ((length (V2.preferences student) <= 6)%nat ->
      0 <= V2.heuristic me student team
      /\ (team <> [] ->
          (1 - V2.preference_weight me) * (1 # 2) <= V2.heuristic me student team)).
Proof.
  intros Hw0 Hw1. split; [done |].
  destruct team as [| m team]; [split; [discriminate | ] |].
  { intros _. split; [discriminate | done]. }
  unfold V2.heuristic.
  set (team_projects := flat_map _ _).
  set (terms := omap _ team_projects).
  set (div_score := if bool_decide _ then _ else _).
  set (den := inject_Z (5 * Z.of_nat (length team_projects)) + (1 # 100000)).
  assert (Hden : 0 < den).
  { unfold den.
    assert (0 <= inject_Z (5 * Z.of_nat (length team_projects)))
      by (rewrite <- (Zle_Qle 0); lia).
    assert (0 < 1 # 100000) by reflexivity. lra. }
  assert (Hdiv : (1 # 2) <= div_score /\ div_score <= 1).
  { unfold div_score. destruct (bool_decide _); split; discriminate. }
  assert (Hlen : (length terms <= length team_projects)%nat)
    by apply length_omap_le.
  assert (Hup : Forall (fun x => 0 - Z.of_nat (length (V2.preferences student)) <= x <= 5)%Z terms).
  { unfold terms. apply Forall_forall. intros x Hx.
    apply list_elem_of_omap in Hx as (p & _ & Hp).
    destruct (list_find _ _) as [[i y] |] eqn:E; [| discriminate].
    injection Hp as <-. apply list_find_Some in E as (Hi & _).
    apply lookup_lt_Some in Hi. lia. }
  split.
  - pose proof (py_sum_Z_bounds terms _ _ 0 Hup) as [_ Hsum].
    assert (Hps : inject_Z (V2.py_sum_Z terms) / den <= 1).
    { apply Qle_shift_div_r; [done |]. rewrite Qmult_1_l. unfold den.
      assert (inject_Z (V2.py_sum_Z terms)
              <= inject_Z (5 * Z.of_nat (length team_projects))).
      { rewrite <- Zle_Qle. unfold V2.py_sum_Z. lia. }
      assert (0 < 1 # 100000) by reflexivity. lra. }
    nra.
  - intros Hprefs.
    assert (Hlo : Forall (fun x => 0 <= x <= 5)%Z terms).
    { unfold terms. apply Forall_forall. intros x Hx.
      apply list_elem_of_omap in Hx as (p & _ & Hp).
      destruct (list_find _ _) as [[i y] |] eqn:E; [| discriminate].
      injection Hp as <-. apply list_find_Some in E as (Hi & _).
      apply lookup_lt_Some in Hi. lia. }
    pose proof (py_sum_Z_bounds terms _ _ 0 Hlo) as [Hsum _].
    assert (Hps : 0 <= inject_Z (V2.py_sum_Z terms) / den).
    { apply Qle_shift_div_l; [done |]. rewrite Qmult_0_l.
      rewrite <- (Zle_Qle 0). unfold V2.py_sum_Z. lia. }
    split; [nra |]. intros _. nra.
Qed.

(** X6.  For a preference weight between 0 and 1, the heuristic of v2 is 1.0
    for an empty team and never above 1; when the student lists six
    preferences at most it is not negative, and for a team that is not
    empty it is at least [(1 - preference_weight) * 0.5]. *)
Theorem v2_heuristic_bounds (me : V2.AntColonyOptimizer) (student : V2.Student)
    (team : list V2.Student) :
  0 <= V2.preference_weight me -> V2.preference_weight me <= 1 ->
  V2.heuristic me student [] = 1
  /\ V2.heuristic me student team <= 1
  /\ ((length (V2.preferences student) <= 6)%nat ->
      0 <= V2.heuristic me student team
      /\ (team <> [] ->
          (1 - V2.preference_weight me) * (1 # 2) <= V2.heuristic me student team)).
Proof. apply v2_heuristic_range. Qed.

Lemma v2_heuristic_bounds_witness : V2.heuristic small_optimizer ada [bob] <= 1.
Proof.
  apply (fun a b => proj1 (proj2 (v2_heuristic_bounds small_optimizer ada [bob] a b)));
    unfold Qle; simpl; lia.
Defined.

(** X7.  [evaporate_pheromones] visits the stored keys only: after any number
    of evaporations the store has the same keys, a key that is not stored
    is still not stored and still yields the default 1.0, and a stored key
    yields its weight multiplied by [1 - rho] once per evaporation. *)
Theorem v2_evaporation_spares_unread_pairs (rho : Q)
    (p : gmap (string * nat) Q) (key : string * nat) (n : nat) :
  dom (Nat.iter n (V2.evaporate rho) p) = dom p
  /\ (p !! key = None ->
      Nat.iter n (V2.evaporate rho) p !! key = None
      /\ V2.pheromone_of (Nat.iter n (V2.evaporate rho) p) key = 1)
  /\ (forall w, p !! key = Some w ->
        V2.pheromone_of (Nat.iter n (V2.evaporate rho) p) key
        = Nat.iter n (fun w => w * (1 - rho)) w).
Proof.
  induction n as [| n (IHdom & IHnone & IHsome)]; simpl.
  - split; [done |]. split.
    + intros Hk. unfold V2.pheromone_of. by rewrite Hk.
    + intros w Hk. unfold V2.pheromone_of. by rewrite Hk.
  - split; [| split].
    + unfold V2.evaporate at 1. by rewrite dom_fmap_L.
    + intros Hk. destruct (IHnone Hk) as [Hn _].
      unfold V2.pheromone_of. unfold V2.evaporate at 1 3.
      rewrite !lookup_fmap, Hn. done.
    + intros w Hk. specialize (IHsome w Hk).
      unfold V2.pheromone_of in *. unfold V2.evaporate at 1.
      rewrite lookup_fmap.
      assert (Hin : is_Some (Nat.iter n (V2.evaporate rho) p !! key)).
      { apply elem_of_dom. rewrite IHdom. apply elem_of_dom. by eexists. }
      destruct Hin as [v Hv]. rewrite Hv in *. simpl in *. by rewrite IHsome.
Qed.

(** ** Runs with no iteration or no ant *)

Lemma v1_no_ants_raises (me : V1.ACO) :
  (forall i j, (i < length (V1.aco_students me))%nat -> (j < V1.n_teams me)%nat ->
               is_Some (entry (V1.tau me) i j)) ->
  V1.updated_tau me [] = Raise ValueError.
Proof.
  intros Hdef. unfold V1.updated_tau.
  destruct (evaporate_total (V1.rho me) (length (V1.aco_students me))
              (V1.n_teams me) (V1.tau me) Hdef) as [t' ->].
  done.
Qed.

Section RunEdges.
Context {G : Type} `{RandomSource G} `{FloatPow}.

Lemma v2_no_ants_iterations l best (w : World V2.AntColonyOptimizer G) :
  V2.num_ants (self w) = 0%nat ->
  foldM V2.iteration best l w
  = Ok (best,
        mkWorld (V2.with_pheromones (self w)
                   (Nat.iter (length l) (V2.evaporate (V2.rho (self w)))
                             (V2.pheromones (self w))))
                (gen w)).
Proof.
  intros Hn. revert w Hn. induction l as [| it l IH]; intros w Hn.
  - simpl. unfold mret, M_ret. by destruct w as [[] g].
  - cbn [foldM]. unfold mbind, M_bind at 1.
    unfold V2.iteration at 1, mbind, M_bind, self_. rewrite Hn. simpl.
    rewrite IH by done. simpl. do 3 f_equal.
    unfold V2.with_pheromones. simpl. f_equal.
    unfold V2.reinforce_all. simpl.
    change (V2.evaporate (V2.rho (self w)) (Nat.iter (length l) (V2.evaporate (V2.rho (self w))) (V2.pheromones (self w)))) with (Nat.iter (S (length l)) (V2.evaporate (V2.rho (self w))) (V2.pheromones (self w))).
    by rewrite Nat.iter_succ_r.
Qed.

(** X8.  With no iteration both runs return [(None, -inf)] and change nothing.
    With no ant and an iteration, [run] of a newly built [ACO] raises
    [ValueError] in its first iteration ([max] of an empty list, after the
    evaporation), while [AntColonyOptimizer.run] returns [(None, -inf)],
    its store evaporated once per iteration. *)
Theorem runs_without_iterations_or_ants :
  (forall w : World V1.ACO G, V1.n_iter (self w) = 0%nat -> V1.run w = Ok (None, w))
  /\ (forall students np tpp ts al be rh ni q seed (g : G),
        (0 < ni)%nat ->
        V1.run (V1.new_ACO students np tpp ts al be rh 0 ni q seed g)
        = Raise ValueError)
  /\ (forall w : World V2.AntColonyOptimizer G,
        V2.max_iter (self w) = 0%nat -> V2.run w = Ok (None, w))
  /\ (forall w : World V2.AntColonyOptimizer G,
        V2.num_ants (self w) = 0%nat ->
        V2.run w
        = Ok (None,
              mkWorld (V2.with_pheromones (self w)
                         (Nat.iter (V2.max_iter (self w))
                                   (V2.evaporate (V2.rho (self w)))
                                   (V2.pheromones (self w))))
                      (gen w))).
Proof.
  split; [| split; [| split]].
  - intros w Hn. unfold V1.run, mbind, M_bind, self_. by rewrite Hn.
  - intros students np tpp ts al be rh ni q seed g Hni.
    unfold V1.run, mbind, M_bind, self_. simpl.
    destruct ni as [| ni]; [lia |]. cbn [seq foldM].
    unfold mbind, M_bind. unfold V1.iteration at 1.
    unfold mbind, M_bind, self_. simpl.
    unfold V1.update_pheromones, mbind, M_bind, self_. simpl. unfold lift.
    rewrite v1_no_ants_raises; [done |].
    intros i j Hi Hj. simpl in *. rewrite entry_replicate; [by eexists | done | done].
  - intros w Hn. unfold V2.run, mbind, M_bind, self_. by rewrite Hn.
  - intros w Hn. unfold V2.run, mbind, M_bind, self_.
    rewrite v2_no_ants_iterations by done. by rewrite length_seq.
Qed.

End RunEdges.

(** ** Where a student of v2 lands: [teams.index] compares by content *)

Lemma py_index_first `{EqDecision A} (x : A) (l : list A) i :
  py_index x l = Ok i ->
  l !! i = Some x /\ forall j y, (j < i)%nat -> l !! j = Some y -> y <> x.
Proof.
  unfold py_index. destruct (list_find _ l) as [[k y] |] eqn:E; [| discriminate].
  intros [= ->]. apply list_find_Some in E as (Hi & -> & Hfirst).
  split; [done |]. intros j y Hj Hy. by eapply Hfirst.
Qed.

(** The teams that are empty come after those that are not. *)
Definition empties_last (teams : list (list V2.Student)) : Prop :=
  forall i j t, (i < j)%nat -> teams !! i = Some [] -> teams !! j = Some t -> t = [].

Lemma concat_insert_app {A} (teams : list (list A)) idx t x :
  teams !! idx = Some t ->
  concat (<[idx := t ++ [x]]> teams) ≡ₚ x :: concat teams.
Proof.
  revert idx. induction teams as [| a teams IH]; intros idx Hidx; [done |].
  destruct idx as [| idx]; simpl in *.
  - injection Hidx as ->. rewrite <- (assoc_L (++)). simpl.
    symmetry. apply Permutation_middle.
  - rewrite IH by done. symmetry. apply Permutation_middle.
Qed.

Section V2Placement.
Context {G : Type} `{RandomSource G} `{FloatPow}.

(** A placement that changes the teams draws the position [pos] of a team
    with a free place and appends the student to the first team whose
    content equals the content of the drawn one. *)
Lemma v2_place_first teams student (w : World V2.AntColonyOptimizer G) teams' w' :
  V2.place teams student w = Ok (teams', w') ->
  (teams' = teams
   /\ forall t, t ∈ teams -> (V2.team_size (self w) <= length t)%nat)
  \/ exists pos idx t,
       teams !! pos = Some t /\ teams !! idx = Some t /\ (idx <= pos)%nat
       /\ (forall j t', (j < idx)%nat -> teams !! j = Some t' -> t' <> t)
       /\ (length t < V2.team_size (self w))%nat
       /\ teams' = <[idx := t ++ [student]]> teams.
Proof.
  unfold V2.place. intros Hp.
  apply M_bind_Ok in Hp as (me & w1 & Hme & Hp). injection Hme as <- <-.
  apply M_bind_Ok in Hp as (scores & w1 & Hsc & Hp).
  apply v2_scores_Ok in Hsc as (Hg & Hm & Hlen).
  destruct scores as [| x scores].
  - apply mret_Ok in Hp as [-> ->]. left. split; [done |].
    intros t Ht. symmetry in Hlen. apply length_zero_iff_nil in Hlen.
    pose proof (proj1 (positions_nil _ _) Hlen t Ht) as Hfull.
    by apply Nat.ltb_ge in Hfull.
  - apply M_bind_Ok in Hp as (probs & w2 & Hpr & Hp). apply lift_Ok in Hpr as [_ ->].
    apply M_bind_Ok in Hp as (chosen & w2 & Hch & Hp).
    apply M_bind_Ok in Hp as (team & w3 & Ht & Hp). apply lift_Ok in Ht as [Ht ->].
    apply M_bind_Ok in Hp as (idx & w3 & Hi & Hp). apply lift_Ok in Hi as [Hi ->].
    apply lift_Ok in Hp as [Hp ->].
    assert (Hin : chosen ∈
              positions (fun t => (length t <? V2.team_size (self w))%nat) teams).
    { clear -Hch. unfold random_choices in Hch.
      destruct (negb _); [discriminate |].
      destruct (Qle_bool _ 0); [discriminate |].
      apply M_bind_Ok in Hch as (k & w3 & Hk & Hch).
      apply lift_Ok in Hch as [Hch _]. apply py_getitem_Ok in Hch.
      eapply list_elem_of_lookup_2; eauto. }
    right. apply elem_of_positions in Hin as (t0 & Ht0 & Hlt).
    apply py_getitem_Ok in Ht. rewrite Ht0 in Ht. injection Ht as ->.
    apply py_index_first in Hi as [Hi Hfirst].
    unfold py_update in Hp. apply result_bind_Ok in Hp as (t1 & Ht1 & Hp).
    apply py_getitem_Ok in Ht1. rewrite Hi in Ht1. injection Ht1 as <-.
    simpl in Hp. injection Hp as <-.
    exists chosen, idx, team. split; [done |]. split; [done |].
    split; [| split; [done | split; [by apply Nat.ltb_lt | done]]].
    destruct (decide (idx <= chosen)%nat) as [Hle | Hgt]; [done |].
    exfalso. eapply (Hfirst chosen team); [lia | done | done].
Qed.

Lemma v2_place_empties_last teams student (w : World V2.AntColonyOptimizer G)
    teams' w' :
  V2.place teams student w = Ok (teams', w') ->
  empties_last teams -> empties_last teams'.
Proof.
  intros Hp Hinv.
  apply v2_place_first in Hp
    as [[-> _] | (pos & idx & t & _ & Hidx & _ & Hfirst & _ & ->)]; [done |].
  intros i j t' Hij Hi Hj.
  assert (Hne : i <> idx).
  { intros ->. rewrite list_lookup_insert_eq in Hi by (by eapply lookup_lt_Some).
    injection Hi as Hi. by destruct t. }
  rewrite list_lookup_insert_ne in Hi by done.
  destruct (decide (j = idx)) as [-> | Hj'].
  - exfalso. assert (Ht : t = []) by (by eapply (Hinv i idx)).
    subst t. by eapply (Hfirst i []).
  - rewrite list_lookup_insert_ne in Hj by done. by eapply (Hinv i j).
Qed.

Lemma v2_foldM_place_full l teams (w : World V2.AntColonyOptimizer G) :
  (forall t, t ∈ teams -> (V2.team_size (self w) <= length t)%nat) ->
  foldM V2.place teams l w = Ok (teams, w).
Proof.
  intros Hfull. induction l as [| s l IH]; [done |].
  cbn [foldM]. unfold mbind, M_bind. by rewrite v2_place_full.
Qed.

Lemma v2_foldM_place_members l teams (w : World V2.AntColonyOptimizer G) teams' w' :
  foldM V2.place teams l w = Ok (teams', w') ->
  (empties_last teams -> empties_last teams')
  /\ concat teams' ⊆+ concat teams ++ l
  /\ (concat teams' ≡ₚ concat teams ++ l
      \/ forall t, t ∈ teams' -> (V2.team_size (self w) <= length t)%nat).
Proof.
  revert teams w. induction l as [| s l IH]; intros teams w Hf.
  - apply mret_Ok in Hf as [-> ->]. rewrite app_nil_r.
    split; [done |]. split; [done | by left].
  - pose proof Hf as Hf0. cbn [foldM] in Hf.
    apply M_bind_Ok in Hf as (teams1 & w1 & H1 & Hf).
    pose proof (v2_place_empties_last _ _ _ _ _ H1) as Hinv1.
    pose proof (v2_place_Ok _ _ _ _ _ H1) as [Hm1 _].
    pose proof (materialises_fields _ _ Hm1) as (Hts & _).
    apply IH in Hf as (Hinv & Hsub & Hcase). rewrite Hts in Hcase.
    split; [by intros Hi; apply Hinv, Hinv1 |].
    apply v2_place_first in H1
      as [[-> Hfull] | (pos & idx & t & _ & Hidx & _ & _ & _ & ->)].
    + rewrite v2_foldM_place_full in Hf0 by done. injection Hf0 as <- <-.
      split; [by apply submseteq_inserts_r | by right].
    + rewrite concat_insert_app in Hsub, Hcase by done.
      split.
      * etransitivity; [exact Hsub |]. simpl.
        by rewrite <- Permutation_middle.
      * destruct Hcase as [Hperm | Hfull']; [left | by right].
        rewrite Hperm. simpl. by rewrite <- Permutation_middle.
Qed.

Lemma sum_lengths_concat {A} (teams : list (list A)) :
  length (concat teams) = sum_list (map length teams).
Proof.
  induction teams as [| t teams IH]; [done |].
  cbn [concat map]. rewrite length_app, IH. reflexivity.
Qed.

Lemma concat_replicate_nil {A} (n : nat) : concat (replicate n (@nil A)) = [].
Proof. induction n as [| n IH]; simpl; done. Qed.

Lemma sum_list_const (l : list nat) (c : nat) :
  Forall (fun n => n = c) l -> sum_list l = (length l * c)%nat.
Proof. induction 1 as [| n l -> _ IH]; simpl; [done | by rewrite IH]. Qed.

Lemma sum_list_le_const (l : list nat) (c : nat) :
  Forall (fun n => (n <= c)%nat) l -> (sum_list l <= length l * c)%nat.
Proof. induction 1 as [| n l Hn _ IH]; simpl; [done | lia]. Qed.

Lemma v2_construct_solution_members (w : World V2.AntColonyOptimizer G) teams w' :
  V2.construct_solution w = Ok (teams, w') ->
  empties_last teams
  /\ concat teams ⊆+ V2.students (self w)
  /\ ((exists t, t ∈ teams /\ (length t < V2.team_size (self w))%nat) ->
      concat teams ≡ₚ V2.students (self w))
  /\ length (concat teams)
     = Nat.min (length (V2.students (self w)))
               (V2.num_teams (self w) * V2.team_size (self w)).
Proof.
  intros Hc. pose proof (v2_construct_solution_Ok _ _ _ Hc) as (_ & Hlen & Hcap).
  unfold V2.construct_solution in Hc.
  apply M_bind_Ok in Hc as (me & w1 & Hme & Hc). injection Hme as <- <-.
  apply M_bind_Ok in Hc as (students & w1 & Hsh & Hc).
  unfold random_shuffle, draw in Hsh.
  pose proof (rand_shuffle_perm _ (V2.students (self w)) (gen w)) as Hperm.
  destruct (rand_shuffle (V2.students (self w)) (gen w)) as [l g].
  injection Hsh as <- <-. simpl in Hperm.
  apply v2_foldM_place_members in Hc as (Hinv & Hsub & Hcase). simpl in *.
  rewrite concat_replicate_nil in Hsub, Hcase. simpl in *. rewrite Hperm in Hsub, Hcase.
  assert (Hroom : (exists t, t ∈ teams /\ (length t < V2.team_size (self w))%nat) ->
                  concat teams ≡ₚ V2.students (self w)).
  { intros (t & Ht & Hlt). destruct Hcase as [Hp | Hfull]; [done |].
    specialize (Hfull t Ht). lia. }
  split.
  { apply Hinv. intros i j t _ _ Hj. by apply lookup_replicate in Hj as [-> _]. }
  split; [done |]. split; [done |].
  pose proof (submseteq_length _ _ Hsub) as Hle.
  assert (Hcapsum : (length (concat teams)
                     <= V2.num_teams (self w) * V2.team_size (self w))%nat).
  { rewrite sum_lengths_concat, <- Hlen, <- (length_map length teams).
    apply sum_list_le_const. apply Forall_fmap.
    eapply Forall_impl; [exact Hcap |]. done. }
  destruct Hcase as [Hp | Hfull].
  - rewrite Hp in *. lia.
  - assert (Hfullsum : length (concat teams)
                       = (V2.num_teams (self w) * V2.team_size (self w))%nat).
    { rewrite sum_lengths_concat, <- Hlen, <- (length_map length teams).
      apply sum_list_const. apply Forall_fmap, Forall_forall. intros t Ht.
      simpl. unfold v2_within_capacity in Hcap. rewrite Forall_forall in Hcap.
      specialize (Hcap t Ht). specialize (Hfull t Ht). lia. }
    lia.
Qed.

(** X9.  In [construct_solution] of v2, [teams.index] finds a team by its
    content: the student joins the first team whose content equals that of
    the drawn one, which is the drawn team or one before it.  So a
    construction opens the teams from left to right (no team that is not
    empty follows an empty one), places no student twice, leaves a student
    out only when every team is full, and places as many students as there
    are, up to the total capacity. *)
Theorem v2_construction_places :
  (forall teams student (w : World V2.AntColonyOptimizer G) teams' w',
     V2.place teams student w = Ok (teams', w') ->
     (teams' = teams
      /\ forall t, t ∈ teams -> (V2.team_size (self w) <= length t)%nat)
     \/ exists pos idx t,
          teams !! pos = Some t /\ teams !! idx = Some t /\ (idx <= pos)%nat
          /\ (forall j t', (j < idx)%nat -> teams !! j = Some t' -> t' <> t)
          /\ (length t < V2.team_size (self w))%nat
          /\ teams' = <[idx := t ++ [student]]> teams)
  /\ (forall (w : World V2.AntColonyOptimizer G) teams w',
        V2.construct_solution w = Ok (teams, w') ->
        empties_last teams
        /\ concat teams ⊆+ V2.students (self w)
        /\ ((exists t, t ∈ teams /\ (length t < V2.team_size (self w))%nat) ->
            concat teams ≡ₚ V2.students (self w))
        /\ length (concat teams)
           = Nat.min (length (V2.students (self w)))
                     (V2.num_teams (self w) * V2.team_size (self w))).
Proof. split; [apply v2_place_first | apply v2_construct_solution_members]. Qed.

End V2Placement.

Lemma v2_construction_places_witness :
  exists teams w',
    @V2.construct_solution (list nat) tape_source int_pow small_v2_world
    = Ok (teams, w')
    /\ empties_last teams.
Proof.
  eexists _, _. split; [vm_compute; reflexivity |].
  eapply (proj1 (proj2 (@v2_construction_places (list nat) tape_source int_pow)
                   small_v2_world _ _ _)).
  Unshelve. 2: (vm_compute; reflexivity).
Defined.

(** ** A population that exceeds the capacity, in v1 *)

Section V1Overfull.
Context {G : Type} `{RandomSource G} `{FloatPow}.


Lemma place_no_room teams chosen s (w : World V1.ACO G) :
  (forall t, t ∈ teams -> (V1.capacity t <= V1.len t)%nat) ->
  V1.place (teams, chosen) s w = Raise IndexError.
Proof.
  intros Hfull.
  assert (E : V1.feasible_teams teams s = []).
  { unfold V1.feasible_teams.
    assert (E1 : positions (fun t => V1.can_add t s V1.default_max_same_nat
                                       V1.default_unlimited_nat) teams = []).
    { apply positions_nil. intros t Ht. unfold V1.can_add.
      specialize (Hfull t Ht). unfold V1.len in Hfull.
      by rewrite (proj2 (Nat.leb_le _ _) Hfull). }
    rewrite E1. apply positions_nil. intros t Ht. apply Nat.ltb_ge.
    by apply Hfull. }
  unfold V1.place. rewrite E. done.
Qed.



End V1Overfull.



(** ** What a run of v1 returns *)

(** A candidate of the optimizer: the teams of the template, holding the
    students of the optimizer, together with their fitness. *)
Definition candidate_of (me : V1.ACO) (c : list V1.Team * Q) : Prop :=
  same_frames (fresh_teams me) c.1
  /\ all_members c.1 ≡ₚ V1.aco_students me
  /\ V1.solution_fitness c.1 (V1.n_teams me) = Ok c.2.

(** Two optimizers that differ in the pheromone matrix at most. *)
Definition same_but_tau (me me' : V1.ACO) : Prop :=
  me' = V1.with_tau me (V1.tau me').

Lemma same_but_tau_refl me : same_but_tau me me.
Proof. by destruct me. Qed.

Lemma same_but_tau_trans me1 me2 me3 :
  same_but_tau me1 me2 -> same_but_tau me2 me3 -> same_but_tau me1 me3.
Proof. unfold same_but_tau. intros -> ->. done. Qed.

Lemma candidate_of_same_but_tau me me' c :
  same_but_tau me me' -> candidate_of me c -> candidate_of me' c.
Proof. unfold same_but_tau. intros ->. done. Qed.

Section V1RunResult.
Context {G : Type} `{RandomSource G} `{FloatPow}.

Lemma ants_candidates n (w : World V1.ACO G) sols w' :
  replicateM n V1.construct_solution w = Ok (sols, w') ->
  self w' = self w /\ length sols = n /\ Forall (candidate_of (self w)) sols.
Proof.
  revert w sols w'. induction n as [| n IH]; intros w sols w' Hr; simpl in Hr.
  - apply mret_Ok in Hr as [-> ->]. done.
  - apply M_bind_Ok in Hr as ([teams fit] & w1 & Hc & Hr).
    apply M_bind_Ok in Hr as (sols' & w2 & Hs & Hr).
    apply mret_Ok in Hr as [-> ->].
    apply construct_solution_Ok in Hc as (Hself & Hfr & Hmem & Hfit & _).
    apply IH in Hs as (Hself2 & Hlen & Hall). rewrite Hself in *.
    split; [done |]. split; [simpl; by rewrite Hlen |].
    constructor; [done | done].
Qed.

(** One iteration: the candidates of the ants, the update with them, and
    the better of the best so far and the best of the iteration. *)
Lemma iteration_result best it (w : World V1.ACO G) best' w' :
  V1.iteration best it w = Ok (best', w') ->
  exists sols w1 t b,
    replicateM (V1.n_ants (self w)) V1.construct_solution w = Ok (sols, w1)
    /\ V1.updated_tau (self w) sols = Ok t
    /\ w' = mkWorld (V1.with_tau (self w) t) (gen w1)
    /\ best' = Some b
    /\ (forall x, x ∈ sols -> x.2 <= b.2)
    /\ (forall b0, best = Some b0 -> b = b0 \/ b0.2 < b.2)
    /\ (b ∈ sols \/ best = Some b).
Proof.
  unfold V1.iteration. intros Hi.
  apply M_bind_Ok in Hi as (me & w0 & Hme & Hi). injection Hme as <- <-.
  apply M_bind_Ok in Hi as (sols & w1 & Hants & Hi).
  pose proof (ants_candidates _ _ _ _ Hants) as (Hself & _ & _).
  apply M_bind_Ok in Hi as ([] & w2 & Hup & Hi).
  unfold V1.update_pheromones in Hup.
  apply M_bind_Ok in Hup as (me1 & w3 & Hme1 & Hup). injection Hme1 as <- <-.
  apply M_bind_Ok in Hup as (t & w3 & Ht & Hup). apply lift_Ok in Ht as [Ht ->].
  injection Hup as <-.
  apply M_bind_Ok in Hi as (iter_best & w3 & Hmax & Hi).
  apply lift_Ok in Hmax as [Hmax ->].
  apply max_by_fitness_best in Hmax as [Hin Hmax].
  rewrite Hself in Ht, Hi.
  exists sols, w1, t.
  destruct best as [[bt bf] |].
  - destruct (Qlt_bool bf iter_best.2) eqn:Hlt; apply mret_Ok in Hi as [-> ->].
    + apply Qlt_bool_iff in Hlt. exists iter_best.
      repeat split; try done; [| by left].
      intros b0 [= <-]. by right.
    + apply Qlt_bool_false in Hlt. exists (bt, bf).
      repeat split; try done; [| | by right].
      * intros x Hx. simpl. eapply Qle_trans; [by apply Hmax | done].
      * intros b0 [= <-]. by left.
  - apply mret_Ok in Hi as [-> ->]. exists iter_best.
    repeat split; try done. by left.
Qed.

Lemma iterations_result l best (w : World V1.ACO G) best' w' :
  foldM V1.iteration best l w = Ok (best', w') ->
  same_but_tau (self w) (self w')
  /\ ((forall c, best = Some c -> candidate_of (self w) c) ->
      forall c, best' = Some c -> candidate_of (self w) c)
  /\ (forall b0, best = Some b0 -> exists b, best' = Some b /\ b0.2 <= b.2)
  /\ (l <> [] -> is_Some best').
Proof.
  revert best w. induction l as [| it l IH]; intros best w Hf; simpl in Hf.
  - apply mret_Ok in Hf as [-> ->].
    split; [apply same_but_tau_refl |]. split; [done |].
    split; [| done]. intros b0 ->. exists b0. split; [done | apply Qle_refl].
  - apply M_bind_Ok in Hf as (best1 & w1 & H1 & Hf).
    apply iteration_result in H1
      as (sols & w0 & t & b & Hants & Ht & -> & -> & Hmax & Hmono & Hfrom).
    apply ants_candidates in Hants as (Hself & _ & Hall).
    apply IH in Hf as (Hsame & Hcand & Hmono' & _). simpl in *.
    assert (Hstep : same_but_tau (self w) (V1.with_tau (self w) t)) by done.
    split; [by eapply same_but_tau_trans |]. split; [| split].
    + intros Hbest c Hc. 
      assert (Hb : candidate_of (self w) b).
      { destruct Hfrom as [Hin | Hb]; [| by apply Hbest].
        rewrite Forall_forall in Hall. by apply Hall. }
      specialize (Hcand ltac:(by intros c' [= <-]) c Hc). done.
    + intros b0 Hb0. destruct (Hmono' b eq_refl) as (b' & -> & Hle).
      exists b'. split; [done |].
      destruct (Hmono b0 Hb0) as [-> | Hlt]; [done |].
      eapply Qle_trans; [by apply Qlt_le_weak | done].
    + intros _. destruct (Hmono' b eq_refl) as (b' & -> & _). by eexists.
Qed.

(** X11.  When [ACO.run] returns, it returns [(None, -inf)] exactly when there
    is no iteration, and otherwise a candidate together with the fitness of
    that candidate: the teams of the template holding every student once.
    Of the optimizer it changes the pheromone matrix at most.  After every
    iteration the best so far is the previous best or a candidate of the
    iteration with a strictly higher fitness, and no candidate of the
    iteration has a higher fitness than it. *)
Theorem run_returns_a_candidate :
  (forall (w : World V1.ACO G) best w',
     V1.run w = Ok (best, w') ->
     (best = None <-> V1.n_iter (self w) = 0%nat)
     /\ same_but_tau (self w) (self w')
     /\ forall teams fit, best = Some (teams, fit) ->
          same_frames (fresh_teams (self w)) teams
          /\ all_members teams ≡ₚ V1.aco_students (self w)
          /\ V1.solution_fitness teams (V1.n_teams (self w)) = Ok fit)
  /\ (forall best it (w : World V1.ACO G) best' w',
        V1.iteration best it w = Ok (best', w') ->
        exists sols w1 b,
          replicateM (V1.n_ants (self w)) V1.construct_solution w = Ok (sols, w1)
          /\ best' = Some b
          /\ (forall x, x ∈ sols -> x.2 <= b.2)
          /\ (forall b0, best = Some b0 -> b = b0 \/ b0.2 < b.2)
          /\ (b ∈ sols \/ best = Some b)).
Proof.
  split.
  - intros w best w' Hrun. unfold V1.run in Hrun.
    apply M_bind_Ok in Hrun as (me & w1 & Hme & Hrun). injection Hme as <- <-.
    pose proof (iterations_result _ _ _ _ _ Hrun) as (Hsame & Hcand & _ & Hsome).
    split; [| split; [done |]].
    + split.
      * intros ->. destruct (V1.n_iter (self w)) as [| n]; [done |].
        destruct Hsome as [b Hb]; [done | discriminate].
      * intros Hz. rewrite Hz in Hrun. simpl in Hrun.
        by apply mret_Ok in Hrun as [-> _].
    + intros teams fit ->. by apply (Hcand ltac:(done) (teams, fit)).
  - intros best it w best' w' Hi.
    apply iteration_result in Hi
      as (sols & w1 & t & b & Hants & _ & _ & Hb & Hmax & Hmono & Hfrom).
    exists sols, w1, b. done.
Qed.

End V1RunResult.

(** ** When a run of v1 returns *)



Section V1RunTotal.
Context {G : Type} `{RandomSource G} `{FloatPow}.








End V1RunTotal.



(** ** What a run of v2 returns *)

(** A candidate of the optimizer of v2, with its fitness. *)
Definition v2_candidate_of (me : V2.AntColonyOptimizer)
    (c : list (list V2.Student) * Q) : Prop :=
  length c.1 = V2.num_teams me
  /\ v2_within_capacity (V2.team_size me) c.1
  /\ concat c.1 ⊆+ V2.students me
  /\ empties_last c.1
  /\ V2.evaluate me c.1 = Ok c.2.

(** Two optimizers that differ in the pheromone store at most. *)
Definition same_but_store (me me' : V2.AntColonyOptimizer) : Prop :=
  me' = V2.with_pheromones me (V2.pheromones me').

Lemma same_but_store_refl me : same_but_store me me.
Proof. by destruct me. Qed.

Lemma same_but_store_trans me1 me2 me3 :
  same_but_store me1 me2 -> same_but_store me2 me3 -> same_but_store me1 me3.
Proof. unfold same_but_store. intros -> ->. done. Qed.

Lemma v2_candidate_of_same_but_store me me' c :
  same_but_store me me' -> v2_candidate_of me c -> v2_candidate_of me' c.
Proof. unfold same_but_store. intros ->. done. Qed.

Section V2RunResult.
Context {G : Type} `{RandomSource G} `{FloatPow}.

(** One ant: a candidate with its fitness, and the better of the best so
    far and that candidate. *)
Lemma ant_result best (w : World V2.AntColonyOptimizer G) r best' w' :
  V2.ant best w = Ok ((r, best'), w') ->
  same_but_store (self w) (self w')
  /\ v2_candidate_of (self w) r
  /\ exists b, best' = Some b /\ r.2 <= b.2
               /\ (forall b0, best = Some b0 -> b = b0 \/ b0.2 < b.2)
               /\ (b = r \/ best = Some b).
Proof.
  unfold V2.ant. intros Ha.
  apply M_bind_Ok in Ha as (me & w0 & Hme & Ha). injection Hme as <- <-.
  apply M_bind_Ok in Ha as (solution & w1 & Hc & Ha).
  apply M_bind_Ok in Ha as (fitness & w2 & Hfit & Ha).
  apply lift_Ok in Hfit as [Hfit ->]. apply mret_Ok in Ha as [[= -> ->] ->].
  pose proof (v2_construct_solution_Ok _ _ _ Hc) as ((Hsame & _) & Hlen & Hcap).
  pose proof (v2_construct_solution_members _ _ _ Hc) as (Hlast & Hsub & _).
  split; [done |]. split; [done |].
  destruct best as [[bs bf] |].
  - destruct (Qlt_bool bf fitness) eqn:Hlt.
    + apply Qlt_bool_iff in Hlt. eexists. split; [done |]. simpl.
      split; [apply Qle_refl |]. split; [| by left].
      intros b0 [= <-]. by right.
    + apply Qlt_bool_false in Hlt. eexists. split; [done |]. simpl.
      split; [done |]. split; [| by right]. intros b0 [= <-]. by left.
  - eexists. split; [done |]. simpl. split; [apply Qle_refl |].
    split; [done | by left].
Qed.

Lemma ants_result n all best (w : World V2.AntColonyOptimizer G) all' best' w' :
  V2.ants n all best w = Ok ((all', best'), w') ->
  same_but_store (self w) (self w')
  /\ ((forall c, best = Some c -> v2_candidate_of (self w) c) ->
      forall c, best' = Some c -> v2_candidate_of (self w) c)
  /\ (Forall (v2_candidate_of (self w)) all ->
      Forall (v2_candidate_of (self w)) all')
  /\ length all' = (length all + n)%nat
  /\ (forall b0, best = Some b0 -> exists b, best' = Some b /\ b0.2 <= b.2)
  /\ ((0 < n)%nat -> is_Some best')
  /\ (n = 0%nat -> best' = best).
Proof.
  revert all best w. induction n as [| n IH]; intros all best w Ha; simpl in Ha.
  - apply mret_Ok in Ha as [[= <- <-] ->].
    split; [apply same_but_store_refl |]. split; [done |]. split; [done |].
    split; [lia |]. split; [| split; [lia | done]].
    intros b0 ->. exists b0. split; [done | apply Qle_refl].
  - apply M_bind_Ok in Ha as ([r best1] & w1 & H1 & Ha).
    apply ant_result in H1 as (Hs1 & Hr & b & -> & Hrb & Hmono & Hfrom).
    apply IH in Ha as (Hs2 & Hbest & Hall & Hlen & Hmono' & _ & _). simpl in *.
    split; [by eapply same_but_store_trans |].
    assert (Hback : forall c, v2_candidate_of (self w1) c -> v2_candidate_of (self w) c).
    { intros c. unfold same_but_store in Hs1. rewrite Hs1. done. }
    split; [| split; [| split; [| split; [| split; [| lia]]]]].
    + intros Hb c Hc. apply Hback. apply Hbest; [| done].
      intros c' [= <-]. apply (v2_candidate_of_same_but_store _ _ _ Hs1).
      destruct Hfrom as [-> | Hfrom]; [done | by apply Hb].
    + intros Ha0. eapply Forall_impl; [apply Hall | exact Hback].
      apply Forall_app. split.
      * eapply Forall_impl; [exact Ha0 |].
        intros c. apply (v2_candidate_of_same_but_store _ _ _ Hs1).
      * constructor; [| constructor].
        by apply (v2_candidate_of_same_but_store _ _ _ Hs1).
    + rewrite Hlen, length_app. simpl. lia.
    + intros b0 Hb0. destruct (Hmono' b eq_refl) as (b' & -> & Hle).
      exists b'. split; [done |].
      destruct (Hmono b0 Hb0) as [-> | Hlt]; [done |].
      eapply Qle_trans; [by apply Qlt_le_weak | done].
    + intros _. destruct (Hmono' b eq_refl) as (b' & -> & _). by eexists.
Qed.

Lemma v2_iteration_result best it (w : World V2.AntColonyOptimizer G) best' w' :
  V2.iteration best it w = Ok (best', w') ->
  same_but_store (self w) (self w')
  /\ ((forall c, best = Some c -> v2_candidate_of (self w) c) ->
      forall c, best' = Some c -> v2_candidate_of (self w) c)
  /\ (forall b0, best = Some b0 -> exists b, best' = Some b /\ b0.2 <= b.2)
  /\ ((0 < V2.num_ants (self w))%nat -> is_Some best')
  /\ (V2.num_ants (self w) = 0%nat -> best' = best).
Proof.
  unfold V2.iteration. intros Hi.
  apply M_bind_Ok in Hi as (me & w0 & Hme & Hi). injection Hme as <- <-.
  apply M_bind_Ok in Hi as ([all b1] & w1 & Hants & Hi).
  apply M_bind_Ok in Hi as ([] & w2 & Hev & Hi).
  apply M_bind_Ok in Hi as ([] & w3 & Hup & Hi).
  apply mret_Ok in Hi as [-> ->]. injection Hev as <-. injection Hup as <-.
  apply ants_result in Hants as (Hs & Hbest & _ & _ & Hmono & Hsome & Hnone).
  simpl. split; [| done].
  unfold same_but_store in *. simpl. rewrite Hs. done.
Qed.

Lemma v2_iterations_result l best (w : World V2.AntColonyOptimizer G) best' w' :
  foldM V2.iteration best l w = Ok (best', w') ->
  same_but_store (self w) (self w')
  /\ ((forall c, best = Some c -> v2_candidate_of (self w) c) ->
      forall c, best' = Some c -> v2_candidate_of (self w) c)
  /\ (forall b0, best = Some b0 -> exists b, best' = Some b /\ b0.2 <= b.2)
  /\ (l <> [] -> (0 < V2.num_ants (self w))%nat -> is_Some best')
  /\ (V2.num_ants (self w) = 0%nat -> best' = best).
Proof.
  revert best w. induction l as [| it l IH]; intros best w Hf; simpl in Hf.
  - apply mret_Ok in Hf as [-> ->].
    split; [apply same_but_store_refl |]. split; [done |].
    split; [| done]. intros b0 ->. exists b0. split; [done | apply Qle_refl].
  - apply M_bind_Ok in Hf as (best1 & w1 & H1 & Hf).
    apply v2_iteration_result in H1 as (Hs1 & Hb1 & Hm1 & Hsome1 & Hnone1).
    apply IH in Hf as (Hs2 & Hb2 & Hm2 & _ & Hnone2).
    assert (Hants : V2.num_ants (self w1) = V2.num_ants (self w)).
    { unfold same_but_store in Hs1. by rewrite Hs1. }
    assert (Hback : forall c, v2_candidate_of (self w1) c -> v2_candidate_of (self w) c).
    { intros c. unfold same_but_store in Hs1. rewrite Hs1. done. }
    split; [by eapply same_but_store_trans |].
    split; [| split; [| split]].
    + intros Hb c Hc. apply Hback. apply Hb2; [| done].
      intros c' Hc'. apply (v2_candidate_of_same_but_store _ _ _ Hs1).
      by apply Hb1.
    + intros b0 Hb0. destruct (Hm1 b0 Hb0) as (b1 & -> & Hle1).
      destruct (Hm2 b1 eq_refl) as (b2 & -> & Hle2).
      exists b2. split; [done |]. by eapply Qle_trans.
    + intros _ Hn. destruct (Hsome1 Hn) as [b1 ->].
      destruct (Hm2 b1 eq_refl) as (b2 & -> & _). by eexists.
    + intros Hn. rewrite Hants in Hnone2. rewrite Hnone2, Hnone1; done.
Qed.

(** X13.  When [AntColonyOptimizer.run] returns, it returns [(None, -inf)]
    exactly when there is no iteration or no ant, and otherwise a candidate
    it constructed together with the value [evaluate] gives for it:
    [num_teams] teams of at most [team_size] students, no student twice.
    Of the optimizer it changes the pheromone store at most.  After every
    ant the best so far is the previous best or the candidate of the ant
    with a strictly higher fitness, and is not below that candidate. *)
Theorem v2_run_returns_a_candidate :
  (forall (w : World V2.AntColonyOptimizer G) best w',
     V2.run w = Ok (best, w') ->
     (best = None
      <-> V2.max_iter (self w) = 0%nat \/ V2.num_ants (self w) = 0%nat)
     /\ same_but_store (self w) (self w')
     /\ forall teams fit, best = Some (teams, fit) ->
          length teams = V2.num_teams (self w)
          /\ Forall (fun t => (length t <= V2.team_size (self w))%nat) teams
          /\ concat teams ⊆+ V2.students (self w)
          /\ V2.evaluate (self w) teams = Ok fit)
  /\ (forall best (w : World V2.AntColonyOptimizer G) r best' w',
        V2.ant best w = Ok ((r, best'), w') ->
        V2.evaluate (self w) r.1 = Ok r.2
        /\ exists b, best' = Some b /\ r.2 <= b.2
                     /\ (forall b0, best = Some b0 -> b = b0 \/ b0.2 < b.2)
                     /\ (b = r \/ best = Some b)).
Proof.
  split.
  - intros w best w' Hrun. unfold V2.run in Hrun.
    apply M_bind_Ok in Hrun as (me & w1 & Hme & Hrun). injection Hme as <- <-.
    pose proof (v2_iterations_result _ _ _ _ _ Hrun)
      as (Hsame & Hcand & _ & Hsome & Hnone).
    split; [| split; [done |]].
    + split.
      * intros ->.
        destruct (V2.max_iter (self w)) as [| n] eqn:Hn; [by left |]. right.
        destruct (V2.num_ants (self w)) as [| m] eqn:Hm; [done |].
        destruct Hsome as [b Hb]; [done | lia | discriminate].
      * intros [Hz | Hz]; [| by apply Hnone].
        rewrite Hz in Hrun. simpl in Hrun. by apply mret_Ok in Hrun as [-> _].
    + intros teams fit ->.
      destruct (Hcand ltac:(done) (teams, fit) eq_refl) as (? & ? & ? & _ & ?).
      done.
  - intros best w r best' w' Ha. apply ant_result in Ha as (_ & Hr & Hb).
    split; [| done]. by destruct Hr as (_ & _ & _ & _ & Hr).
Qed.

End V2RunResult.

(** ** The calls of [random], for any object *)

Section RandomCallLemmas.
Context {Self G : Type} `{RandomSource G}.

Lemma draw_inv {A} (f : G -> A * G) (w : World Self G) a w' :
  draw f w = Ok (a, w') -> a = (f (gen w)).1 /\ w' = mkWorld (self w) (f (gen w)).2.
Proof.
  unfold draw. destruct (f (gen w)) as [a0 g]. intros [= <- <-]. done.
Qed.

Lemma random_choice_inv {A} (l : list A) (w : World Self G) x w' :
  random_choice l w = Ok (x, w') -> self w' = self w /\ x ∈ l.
Proof.
  unfold random_choice. destruct l as [| a l]; [discriminate |].
  intros Hc. apply M_bind_Ok in Hc as (k & w1 & Hk & Hc).
  apply draw_inv in Hk as [-> ->]. apply lift_Ok in Hc as [Hx ->].
  apply py_getitem_Ok in Hx. split; [done |]. by eapply list_elem_of_lookup_2.
Qed.

Lemma random_choice_returns {A} (l : list A) (w : World Self G) :
  l <> [] -> exists x w', random_choice l w = Ok (x, w').
Proof.
  intros Hne. unfold random_choice. destruct l as [| a l]; [done |].
  unfold mbind, M_bind, draw.
  pose proof (rand_below_lt (length (a :: l)) (gen w) ltac:(simpl; lia)) as Hlt.
  destruct (rand_below (length (a :: l)) (gen w)) as [k g]. simpl in Hlt.
  destruct (lookup_lt_is_Some_2 (a :: l) k Hlt) as [x Hx].
  unfold lift, py_getitem. rewrite Hx. eauto.
Qed.

Lemma random_choice_empty {A} (w : World Self G) :
  random_choice (@nil A) w = Raise IndexError.
Proof. done. Qed.

End RandomCallLemmas.

Lemma M_bind_returns {S A B} (m : M S A) (f : A -> M S B) s a s' :
  m s = Ok (a, s') -> (m ≫= f) s = f a s'.
Proof. unfold mbind, M_bind. by intros ->. Qed.

Lemma M_bind_raises {S A B} (m : M S A) (f : A -> M S B) s e :
  m s = Raise e -> (m ≫= f) s = Raise e.
Proof. unfold mbind, M_bind. by intros ->. Qed.

Lemma draw_returns {Self G A} `{RandomSource G} (f : G -> A * G) (w : World Self G) :
  draw f w = Ok ((f (gen w)).1, mkWorld (self w) (f (gen w)).2).
Proof. unfold draw. by destruct (f (gen w)). Qed.

(** ** [generate_sample_data] *)

Lemma py_or_nonempty {A} (x : option (list A)) (d : list A) :
  d <> [] -> py_or x d <> [].
Proof. intros Hd. by destruct x as [[| y l] |]. Qed.

(** A preference list [generate_sample_data] can build for [n] projects: a
    permutation of the projects, or such a permutation with one of its
    entries put in front once more. *)
Definition sample_prefs (n : nat) (prefs : list nat) : Prop :=
  prefs ≡ₚ seq 0 n
  \/ exists p l, prefs = p :: l /\ p ∈ l /\ l ≡ₚ seq 0 n.



Section SampleDataLemmas.
Context {G : Type} `{RandomSource G}.

Lemma sample_student_Ok n_projects roles nats noise students sid
    (w : World unit G) students' w' :
  V1.sample_student n_projects roles nats noise students sid w = Ok (students', w') ->
  exists s, students' = students ++ [s] /\ V1.sid s = sid
            /\ sample_prefs n_projects (V1.prefs s)
            /\ V1.belbin s ∈ roles /\ V1.nationality s ∈ nats.
Proof.
  unfold V1.sample_student. intros Hs.
  apply M_bind_Ok in Hs as (prefs & w1 & Hsh & Hs).
  apply draw_inv in Hsh as [-> ->].
  pose proof (rand_shuffle_perm _ (seq 0 n_projects) (gen w)) as Hperm.
  apply M_bind_Ok in Hs as (u & w2 & Hu & Hs).
  apply M_bind_Ok in Hs as (prefs' & w3 & Hp & Hs).
  apply M_bind_Ok in Hs as (b & w4 & Hb & Hs).
  apply M_bind_Ok in Hs as (nat & w5 & Hn & Hs).
  apply mret_Ok in Hs as [-> ->].
  apply random_choice_inv in Hb as [_ Hb]. apply random_choice_inv in Hn as [_ Hn].
  eexists. split; [done |]. simpl. split; [done |]. split; [| done].
  destruct (Qlt_bool u noise).
  - apply M_bind_Ok in Hp as (p & w6 & Hp & Hp').
    apply mret_Ok in Hp' as [-> _]. apply random_choice_inv in Hp as [_ Hp].
    right. eauto.
  - apply mret_Ok in Hp as [-> _]. by left.
Qed.

Lemma sample_student_total n_projects roles nats noise students sid
    (w : World unit G) :
  roles <> [] -> nats <> [] -> (0 < n_projects)%nat \/ noise <= 0 ->
  exists students' w',
    V1.sample_student n_projects roles nats noise students sid w = Ok (students', w').
Proof.
  intros Hr Hn Hcase. unfold V1.sample_student.
  pose proof (rand_shuffle_perm _ (seq 0 n_projects) (gen w)) as Hperm.
  erewrite M_bind_returns; [| apply draw_returns].
  set (prefs := (rand_shuffle (seq 0 n_projects) (gen w)).1) in *.
  set (w1 := mkWorld (self w) (rand_shuffle (seq 0 n_projects) (gen w)).2).
  pose proof (rand_random_range (gen w1)) as [Hu0 _].
  erewrite M_bind_returns; [| apply draw_returns].
  set (u := (rand_random (gen w1)).1) in *.
  set (w2 := mkWorld (self w1) (rand_random (gen w1)).2).
  assert (Hprefs : exists prefs' w3,
    (if Qlt_bool u noise
     then p ← random_choice prefs; mret (p :: prefs)
     else mret prefs) w2 = Ok (prefs', w3)).
  { destruct (Qlt_bool u noise) eqn:Hlt; [| by eexists _, _].
    apply Qlt_bool_iff in Hlt.
    destruct Hcase as [Hnp | Hnoise]; [| lra].
    destruct (random_choice_returns prefs w2) as (p & w3 & Hp).
    { intros E. rewrite E in Hperm. apply Permutation_length in Hperm.
      rewrite length_seq in Hperm. simpl in Hperm. lia. }
    erewrite M_bind_returns; [| exact Hp]. by eexists _, _. }
  destruct Hprefs as (prefs' & w3 & Hp).
  erewrite M_bind_returns; [| exact Hp].
  destruct (random_choice_returns roles w3 Hr) as (b & w4 & Hb).
  erewrite M_bind_returns; [| exact Hb].
  destruct (random_choice_returns nats w4 Hn) as (n & w5 & Hc).
  erewrite M_bind_returns; [| exact Hc].
  by eexists _, _.
Qed.

Lemma sample_loop_Ok n_projects roles nats noise sids students
    (w : World unit G) students' w' :
  foldM (V1.sample_student n_projects roles nats noise) students sids w
  = Ok (students', w') ->
  exists new, students' = students ++ new
    /\ map V1.sid new = sids
    /\ Forall (fun s => sample_prefs n_projects (V1.prefs s)
                        /\ V1.belbin s ∈ roles /\ V1.nationality s ∈ nats) new.
Proof.
  revert students w. induction sids as [| sid sids IH]; intros students w Hf;
    simpl in Hf.
  - apply mret_Ok in Hf as [-> ->]. exists []. by rewrite app_nil_r.
  - apply M_bind_Ok in Hf as (students1 & w1 & H1 & Hf).
    apply sample_student_Ok in H1 as (s & -> & Hsid & Hs).
    apply IH in Hf as (new & -> & Hsids & Hall).
    exists (s :: new). rewrite <- (assoc_L (++)). split; [done |].
    split; [simpl; by rewrite Hsid, Hsids | by constructor].
Qed.

Lemma sample_loop_total n_projects roles nats noise sids students
    (w : World unit G) :
  roles <> [] -> nats <> [] -> (0 < n_projects)%nat \/ noise <= 0 ->
  exists students' w',
    foldM (V1.sample_student n_projects roles nats noise) students sids w
    = Ok (students', w').
Proof.
  intros Hr Hn Hcase. revert students w.
  induction sids as [| sid sids IH]; intros students w; [by eexists _, _ |].
  destruct (sample_student_total n_projects roles nats noise students sid w Hr Hn Hcase)
    as (students1 & w1 & H1).
  cbn [foldM]. unfold mbind, M_bind. rewrite H1. apply IH.
Qed.

Lemma default_lists_nonempty :
  V1.default_belbin_roles <> [] /\ V1.default_nationalities <> [].
Proof. done. Qed.

Lemma generate_sample_data_Ok n_students n_projects roles nats noise seed
    (w : World unit G) students w' :
  V1.generate_sample_data n_students n_projects roles nats noise seed w
  = Ok (students, w') ->
  length students = n_students
  /\ (forall i s, students !! i = Some s ->
        V1.sid s = i
        /\ sample_prefs n_projects (V1.prefs s)
        /\ V1.belbin s ∈ py_or roles V1.default_belbin_roles
        /\ V1.nationality s ∈ py_or nats V1.default_nationalities).
Proof.
  unfold V1.generate_sample_data. intros Hg.
  apply M_bind_Ok in Hg as ([] & w1 & _ & Hg).
  apply sample_loop_Ok in Hg as (new & -> & Hsids & Hall). simpl.
  split; [by rewrite <- (length_map V1.sid), Hsids, length_seq |].
  intros i s Hi. rewrite Forall_forall in Hall.
  split; [| by apply Hall; eapply list_elem_of_lookup_2].
  assert (Hsid : map V1.sid new !! i = Some (V1.sid s))
    by (by rewrite list_lookup_fmap, Hi).
  rewrite Hsids in Hsid. by apply lookup_seq in Hsid as [-> _].
Qed.

Lemma generate_sample_data_total n_students n_projects roles nats noise seed
    (w : World unit G) :
  (0 < n_projects)%nat \/ noise <= 0 ->
  exists students w',
    V1.generate_sample_data n_students n_projects roles nats noise seed w
    = Ok (students, w').
Proof.
  intros Hcase. unfold V1.generate_sample_data, mbind, M_bind, random_seed, modify.
  apply sample_loop_total; [| | done];
    apply py_or_nonempty, default_lists_nonempty.
Qed.

(** X15.  [generate_sample_data] returns [n_students] students whose ids are
    their positions, each with a preference list that is a permutation of
    the projects, possibly with one project put in front a second time, a
    role of the list of roles and a nationality of the list of
    nationalities (the given list or, when it is missing or empty, the
    default one).  It returns whenever there is a project or the noise
    is not positive. *)
Theorem generated_students (n_students n_projects : nat)
    (roles nats : option (list string)) (noise : Q) (seed : Z) (w : World unit G) :
  (forall students w',
     V1.generate_sample_data n_students n_projects roles nats noise seed w
     = Ok (students, w') ->
     length students = n_students
     /\ (forall i s, students !! i = Some s ->
           V1.sid s = i
           /\ sample_prefs n_projects (V1.prefs s)
           /\ V1.belbin s ∈ py_or roles V1.default_belbin_roles
           /\ V1.nationality s ∈ py_or nats V1.default_nationalities))
  /\ ((0 < n_projects)%nat \/ noise <= 0 ->
      exists students w',
        V1.generate_sample_data n_students n_projects roles nats noise seed w
        = Ok (students, w')).
Proof.
  split; [apply generate_sample_data_Ok | apply generate_sample_data_total].
Qed.

(** X16.  With no project and at least one student, [generate_sample_data]
    raises [IndexError] when the draw of the first student falls below the
    noise: [random.choice] is called on the empty preference list. *)
Theorem generate_sample_data_no_project (n_students : nat)
    (roles nats : option (list string)) (noise : Q) (seed : Z) (w : World unit G) :
  (0 < n_students)%nat ->
  (rand_random (rand_shuffle (@nil nat) (rand_seed seed)).2).1 < noise ->
  V1.generate_sample_data n_students 0 roles nats noise seed w = Raise IndexError.
Proof.
  intros Hn Hlt. destruct n_students as [| n]; [lia |].
  pose proof (rand_shuffle_perm _ (@nil nat) (rand_seed seed)) as Hperm.
  apply Permutation_nil_r in Hperm.
  unfold V1.generate_sample_data.
  erewrite M_bind_returns; [| reflexivity].
  cbn [seq foldM]. apply M_bind_raises. unfold V1.sample_student.
  erewrite M_bind_returns; [| apply draw_returns].
  erewrite M_bind_returns; [| apply draw_returns].
  apply M_bind_raises. simpl.
  apply Qlt_bool_iff in Hlt. rewrite Hlt, Hperm. done.
Qed.

End SampleDataLemmas.

(** ** The generated students and the optimizer *)

Section SampleDataRun.
Context {G : Type} `{RandomSource G} `{FloatPow}.




End SampleDataRun.


Lemma generate_sample_data_no_project_witness :
  @V1.generate_sample_data (list nat) tape_source 1 0 None None (1 # 5) 1
     (mkWorld tt [])
  = Raise IndexError.
Proof.
  apply (@generate_sample_data_no_project (list nat) tape_source 1 None None
           (1 # 5) 1 (mkWorld tt [])); [lia | reflexivity].
Defined.


(** ** [random_assignment] of [v1/benchmark.py] *)

Lemma feasible_teams_nil teams s :
  V1.feasible_teams teams s = [] <->
  forall t, t ∈ teams -> (V1.capacity t <= V1.len t)%nat.
Proof.
  split.
  - intros E t Ht.
    destruct (decide (V1.len t < V1.capacity t)%nat) as [Hlt | Hge]; [| lia].
    exfalso. by eapply (feasible_teams_nonempty teams s); [exists t |].
  - intros Hfull. unfold V1.feasible_teams.
    assert (E1 : positions (fun t => V1.can_add t s V1.default_max_same_nat
                                       V1.default_unlimited_nat) teams = []).
    { apply positions_nil. intros t Ht. unfold V1.can_add.
      specialize (Hfull t Ht). unfold V1.len in Hfull.
      by rewrite (proj2 (Nat.leb_le _ _) Hfull). }
    rewrite E1. apply positions_nil. intros t Ht. apply Nat.ltb_ge.
    by apply Hfull.
Qed.

Lemma length_all_members teams :
  length (all_members teams) = sum_list (map V1.len teams).
Proof.
  unfold all_members. induction teams as [| t teams IH]; [done |].
  csimpl. rewrite length_app, IH. reflexivity.
Qed.

(** The teams [ACO.__init__] and [random_assignment] start from. *)
Definition empty_teams (n_projects teams_per_project team_size : nat)
  : list V1.Team :=
  map (fun j => V1.new_Team j (j / teams_per_project)%nat team_size)
      (seq 0 (n_projects * teams_per_project)).

Section V1RandomAssignment.
Context {G : Type} `{RandomSource G}.

Lemma assign_Ok teams s (w : World unit G) teams' w' :
  V1Benchmark.assign teams s w = Ok (teams', w') ->
  (teams' = teams /\ w' = w
   /\ forall t, t ∈ teams -> (V1.capacity t <= V1.len t)%nat)
  \/ exists pos t,
       teams !! pos = Some t /\ (V1.len t < V1.capacity t)%nat
       /\ teams' = <[pos := V1.add t s]> teams
       /\ (V1.can_add t s V1.default_max_same_nat V1.default_unlimited_nat = true
           \/ forall t', t' ∈ teams ->
                V1.can_add t' s V1.default_max_same_nat V1.default_unlimited_nat
                = false).
Proof.
  unfold V1Benchmark.assign. intros Ha.
  destruct (V1.feasible_teams teams s) as [| a l] eqn:E.
  - apply mret_Ok in Ha as [-> ->]. left. split; [done |]. split; [done |].
    by apply (feasible_teams_nil teams s).
  - rewrite <- E in Ha. apply M_bind_Ok in Ha as (pos & w1 & Hc & Ha).
    apply random_choice_inv in Hc as [_ Hin]. apply lift_Ok in Ha as [Ha _].
    apply feasible_teams_spec in Hin as (t & Ht & Hlt & Hcase).
    unfold py_update, py_getitem in Ha. rewrite Ht in Ha. simpl in Ha.
    injection Ha as <-. right. eauto 10.
Qed.

Lemma assign_total teams s (w : World unit G) :
  exists teams' w', V1Benchmark.assign teams s w = Ok (teams', w').
Proof.
  unfold V1Benchmark.assign.
  destruct (V1.feasible_teams teams s) as [| a l] eqn:E; [by eexists _, _ |].
  rewrite <- E.
  destruct (random_choice_returns (V1.feasible_teams teams s) w) as (pos & w1 & Hc);
    [by rewrite E |].
  erewrite M_bind_returns; [| exact Hc].
  apply random_choice_inv in Hc as [_ Hin].
  apply feasible_teams_spec in Hin as (t & Ht & _).
  unfold lift, py_update, py_getitem. rewrite Ht. simpl. by eexists _, _.
Qed.

Lemma foldM_assign_full l teams (w : World unit G) :
  (forall t, t ∈ teams -> (V1.capacity t <= V1.len t)%nat) ->
  foldM V1Benchmark.assign teams l w = Ok (teams, w).
Proof.
  intros Hfull. induction l as [| s l IH]; [done |].
  cbn [foldM]. erewrite M_bind_returns; [exact IH |].
  unfold V1Benchmark.assign.
  by rewrite (proj2 (feasible_teams_nil teams s) Hfull).
Qed.

Lemma foldM_assign_Ok l teams (w : World unit G) teams' w' :
  foldM V1Benchmark.assign teams l w = Ok (teams', w') ->
  same_frames teams teams'
  /\ (within_capacity teams -> within_capacity teams')
  /\ all_members teams' ⊆+ all_members teams ++ l
  /\ (all_members teams' ≡ₚ all_members teams ++ l
      \/ forall t, t ∈ teams' -> (V1.capacity t <= V1.len t)%nat).
Proof.
  revert teams w. induction l as [| s l IH]; intros teams w Hf.
  - apply mret_Ok in Hf as [-> ->]. rewrite app_nil_r.
    split; [apply same_frames_refl |]. split; [done |].
    split; [done | by left].
  - pose proof Hf as Hf0. cbn [foldM] in Hf.
    apply M_bind_Ok in Hf as (teams1 & w1 & H1 & Hf).
    apply IH in Hf as (Hfr & Hcap & Hsub & Hcase).
    apply assign_Ok in H1
      as [(-> & -> & Hfull) | (pos & t & Ht & Hlt & -> & Hadd)].
    + rewrite foldM_assign_full in Hf0 by done. injection Hf0 as <- <-.
      split; [apply same_frames_refl |]. split; [done |].
      split; [by apply submseteq_inserts_r | by right].
    + split; [eapply same_frames_trans; [by apply same_frames_insert | done] |].
      split; [intros Hc; by apply Hcap, within_capacity_insert |].
      rewrite all_members_insert in Hsub, Hcase by done.
      split.
      * etransitivity; [exact Hsub |]. simpl. by rewrite <- Permutation_middle.
      * destruct Hcase as [Hperm | Hfull']; [left | by right].
        rewrite Hperm. simpl. by rewrite <- Permutation_middle.
Qed.

Lemma foldM_assign_total l teams (w : World unit G) :
  exists teams' w', foldM V1Benchmark.assign teams l w = Ok (teams', w').
Proof.
  revert teams w. induction l as [| s l IH]; intros teams w; [by eexists _, _ |].
  destruct (assign_total teams s w) as (teams1 & w1 & H1).
  cbn [foldM]. erewrite M_bind_returns; [| exact H1]. apply IH.
Qed.

Lemma empty_teams_facts np tpp ts :
  length (empty_teams np tpp ts) = (np * tpp)%nat
  /\ within_capacity (empty_teams np tpp ts)
  /\ all_members (empty_teams np tpp ts) = []
  /\ Forall (fun t => V1.capacity t = ts /\ (V1.project t < np)%nat)
            (empty_teams np tpp ts).
Proof.
  unfold empty_teams. split; [by rewrite length_map, length_seq |].
  split; [apply Forall_fmap, Forall_true; intros j; unfold V1.len; simpl; lia |].
  split.
  - unfold all_members. induction (seq 0 (np * tpp)); csimpl; done.
  - apply Forall_fmap, Forall_forall. intros j Hj. apply elem_of_seq in Hj.
    simpl. split; [done |]. apply Nat.Div0.div_lt_upper_bound. lia.
Qed.

(** X19.  [random_assignment] of [v1/benchmark.py] never raises in its loop: a
    step adds the student to a team that passes [can_add] or, when no team
    passes, to a team with a free place, and leaves the student out when
    no team has one.  It returns the teams of the template, none above its
    capacity, holding no student twice; a student is left out only when
    every team is full, so as many students are placed as there are, up to
    the total capacity.  It returns whenever there is a team and the
    satisfaction of every student with every project is defined; with no
    team it raises [ZeroDivisionError]. *)
Theorem random_assignment_spec (students : list V1.Student) (np tpp ts : nat)
    (w : World unit G) :
  (forall teams fit w',
     V1Benchmark.random_assignment students np tpp ts w = Ok ((teams, fit), w') ->
     same_frames (empty_teams np tpp ts) teams
     /\ Forall (fun t => (V1.len t <= ts)%nat) teams
     /\ all_members teams ⊆+ students
     /\ ((exists t, t ∈ teams /\ (V1.len t < ts)%nat) ->
         all_members teams ≡ₚ students)
     /\ length (all_members teams) = Nat.min (length students) (np * tpp * ts)
     /\ V1.solution_fitness teams (np * tpp) = Ok fit)
  /\ ((np * tpp)%nat <> 0%nat ->
      (forall s p, s ∈ students -> (p < np)%nat -> is_Ok (V1.satisfaction s p)) ->
      exists r w', V1Benchmark.random_assignment students np tpp ts w = Ok (r, w'))
  /\ ((np * tpp)%nat = 0%nat ->
      V1Benchmark.random_assignment students np tpp ts w = Raise ZeroDivisionError)
  /\ (forall teams s (w0 : World unit G),
        exists teams' w', V1Benchmark.assign teams s w0 = Ok (teams', w')
        /\ ((teams' = teams
             /\ forall t, t ∈ teams -> (V1.capacity t <= V1.len t)%nat)
            \/ exists pos t,
                 teams !! pos = Some t /\ (V1.len t < V1.capacity t)%nat
                 /\ teams' = <[pos := V1.add t s]> teams
                 /\ (V1.can_add t s V1.default_max_same_nat
                                V1.default_unlimited_nat = true
                     \/ forall t', t' ∈ teams ->
                          V1.can_add t' s V1.default_max_same_nat
                                     V1.default_unlimited_nat = false))).
Proof.
  pose proof (empty_teams_facts np tpp ts) as (Hlen0 & Hcap0 & Hmem0 & Hall0).
  pose proof (rand_shuffle_perm _ students (gen w)) as Hperm.
  split; [| split; [| split]].
  - intros teams fit w' Hr. unfold V1Benchmark.random_assignment in Hr.
    fold (empty_teams np tpp ts) in Hr.
    apply M_bind_Ok in Hr as (l & w1 & Hsh & Hr).
    apply draw_inv in Hsh as [-> ->].
    apply M_bind_Ok in Hr as (teams1 & w2 & Hf & Hr).
    apply M_bind_Ok in Hr as (fit1 & w3 & Hfit & Hr).
    apply lift_Ok in Hfit as [Hfit ->]. apply mret_Ok in Hr as [[= -> ->] ->].
    apply foldM_assign_Ok in Hf as (Hfr & Hcap & Hsub & Hcase).
    rewrite Hmem0 in Hsub, Hcase. simpl in Hsub, Hcase.
    rewrite Hperm in Hsub, Hcase. specialize (Hcap Hcap0).
    assert (Hts : Forall (fun t => V1.capacity t = ts) teams1).
    { eapply same_frames_capacity; [exact Hfr |].
      eapply Forall_impl; [exact Hall0 |]. by intros t [? _]. }
    assert (Hl : length teams1 = (np * tpp)%nat)
      by (by rewrite <- (Forall2_length _ _ _ Hfr)).
    assert (Hle : Forall (fun t => (V1.len t <= ts)%nat) teams1).
    { unfold within_capacity in Hcap. rewrite Forall_forall in Hcap, Hts.
      apply Forall_forall. intros t Ht. rewrite <- (Hts t Ht). by apply Hcap. }
    split; [done |]. split; [done |]. split; [done |]. split.
    { intros (t & Ht & Hlt). destruct Hcase as [Hp | Hfull]; [done |].
      specialize (Hfull t Ht). rewrite Forall_forall in Hts.
      rewrite (Hts t Ht) in Hfull. lia. }
    split; [| by rewrite Hl in Hfit].
    pose proof (submseteq_length _ _ Hsub) as Hn.
    assert (Hsum : (length (all_members teams1) <= np * tpp * ts)%nat).
    { rewrite length_all_members, <- Hl, <- (length_map V1.len teams1).
      apply sum_list_le_const. by apply Forall_fmap. }
    destruct Hcase as [Hp | Hfull].
    + rewrite Hp in *. lia.
    + assert (Hfullsum : length (all_members teams1) = (np * tpp * ts)%nat).
      { rewrite length_all_members, <- Hl, <- (length_map V1.len teams1).
        apply sum_list_const. apply Forall_fmap, Forall_forall. intros t Ht.
        simpl. rewrite Forall_forall in Hle, Hts.
        specialize (Hle t Ht). specialize (Hfull t Ht).
        rewrite (Hts t Ht) in Hfull. lia. }
      lia.
  - intros Hn Hsat. unfold V1Benchmark.random_assignment.
    fold (empty_teams np tpp ts).
    erewrite M_bind_returns; [| apply draw_returns].
    set (l := (rand_shuffle students (gen w)).1) in *.
    destruct (foldM_assign_total l (empty_teams np tpp ts)
                (mkWorld (self w) (rand_shuffle students (gen w)).2))
      as (teams & w1 & Hf).
    erewrite M_bind_returns; [| exact Hf].
    apply foldM_assign_Ok in Hf as (Hfr & _ & Hsub & _).
    rewrite Hmem0 in Hsub. simpl in Hsub. rewrite Hperm in Hsub.
    destruct (is_Ok_inv (V1.solution_fitness teams (length teams))) as [fit Hfit].
    { apply solution_fitness_total.
      - intros t Ht. apply fitness_total. intros s Hs. apply Hsat.
        + eapply elem_of_submseteq; [| exact Hsub]. unfold all_members.
          apply list_elem_of_bind. eauto.
        + destruct (same_frames_elem _ _ _ Hfr Ht) as (t0 & Ht0 & _ & -> & _).
          rewrite Forall_forall in Hall0. by apply Hall0.
      - by rewrite <- (Forall2_length _ _ _ Hfr), Hlen0. }
    erewrite M_bind_returns; [| unfold lift; by rewrite Hfit].
    by eexists _, _.
  - intros Hz. unfold V1Benchmark.random_assignment.
    rewrite Hz. simpl.
    erewrite M_bind_returns; [| apply draw_returns].
    erewrite M_bind_returns; [| apply foldM_assign_full; by intros t ?%elem_of_nil].
    done.
  - intros teams s w0. destruct (assign_total teams s w0) as (teams' & w' & Ha).
    exists teams', w'. split; [done |].
    apply assign_Ok in Ha as [(-> & _ & Hfull) | Hadd]; [by left | by right].
Qed.

End V1RandomAssignment.

(** ** Dealing the students round the teams, in [v2/benchmark.py] *)

(** The loop both functions run: the students of [l] go to the teams
    [k mod m], [(k+1) mod m], ... in turn. *)
Fixpoint deal_from (m : nat) (teams : list (list V2.Student)) (k : nat)
    (l : list V2.Student) : result (list (list V2.Student)) :=
  match l with
  | [] => Ok teams
  | s :: l' => teams' ← V2Benchmark.deal m teams k s; deal_from m teams' (S k) l'
  end.

(** The size of team [j] after [k] students were dealt to [m] teams. *)
Definition share (m k j : nat) : nat :=
  (k / m + if (j <? k mod m)%nat then 1 else 0)%nat.

Lemma share_succ m k j :
  (0 < m)%nat -> (j < m)%nat ->
  share m (S k) j = (share m k j + if decide (j = k mod m)%nat then 1 else 0)%nat.
Proof.
  intros Hm Hj. unfold share.
  pose proof (Nat.mod_upper_bound k m ltac:(lia)) as Hr.
  pose proof (Nat.div_mod_eq k m) as Hk.
  destruct (decide (S (k mod m) < m)%nat) as [Hlt | Hge].
  - assert (Hq : (S k / m = k / m)%nat).
    { symmetry. apply (Nat.div_unique (S k) m (k / m) (S (k mod m))); lia. }
    assert (Hr' : (S k mod m = S (k mod m))%nat).
    { symmetry. apply (Nat.mod_unique (S k) m (k / m) (S (k mod m))); lia. }
    rewrite Hq, Hr'. case_decide as Hjr.
    + subst j. rewrite (proj2 (Nat.ltb_lt _ _)) by lia.
      rewrite (proj2 (Nat.ltb_ge _ _)) by lia. lia.
    + destruct (j <? k mod m)%nat eqn:E.
      * apply Nat.ltb_lt in E. rewrite (proj2 (Nat.ltb_lt _ _)) by lia. lia.
      * apply Nat.ltb_ge in E. rewrite (proj2 (Nat.ltb_ge _ _)) by lia. lia.
  - assert (Hq : (S k / m = S (k / m))%nat).
    { symmetry. apply (Nat.div_unique (S k) m (S (k / m)) 0); lia. }
    assert (Hr' : (S k mod m = 0)%nat).
    { symmetry. apply (Nat.mod_unique (S k) m (S (k / m)) 0); lia. }
    rewrite Hq, Hr'. simpl. case_decide as Hjr.
    + subst j. rewrite (proj2 (Nat.ltb_ge _ _)) by lia. lia.
    + rewrite (proj2 (Nat.ltb_lt _ _)) by lia. lia.
Qed.

Lemma deal_Ok m teams k s :
  (0 < m)%nat -> length teams = m ->
  exists t, teams !! (k mod m)%nat = Some t
            /\ V2Benchmark.deal m teams k s = Ok (<[(k mod m)%nat := t ++ [s]]> teams).
Proof.
  intros Hm Hlen.
  pose proof (Nat.mod_upper_bound k m ltac:(lia)) as Hr.
  destruct (lookup_lt_is_Some_2 teams (k mod m)%nat ltac:(lia)) as [t Ht].
  exists t. split; [done |]. unfold V2Benchmark.deal, py_mod.
  rewrite (proj2 (Nat.eqb_neq m 0)) by lia. simpl.
  unfold py_update, py_getitem. by rewrite Ht.
Qed.

Lemma deal_no_team teams k s :
  V2Benchmark.deal 0 teams k s = Raise ZeroDivisionError.
Proof. done. Qed.

(** What the loop leaves: [m] teams that hold the old members and the
    students dealt, student [k + i] as member [(k + i) / m] of team
    [(k + i) mod m], the sizes of the teams differing by one at most. *)
Lemma deal_from_spec m l teams k :
  (0 < m)%nat -> length teams = m ->
  (forall j t, teams !! j = Some t -> length t = share m k j) ->
  exists teams',
    deal_from m teams k l = Ok teams'
    /\ length teams' = m
    /\ concat teams' ≡ₚ concat teams ++ l
    /\ (forall j t, teams' !! j = Some t -> length t = share m (k + length l) j)
    /\ (forall j t, teams !! j = Some t ->
          exists t', teams' !! j = Some t' /\ t `prefix_of` t')
    /\ (forall i s, l !! i = Some s ->
          exists t, teams' !! ((k + i) mod m)%nat = Some t
                    /\ t !! ((k + i) / m)%nat = Some s).
Proof.
  intros Hm. revert teams k.
  induction l as [| s l IH]; intros teams k Hlen Hsizes.
  - exists teams. split; [done |]. split; [done |].
    split; [by rewrite app_nil_r |]. simpl. rewrite Nat.add_0_r.
    split; [done |]. split; [| done]. intros j t Ht. by exists t.
  - destruct (deal_Ok m teams k s Hm Hlen) as (t0 & Ht0 & Hd).
    pose proof (Nat.mod_upper_bound k m ltac:(lia)) as Hr.
    set (teams1 := <[(k mod m)%nat := t0 ++ [s]]> teams) in *.
    destruct (IH teams1 (S k)) as (teams' & Hf & Hlen' & Hperm & Hsz & Hpre & Hpos).
    { unfold teams1. by rewrite length_insert. }
    { intros j t Hj. unfold teams1 in Hj.
      assert (Hjm : (j < m)%nat).
      { apply lookup_lt_Some in Hj. rewrite length_insert in Hj. lia. }
      rewrite share_succ by done.
      destruct (decide (j = k mod m)%nat) as [-> | Hne].
      - rewrite list_lookup_insert_eq in Hj by lia. injection Hj as <-.
        rewrite length_app, (Hsizes _ _ Ht0). simpl. lia.
      - rewrite list_lookup_insert_ne in Hj by done.
        rewrite (Hsizes _ _ Hj). lia. }
    exists teams'. cbn [deal_from]. rewrite Hd. simpl.
    split; [done |]. split; [done |]. split; [| split; [| split]].
    + rewrite Hperm. unfold teams1. rewrite concat_insert_app by done.
      simpl. by rewrite <- Permutation_middle.
    + intros j t Hj. rewrite (Hsz j t Hj). simpl. f_equal. lia.
    + intros j t Hj. destruct (decide (j = k mod m)%nat) as [-> | Hne].
      * destruct (Hpre (k mod m)%nat (t0 ++ [s])) as (t' & Ht' & Hp).
        { unfold teams1. rewrite list_lookup_insert_eq by lia. done. }
        rewrite Ht0 in Hj. injection Hj as <-.
        exists t'. split; [done |]. etransitivity; [| exact Hp].
        by apply prefix_app_r.
      * apply Hpre. unfold teams1. by rewrite list_lookup_insert_ne.
    + intros [| i] s' Hi; simpl in Hi.
      * injection Hi as <-. rewrite Nat.add_0_r.
        destruct (Hpre (k mod m)%nat (t0 ++ [s])) as (t' & Ht' & Hp).
        { unfold teams1. rewrite list_lookup_insert_eq by lia. done. }
        exists t'. split; [done |].
        eapply prefix_lookup_Some; [| exact Hp].
        rewrite lookup_app_r by (rewrite (Hsizes _ _ Ht0); unfold share;
          rewrite (proj2 (Nat.ltb_ge _ _)); lia).
        rewrite (Hsizes _ _ Ht0). unfold share.
        rewrite (proj2 (Nat.ltb_ge _ _)) by lia.
        by replace (k / m - (k / m + 0))%nat with 0%nat by lia.
      * replace (k + S i)%nat with (S k + i)%nat by lia. by apply Hpos.
Qed.

Lemma deal_from_no_team teams k s l :
  deal_from 0 teams k (s :: l) = Raise ZeroDivisionError.
Proof. done. Qed.

Lemma share_0 m j : share m 0 j = 0%nat.
Proof.
  unfold share. destruct m as [| m]; [done |].
  rewrite Nat.Div0.div_0_l, Nat.Div0.mod_0_l. done.
Qed.

Lemma replicate_nil_sizes m (j : nat) (t : list V2.Student) :
  replicate m [] !! j = Some t -> length t = share m 0 j.
Proof. intros Hj. apply lookup_replicate in Hj as [-> _]. by rewrite share_0. Qed.

(** The loop of [random_assignment] over [enumerate(students_copy)]. *)
Lemma enumerate_as_deal_from m teams (l : list V2.Student) k :
  foldM_result (fun teams (ix : nat * V2.Student) => V2Benchmark.deal m teams ix.1 ix.2)
               teams (imap (fun i => pair (k + i)%nat) l)
  = deal_from m teams k l.
Proof.
  revert teams k. induction l as [| s l IH]; intros teams k; [done |].
  cbn [imap foldM_result deal_from fst snd]. rewrite Nat.add_0_r.
  destruct (V2Benchmark.deal m teams k s) as [teams1 |]; simpl; [| done].
  rewrite <- (IH teams1 (S k)). f_equal. apply imap_ext. intros i x _. simpl.
  f_equal. lia.
Qed.

Section V2RandomAssignment.
Context {G : Type} `{RandomSource G}.

(** X20.  [random_assignment] of [v2/benchmark.py] deals the shuffled students
    round the teams: it returns [num_teams] teams that hold every student
    once, student [i] of the shuffled list as member [i / num_teams] of team
    [i mod num_teams], so that team [j] holds
    [n / num_teams + (1 if j < n mod num_teams else 0)] of the [n] students,
    whatever [team_size] is.  With no team it raises [ZeroDivisionError]
    unless there is no student. *)
Theorem v2_random_assignment_spec (students : list V2.Student)
    (num_teams team_size : nat) (w : World unit G) :
  ((0 < num_teams)%nat ->
   exists teams,
     V2Benchmark.random_assignment students num_teams team_size w
     = Ok (teams, mkWorld tt (rand_shuffle students (gen w)).2)
     /\ length teams = num_teams
     /\ concat teams ≡ₚ students
     /\ (forall j t, teams !! j = Some t ->
           length t = share num_teams (length students) j)
     /\ (forall i s, (rand_shuffle students (gen w)).1 !! i = Some s ->
           exists t, teams !! (i mod num_teams)%nat = Some t
                     /\ t !! (i / num_teams)%nat = Some s))
  /\ (students <> [] ->
      V2Benchmark.random_assignment students 0 team_size w
      = Raise ZeroDivisionError)
  /\ (exists w', V2Benchmark.random_assignment [] 0 team_size w = Ok ([], w')).
Proof.
  pose proof (rand_shuffle_perm _ students (gen w)) as Hperm.
  unfold V2Benchmark.random_assignment. split; [| split].
  - intros Hm. erewrite M_bind_returns; [| apply draw_returns].
    set (l := (rand_shuffle students (gen w)).1) in *.
    change (imap pair l) with (imap (fun i => pair (0 + i)%nat) l).
    rewrite enumerate_as_deal_from.
    destruct (deal_from_spec num_teams l (replicate num_teams []) 0 Hm)
      as (teams & Hf & Hlen & Hp & Hsz & _ & Hpos).
    { apply length_replicate. }
    { apply replicate_nil_sizes. }
    exists teams. unfold lift. rewrite Hf. destruct w as [[] g]. simpl.
    split; [done |]. split; [done |].
    rewrite concat_replicate_nil in Hp. simpl in *.
    split; [by rewrite Hp |]. split; [| done].
    intros j t Hj. rewrite (Hsz j t Hj). by rewrite (Permutation_length Hperm).
  - intros Hne. erewrite M_bind_returns; [| apply draw_returns].
    destruct (rand_shuffle students (gen w)).1 as [| s l'] eqn:El.
    + apply Permutation_nil_l in Hperm. done.
    + done.
  - erewrite M_bind_returns; [| apply draw_returns].
    pose proof (rand_shuffle_perm _ (@nil V2.Student) (gen w)) as Hnil.
    apply Permutation_nil_r in Hnil. rewrite Hnil. simpl. by eexists.
Qed.

End V2RandomAssignment.

(** ** [simulated_self_selection] *)

(** The first preference of a student, if any. *)
Definition first_choice (s : V2.Student) : option string :=
  head (V2.preferences s).

(** The distinct elements of a list, in the order of their first
    occurrence: the keys of a dictionary filled in that order. *)
Definition first_occurrences (l : list string) : list string :=
  fold_left (fun acc k => if decide (k ∈ acc) then acc else acc ++ [k]) l [].

(** The dictionary the first loop builds for the students [l]: under each
    first preference, in the order of first occurrence, the students who
    hold it, in the order of [l]. *)
Definition grouped (l : list V2.Student) : list (string * list V2.Student) :=
  map (fun k => (k, filter (fun s => first_choice s = Some k) l))
      (first_occurrences (omap first_choice l)).

Lemma first_occurrences_snoc l k :
  first_occurrences (l ++ [k])
  = if decide (k ∈ first_occurrences l) then first_occurrences l
    else first_occurrences l ++ [k].
Proof. unfold first_occurrences. by rewrite fold_left_app. Qed.

Lemma first_occurrences_spec l :
  NoDup (first_occurrences l) /\ forall k, k ∈ first_occurrences l <-> k ∈ l.
Proof.
  induction l as [| k l IH] using rev_ind.
  - split; [constructor | done].
  - destruct IH as [Hnd Hin]. rewrite first_occurrences_snoc.
    case_decide as Hk.
    + split; [done |]. intros k'. rewrite elem_of_app, list_elem_of_singleton, Hin.
      split; [by left | intros [? | ->]; [done | by apply Hin]].
    + split.
      * apply NoDup_app. split; [done |]. split; [| apply NoDup_singleton].
        intros x Hx ->%list_elem_of_singleton. done.
      * intros k'. by rewrite !elem_of_app, Hin.
Qed.

Lemma group_append_grouped key s ks (done_ : list V2.Student) :
  NoDup ks -> first_choice s = Some key ->
  (key ∉ ks -> filter (fun x => first_choice x = Some key) done_ = []) ->
  V2Benchmark.group_append key s
    (map (fun k => (k, filter (fun x => first_choice x = Some k) done_)) ks)
  = map (fun k => (k, filter (fun x => first_choice x = Some k) (done_ ++ [s])))
        (if decide (key ∈ ks) then ks else ks ++ [key]).
Proof.
  intros Hnd Hs Hnew.
  assert (Hsame : filter (fun x => first_choice x = Some key) (done_ ++ [s])
                  = filter (fun x => first_choice x = Some key) done_ ++ [s]).
  { rewrite filter_app. f_equal. rewrite filter_cons.
    by rewrite decide_True by done. }
  assert (Hother : forall k, k <> key ->
            filter (fun x => first_choice x = Some k) (done_ ++ [s])
            = filter (fun x => first_choice x = Some k) done_).
  { intros k Hk. rewrite filter_app, filter_cons.
    rewrite decide_False by congruence. by rewrite app_nil_r. }
  induction ks as [| k ks IH]; cbn [map V2Benchmark.group_append].
  - rewrite decide_False by (by intros ?%elem_of_nil). simpl.
    rewrite Hsame, Hnew by (by intros ?%elem_of_nil). done.
  - apply NoDup_cons in Hnd as [Hk Hnd].
    destruct (decide (k = key)) as [-> | Hne].
    + rewrite decide_True by left. cbn [map]. rewrite Hsame. f_equal.
      apply map_ext_in. intros k' Hk'. f_equal. rewrite Hother; [done |].
      intros ->. apply Hk. by apply list_elem_of_In.
    + rewrite IH; [| done |].
      2: { intros Hin. apply Hnew. intros [? | ?]%elem_of_cons; congruence. }
      destruct (decide (key ∈ ks)) as [Hin | Hnin].
      * rewrite decide_True by (by right). cbn [map]. by rewrite (Hother k Hne).
      * rewrite decide_False by (intros [? | ?]%elem_of_cons; congruence).
        cbn [map app]. by rewrite (Hother k Hne).
Qed.

Lemma group_by_first_choice_snoc l s :
  foldM_result
    (fun d s => first ← py_getitem (V2.preferences s) 0;
                Ok (V2Benchmark.group_append first s d))
    [] (l ++ [s])
  = d ← V2Benchmark.group_by_first_choice l;
    first ← py_getitem (V2.preferences s) 0;
    Ok (V2Benchmark.group_append first s d).
Proof.
  unfold V2Benchmark.group_by_first_choice. rewrite foldM_result_app.
  destruct (foldM_result _ [] l); simpl; [| done].
  by destruct (py_getitem (V2.preferences s) 0).
Qed.

(** The first loop returns the dictionary [grouped] when every student
    lists a preference, and raises [IndexError] otherwise. *)
Lemma group_by_first_choice_Ok l :
  Forall (fun s => V2.preferences s <> []) l ->
  V2Benchmark.group_by_first_choice l = Ok (grouped l).
Proof.
  induction l as [| s l IH] using rev_ind; intros Hall; [reflexivity |].
  apply Forall_app in Hall as [Hl Hs]. apply Forall_cons in Hs as [Hs _].
  unfold V2Benchmark.group_by_first_choice at 1.
  rewrite group_by_first_choice_snoc, (IH Hl). simpl.
  destruct (V2.preferences s) as [| key prefs] eqn:Hprefs; [done |]. simpl.
  f_equal. unfold grouped.
  assert (Hfc : first_choice s = Some key) by (unfold first_choice; by rewrite Hprefs).
  rewrite omap_app. simpl. rewrite Hfc. simpl.
  rewrite first_occurrences_snoc.
  destruct (first_occurrences_spec (omap first_choice l)) as [Hnd Hin].
  apply group_append_grouped; [done | done |].
  intros Hnin. apply elem_of_nil_inv. intros x Hx.
  apply list_elem_of_filter in Hx as [Hx Hxl]. apply Hnin, Hin.
  apply list_elem_of_omap. eauto.
Qed.

Lemma group_by_first_choice_raises l :
  ~ Forall (fun s => V2.preferences s <> []) l ->
  V2Benchmark.group_by_first_choice l = Raise IndexError.
Proof.
  unfold V2Benchmark.group_by_first_choice. generalize (@nil (string * list V2.Student)).
  induction l as [| s l IH]; intros d Hnot.
  - exfalso. apply Hnot. constructor.
  - cbn [foldM_result].
    destruct (V2.preferences s) as [| key prefs] eqn:Hprefs; [done |]. simpl.
    apply IH. intros Hall. apply Hnot. constructor; [by rewrite Hprefs | done].
Qed.

Lemma concat_group_append key s d :
  concat (map snd (V2Benchmark.group_append key s d)) ≡ₚ s :: concat (map snd d).
Proof.
  induction d as [| [k g] d IH]; [done |]. cbn [V2Benchmark.group_append].
  case_decide; cbn [map snd concat].
  - rewrite <- (assoc_L (++)). simpl. symmetry. apply Permutation_middle.
  - rewrite IH. symmetry. apply Permutation_middle.
Qed.

Lemma concat_grouped l :
  Forall (fun s => V2.preferences s <> []) l ->
  concat (map snd (grouped l)) ≡ₚ l.
Proof.
  induction l as [| s l IH] using rev_ind; intros Hall; [done |].
  pose proof (group_by_first_choice_Ok _ Hall) as E.
  apply Forall_app in Hall as [Hl Hs]. apply Forall_cons in Hs as [Hs _].
  unfold V2Benchmark.group_by_first_choice in E.
  rewrite group_by_first_choice_snoc, (group_by_first_choice_Ok _ Hl) in E.
  simpl in E. destruct (V2.preferences s) as [| key prefs]; [done |].
  simpl in E. injection E as <-.
  rewrite concat_group_append, (IH Hl). apply Permutation_cons_append.
Qed.

Lemma deal_from_app m teams k l1 l2 :
  deal_from m teams k (l1 ++ l2)
  = teams' ← deal_from m teams k l1; deal_from m teams' (k + length l1) l2.
Proof.
  revert teams k. induction l1 as [| s l1 IH]; intros teams k.
  - simpl. by rewrite Nat.add_0_r.
  - cbn [app deal_from]. destruct (V2Benchmark.deal m teams k s); simpl; [| done].
    rewrite IH. by replace (S k + length l1)%nat with (k + S (length l1))%nat by lia.
Qed.

(** The nested loops of [simulated_self_selection], with their counter. *)
Lemma nested_as_deal_from m groups teams k :
  foldM_result
    (fun st group =>
       foldM_result
         (fun (st : list (list V2.Student) * nat) student =>
            teams ← V2Benchmark.deal m st.1 st.2 student; Ok (teams, S st.2))
         st group)
    (teams, k) groups
  = teams' ← deal_from m teams k (concat groups);
    Ok (teams', (k + length (concat groups))%nat).
Proof.
  assert (Hinner : forall group teams k,
    foldM_result
      (fun (st : list (list V2.Student) * nat) student =>
         teams ← V2Benchmark.deal m st.1 st.2 student; Ok (teams, S st.2))
      (teams, k) group
    = teams' ← deal_from m teams k group; Ok (teams', (k + length group)%nat)).
  { induction group as [| s group IH]; intros teams0 k0.
    - simpl. by rewrite Nat.add_0_r.
    - cbn [foldM_result deal_from fst snd].
      destruct (V2Benchmark.deal m teams0 k0 s); simpl; [| done].
      rewrite IH. by replace (S k0 + length group)%nat with (k0 + S (length group))%nat by lia. }
  revert teams k. induction groups as [| group groups IH]; intros teams k.
  - simpl. by rewrite Nat.add_0_r.
  - cbn [foldM_result concat]. rewrite Hinner, deal_from_app.
    destruct (deal_from m teams k group); simpl; [| done].
    rewrite IH. destruct (deal_from _ _ _ (concat groups)); simpl; [| done].
    by rewrite length_app, Nat.add_assoc.
Qed.

(** X21.  [simulated_self_selection] groups the students by their first
    preference, the groups in the order in which the preferences first
    occur and the students of a group in the order of the input, and deals
    the groups one after the other round the teams: student [i] of that
    order is member [i / num_teams] of team [i mod num_teams].  It returns
    [num_teams] teams that hold every student once, team [j] holding
    [n / num_teams + (1 if j < n mod num_teams else 0)] students, whatever
    [team_size] is.  A student without a preference makes it raise
    [IndexError]; with no team it raises [ZeroDivisionError] unless there is
    no student. *)
Theorem simulated_self_selection_spec (students : list V2.Student)
    (num_teams team_size : nat) :
  (~ Forall (fun s => V2.preferences s <> []) students ->
   V2Benchmark.simulated_self_selection students num_teams team_size
   = Raise IndexError)
  /\ (Forall (fun s => V2.preferences s <> []) students -> students <> [] ->
      V2Benchmark.simulated_self_selection students 0 team_size
      = Raise ZeroDivisionError)
  /\ (Forall (fun s => V2.preferences s <> []) students -> (0 < num_teams)%nat ->
      exists teams,
        V2Benchmark.simulated_self_selection students num_teams team_size
        = Ok teams
        /\ V2Benchmark.group_by_first_choice students = Ok (grouped students)
        /\ length teams = num_teams
        /\ concat teams ≡ₚ students
        /\ (forall j t, teams !! j = Some t ->
              length t = share num_teams (length students) j)
        /\ (forall i s, concat (map snd (grouped students)) !! i = Some s ->
              exists t, teams !! (i mod num_teams)%nat = Some t
                        /\ t !! (i / num_teams)%nat = Some s)).
Proof.
  unfold V2Benchmark.simulated_self_selection. split; [| split].
  - intros Hnot. by rewrite group_by_first_choice_raises.
  - intros Hall Hne. rewrite (group_by_first_choice_Ok _ Hall).
    unfold mbind at 1. unfold result_bind at 1. cbv beta iota.
    rewrite nested_as_deal_from.
    pose proof (concat_grouped _ Hall) as Hperm.
    destruct (concat (map snd (grouped students))) as [| s l].
    + apply Permutation_nil_l in Hperm. done.
    + done.
  - intros Hall Hm. rewrite (group_by_first_choice_Ok _ Hall).
    unfold mbind at 1. unfold result_bind at 1. cbv beta iota.
    rewrite nested_as_deal_from.
    pose proof (concat_grouped _ Hall) as Hperm.
    destruct (deal_from_spec num_teams (concat (map snd (grouped students)))
                (replicate num_teams []) 0 Hm)
      as (teams & Hf & Hlen & Hp & Hsz & _ & Hpos).
    { apply length_replicate. }
    { apply replicate_nil_sizes. }
    exists teams. rewrite Hf. simpl. split; [done |]. split; [done |].
    split; [done |]. rewrite concat_replicate_nil in Hp. simpl in *.
    split; [by rewrite Hp |]. split; [| done].
    intros j t Hj. rewrite (Hsz j t Hj). by rewrite (Permutation_length Hperm).
Qed.

(** ** [evaluate_teams] and [evaluate] *)

Lemma mapM_result_raises {A B} (f : A -> result B) (e : exn) l :
  (forall x, x ∈ l -> is_Ok (f x) \/ f x = Raise e) ->
  (exists x, x ∈ l /\ f x = Raise e) ->
  mapM_result f l = Raise e.
Proof.
  induction l as [| x l IH]; intros Hall (y & Hy & Hfy).
  - by apply elem_of_nil in Hy.
  - cbn [mapM_result]. destruct (Hall x) as [Hok | Hr]; [left | | by rewrite Hr].
    apply is_Ok_inv in Hok as [b Hb]. rewrite Hb. simpl.
    rewrite IH; [done | |].
    + intros z Hz. apply Hall. by right.
    + apply elem_of_cons in Hy as [-> | Hy]; [congruence | eauto].
Qed.

Lemma member_preference_cases (s : V2.Student) :
  (V2.preferences s <> [] /\ V2.member_preference s = Ok 5%Z)
  \/ (V2.preferences s = [] /\ V2.member_preference s = Raise IndexError).
Proof.
  destruct (V2.preferences s) as [| p ps] eqn:E.
  - right. split; [done |]. unfold V2.member_preference. by rewrite E.
  - left. split; [done |]. apply v2_member_preference. by rewrite E.
Qed.

Lemma team_terms_cases (team : list V2.Student) :
  (Forall (fun s => V2.preferences s <> []) team /\ is_Ok (V2.team_terms team))
  \/ (~ Forall (fun s => V2.preferences s <> []) team
      /\ V2.team_terms team = Raise IndexError).
Proof.
  destruct (decide (Forall (fun s => V2.preferences s <> []) team)) as [Hall | Hnot].
  - left. split; [done |]. by destruct (v2_team_terms team Hall) as (p & -> & _).
  - right. split; [done |]. unfold V2.team_terms.
    rewrite (mapM_result_raises _ IndexError); [done | |].
    + intros s _. destruct (member_preference_cases s) as [[_ ->] | [_ ->]];
        [by left | by right].
    + apply not_Forall_Exists in Hnot; [| apply _].
      apply Exists_exists in Hnot as (s & Hs & Hp). exists s. split; [done |].
      destruct (member_preference_cases s) as [[? _] | [_ ->]]; [| done].
      by destruct Hp.
Qed.

Lemma team_terms_raise teams :
  ~ Forall (Forall (fun s => V2.preferences s <> [])) teams ->
  mapM_result V2.team_terms teams = Raise IndexError.
Proof.
  intros Hnot. apply mapM_result_raises.
  - intros team _. destruct (team_terms_cases team) as [[_ ?] | [_ ?]];
      [by left | by right].
  - apply not_Forall_Exists in Hnot; [| apply _].
    apply Exists_exists in Hnot as (team & Ht & Hp). exists team. split; [done |].
    by destruct (team_terms_cases team) as [[? _] | [_ ?]].
Qed.

Lemma mean_nonneg (l : list Q) : Forall (fun x => 0 <= x) l -> 0 <= mean l.
Proof.
  intros Hl. unfold mean. apply Qdiv_nat_nonneg.
  apply fold_left_Qplus_nonneg; [lra | done].
Qed.

Lemma mean_le_one (l : list Q) : Forall (fun x => x <= 1) l -> mean l <= 1.
Proof. intros Hl. unfold mean. by apply mean_le_1. Qed.

Lemma evaluate_teams_formula teams :
  teams <> [] -> Forall (Forall (fun s => V2.preferences s <> [])) teams ->
  exists d p,
    V2Benchmark.evaluate_teams teams = Ok (d, p)
    /\ d = mean (map v2_diversity_term teams)
    /\ p == mean (map v2_preference_term teams).
Proof.
  intros Hne Hall. unfold V2Benchmark.evaluate_teams.
  assert (Hterms : exists terms,
    mapM_result V2.team_terms teams = Ok terms
    /\ map fst terms = map v2_diversity_term teams
    /\ Forall2 Qeq (map snd terms) (map v2_preference_term teams)).
  { clear Hne. induction Hall as [| team teams Hteam _ IH]; simpl.
    - exists []. repeat split; constructor.
    - destruct (v2_team_terms team Hteam) as (pref & Ht & Hpref).
      destruct IH as (terms & Hts & Hd & Hp).
      rewrite Ht. simpl. rewrite Hts. simpl.
      eexists. split; [reflexivity |]. simpl. split; [by rewrite Hd |].
      constructor; [done | done]. }
  destruct Hterms as (terms & Hts & Hd & Hp). rewrite Hts.
  unfold mbind, result_bind.
  assert (Hlen : ~ inject_Z (Z.of_nat (length teams)) == 0).
  { apply inject_nat_nonzero. by destruct teams. }
  rewrite !py_div_nonzero by done.
  eexists _, _. split; [reflexivity |].
  unfold mean. rewrite !length_map, Hd. split; [done |].
  assert (E : py_sum (map snd terms) == py_sum (map v2_preference_term teams)).
  { unfold py_sum. by apply fold_left_Qplus_Qeq. }
  by rewrite E.
Qed.

(** X22.  [evaluate_teams] of the benchmark returns the two averages that
    [AntColonyOptimizer.evaluate] weighs: [evaluate] is
    [preference_weight * avg_pref + (1 - preference_weight) * avg_div].
    Both raise [ZeroDivisionError] on no team and [IndexError] when a member
    lists no preference (the [ValueError] the code passes over cannot
    occur).  Otherwise [avg_pref] is the share of the teams that are not
    empty, between 0 and 1, and [avg_div] the mean of the numbers of
    distinct roles over 9, at least 0 and at most 1 when no team has more
    than nine members. *)
Theorem evaluate_teams_spec (me : V2.AntColonyOptimizer)
    (teams : list (list V2.Student)) :
  V2.evaluate me teams
  = (r ← V2Benchmark.evaluate_teams teams;
     Ok (V2.preference_weight me * r.2 + (1 - V2.preference_weight me) * r.1))
  /\ V2Benchmark.evaluate_teams [] = Raise ZeroDivisionError
  /\ (~ Forall (Forall (fun s => V2.preferences s <> [])) teams ->
      V2Benchmark.evaluate_teams teams = Raise IndexError)
  /\ (teams <> [] -> Forall (Forall (fun s => V2.preferences s <> [])) teams ->
      exists d p,
        V2Benchmark.evaluate_teams teams = Ok (d, p)
        /\ d = mean (map v2_diversity_term teams)
        /\ p == mean (map v2_preference_term teams)
        /\ 0 <= p /\ p <= 1 /\ 0 <= d
        /\ (Forall (fun t => (length t <= 9)%nat) teams -> d <= 1)).
Proof.
  split; [| split; [done | split]].
  - unfold V2.evaluate, V2Benchmark.evaluate_teams.
    destruct (mapM_result V2.team_terms teams) as [terms |]; simpl; [| done].
    destruct (py_div (py_sum (map fst terms)) _); simpl; [| done].
    by destruct (py_div (py_sum (map snd terms)) _).
  - intros Hnot. unfold V2Benchmark.evaluate_teams.
    by rewrite team_terms_raise.
  - intros Hne Hall.
    destruct (evaluate_teams_formula teams Hne Hall) as (d & p & He & Hd & Hp).
    exists d, p. split; [done |]. split; [done |]. split; [done |].
    assert (Hp0 : Forall (fun x => 0 <= x) (map v2_preference_term teams)).
    { apply Forall_fmap, Forall_true. intros t. unfold v2_preference_term. simpl.
      case_decide; discriminate. }
    assert (Hp1 : Forall (fun x => x <= 1) (map v2_preference_term teams)).
    { apply Forall_fmap, Forall_true. intros t. unfold v2_preference_term. simpl.
      case_decide; discriminate. }
    assert (Hd0 : Forall (fun x => 0 <= x) (map v2_diversity_term teams)).
    { apply Forall_fmap, Forall_true. intros t. unfold v2_diversity_term. simpl.
      apply Qle_shift_div_l; [reflexivity |]. rewrite Qmult_0_l.
      rewrite <- (Zle_Qle 0). lia. }
    split; [rewrite Hp; by apply mean_nonneg |].
    split; [rewrite Hp; by apply mean_le_one |].
    split; [rewrite Hd; by apply mean_nonneg |].
    intros Hnine. rewrite Hd. apply mean_le_one.
    apply Forall_fmap. eapply Forall_impl; [exact Hnine |].
    intros t Ht. simpl. unfold v2_diversity_term.
    apply Qle_shift_div_r; [reflexivity |]. rewrite Qmult_1_l.
    change 9 with (inject_Z 9). rewrite <- Zle_Qle.
    pose proof (distinct_count_le (map V2.belbin_role t)) as Hle.
    rewrite length_map in Hle. simpl in Ht. lia.
Qed.

(** ** Optimizers without a team *)

Section NoTeams.
Context {G : Type} `{RandomSource G} `{FloatPow}.

Lemma v2_place_no_team student (w : World V2.AntColonyOptimizer G) :
  V2.place [] student w = Ok ([], w).
Proof. apply v2_place_full. by intros t ?%elem_of_nil. Qed.

(** X23.  Without a team, a construction of v1 raises [IndexError] at the first
    student, and [ZeroDivisionError] at the fitness when there is no
    student; a construction of v2 returns no team, [evaluate] raises
    [ZeroDivisionError] on it, and so does a run with an iteration and an
    ant. *)
Theorem optimizers_without_teams :
  (forall (w : World V1.ACO G),
     V1.base_teams (self w) = [] -> V1.aco_students (self w) <> [] ->
     V1.construct_solution w = Raise IndexError)
  /\ (forall (w : World V1.ACO G),
        V1.base_teams (self w) = [] -> V1.aco_students (self w) = [] ->
        V1.n_teams (self w) = 0%nat ->
        V1.construct_solution w = Raise ZeroDivisionError)
  /\ (forall (w : World V2.AntColonyOptimizer G),
        V2.num_teams (self w) = 0%nat ->
        V2.construct_solution w
        = Ok ([], mkWorld (self w) (rand_shuffle (V2.students (self w)) (gen w)).2))
  /\ (forall me : V2.AntColonyOptimizer, V2.evaluate me [] = Raise ZeroDivisionError)
  /\ (forall (w : World V2.AntColonyOptimizer G),
        V2.num_teams (self w) = 0%nat ->
        (0 < V2.max_iter (self w))%nat -> (0 < V2.num_ants (self w))%nat ->
        V2.run w = Raise ZeroDivisionError).
Proof.
  assert (Hv2 : forall (w : World V2.AntColonyOptimizer G),
        V2.num_teams (self w) = 0%nat ->
        V2.construct_solution w
        = Ok ([], mkWorld (self w) (rand_shuffle (V2.students (self w)) (gen w)).2)).
  { intros w Hz. unfold V2.construct_solution.
    erewrite M_bind_returns; [| reflexivity].
    erewrite M_bind_returns; [| apply draw_returns].
    rewrite Hz. simpl. apply v2_foldM_place_full. by intros t ?%elem_of_nil. }
  split; [| split; [| split; [exact Hv2 | split; [done |]]]].
  - intros w Hb Hst. unfold V1.construct_solution.
    erewrite M_bind_returns; [| reflexivity].
    erewrite M_bind_returns; [| apply draw_returns].
    apply M_bind_raises. rewrite Hb. simpl.
    pose proof (rand_shuffle_perm _ (V1.aco_students (self w)) (gen w)) as Hperm.
    destruct (rand_shuffle (V1.aco_students (self w)) (gen w)).1 as [| s l].
    + apply Permutation_nil_l in Hperm. done.
    + cbn [foldM]. apply M_bind_raises. apply place_no_room.
      by intros t ?%elem_of_nil.
  - intros w Hb Hst Hn. unfold V1.construct_solution.
    erewrite M_bind_returns; [| reflexivity].
    erewrite M_bind_returns; [| apply draw_returns].
    pose proof (rand_shuffle_perm _ (V1.aco_students (self w)) (gen w)) as Hperm.
    assert (E : (rand_shuffle (V1.aco_students (self w)) (gen w)).1 = []).
    { apply Permutation_nil_r. by rewrite Hperm, Hst. }
    rewrite Hb, E. simpl. rewrite Hn. done.
  - intros w Hz Hit Hants. unfold V2.run.
    erewrite M_bind_returns; [| reflexivity].
    destruct (V2.max_iter (self w)) as [| n]; [lia |]. cbn [seq foldM].
    apply M_bind_raises. unfold V2.iteration.
    erewrite M_bind_returns; [| reflexivity]. apply M_bind_raises.
    destruct (V2.num_ants (self w)) as [| m]; [lia |]. cbn [V2.ants].
    apply M_bind_raises. unfold V2.ant.
    erewrite M_bind_returns; [| reflexivity].
    erewrite M_bind_returns; [| by apply Hv2].
    apply M_bind_raises. done.
Qed.

End NoTeams.
